(** * qrCodeGenerator: QR rendering, logo overlay and animated pipeline

    A shallow embedding of [js/qr-generator.js], [js/image-processor.js]
    and the application coordinator (class [QRCodeApp]).

    Conventions of the embedding.
    - JavaScript numbers that carry geometry (cell sizes, coordinates,
      radii) are exact rationals [Q]; the literals [0.45], [0.3], [0.5],
      [0.2] and [0.25] are the fractions they denote.  The doubles of the
      code differ from them by rounding errors of some 1e-14 pixel:
      statements about geometry name the coordinates as expressions or
      keep a margin from the edges of the shapes.  Where the code narrows
      a computed double to an integer (the size of a resized image, the
      percentage of the progress) and where two computed edges are to
      coincide, the computation is carried out in binary64 arithmetic
      ([Double]).  Integer quantities (pixel sizes, module counts,
      delays) are [Z] or [nat].
    - A canvas is the ordered list of drawing calls issued on its 2D
      context since its backing store was last reset, together with its
      dimensions and current [fillStyle].  The image a canvas shows is
      read off that list point by point ([pixelAt]): a point is painted by
      the last call whose shape contains it.  Rasterisation to device
      pixels (anti-aliasing along shape edges) is not part of the model.
    - Colours are opaque [#rrggbb] values, as the colour inputs deliver
      them.
    - Canvas elements are objects with identity: they live in a heap
      ([gmap nat Canvas]) and are passed around by reference.
    - External collaborators (the QR encoder, the GIF decoder and encoder,
      the image loader) are fields of the record [Window]. *)

From Stdlib Require Import ZArith QArith Qround Qpower Lqa Lia Ascii String List.
From Stdlib Require Import SpecFloat.
From stdpp Require Import base option gmap strings pretty list.

Local Open Scope Z_scope.
Local Open Scope string_scope.

(** ** Rational comparisons as booleans *)

Definition Qlt_bool (x y : Q) : bool := negb (Qle_bool y x).

(** [sq x] is [x * x]. *)
Definition sq (x : Q) : Q := (x * x)%Q.

(** ** Double-precision numbers *)

(** A JavaScript number is an IEEE 754 binary64 value.  Where the result
    of the code hangs on the rounding of single operations (a computed
    length that a canvas truncates to an integer, a percentage that is
    rounded to an integer, two edges that are to meet) the computation is
    carried out on [Double.t], the Standard Library's specification of
    binary64 arithmetic: 53 bits of precision, round to nearest, ties to
    even. *)
Module Double.

Definition t : Type := spec_float.

(** The double nearest to an integer: the integer itself below 2^53. *)
Definition ofZ (z : Z) : t := binary_normalize 53 1024 z 0 false.

Definition add : t -> t -> t := SFadd 53 1024.
Definition mul : t -> t -> t := SFmul 53 1024.
Definition div : t -> t -> t := SFdiv 53 1024.

(** The number that the fraction [n / d] of two integers below 2^53
    evaluates to: the double nearest to it. *)
Definition ofQ (q : Q) : t := div (ofZ (Qnum q)) (ofZ (Zpos (Qden q))).

(** The exact value of a finite number; [None] for [NaN] and the
    infinities. *)
Definition value (x : t) : option Q :=
  match x with
  | S754_zero _ => Some 0%Q
  | S754_finite s m e =>
      Some (inject_Z (if s then Zneg m else Zpos m) * Qpower 2 e)%Q
  | S754_infinity _ => None
  | S754_nan => None
  end.

(** The value of a finite number, 0 for the others. *)
Definition toQ (x : t) : Q :=
  match value x with Some q => q | None => 0%Q end.

(** [x < y]: the order of the values for finite numbers. *)
Definition ltb (x y : t) : bool :=
  match value x, value y with
  | Some a, Some b => Qlt_bool a b
  | _, _ => SFltb x y
  end.

End Double.

(** ** The 2D canvas *)

Inductive color : Type := RGB (r g b : Z).

(** ['#000000'], the default [fillStyle] of a context, and ['#ffffff']. *)
Definition black : color := RGB 0 0 0.
Definition white : color := RGB 255 255 255.

(** A loaded [HTMLImageElement]. *)
Record Image : Type := mkImage {
  img_width : Z;
  img_height : Z;
  img_src : string
}.

(** Raw RGBA pixel data with its dimensions. *)
Record ImageData : Type := mkImageData {
  data : list Z;
  data_width : Z;
  data_height : Z
}.

(** One drawing call on a 2D context.
    - [FillCircle] is [beginPath(); arc(cx, cy, r, 0, Math.PI * 2); fill()],
      for a radius that is not negative;
    - [FillRoundedRect] is the closed path of [moveTo]/[lineTo]/[arcTo]
      around the rectangle [(x, y, w, h)] with corner radius [r], filled,
      for a radius that is not negative;
    - [DrawCanvas src sw sh dx dy] is [drawImage(canvas, dx, dy)] of a
      canvas whose content was [src] and whose size was [sw] x [sh];
    - [DrawImage] is [drawImage(image, dx, dy, dw, dh)];
    - [PutImageData] is [putImageData(imageData, dx, dy)]. *)
#[warnings="-register-all"]
Inductive DrawOp : Type :=
| ClearRect (x y w h : Q)
| FillRect (style : color) (x y w h : Q)
| FillCircle (style : color) (cx cy r : Q)
| FillRoundedRect (style : color) (x y w h r : Q)
| DrawCanvas (src : list DrawOp) (sw sh : Z) (dx dy : Q)
| DrawImage (img : Image) (dx dy dw dh : Q)
| PutImageData (d : ImageData) (dx dy : Q).

Record Canvas : Type := mkCanvas {
  width : Z;
  height : Z;
  fillStyle : color;
  content : list DrawOp
}.

(** [document.createElement('canvas')]: 300 x 150, nothing drawn. *)
Definition newCanvas : Canvas :=
  {| width := 300; height := 150; fillStyle := black; content := [] |}.

(** Assigning [canvas.width] or [canvas.height] resets the backing store
    and the context state.  [v] is a length that the attribute takes as
    it is, an integer from 0 to 2^31 - 1; what becomes of another number
    is [ImageProcessor.canvasLength]. *)
Definition set_width (v : Z) (c : Canvas) : Canvas :=
  {| width := v; height := height c; fillStyle := black; content := [] |}.

Definition set_height (v : Z) (c : Canvas) : Canvas :=
  {| width := width c; height := v; fillStyle := black; content := [] |}.

Definition set_fillStyle (v : color) (c : Canvas) : Canvas :=
  {| width := width c; height := height c; fillStyle := v;
     content := content c |}.

Definition draw (op : DrawOp) (c : Canvas) : Canvas :=
  {| width := width c; height := height c; fillStyle := fillStyle c;
     content := content c ++ [op] |}.

Definition clearRect (x y w h : Q) (c : Canvas) : Canvas :=
  draw (ClearRect x y w h) c.

Definition fillRect (x y w h : Q) (c : Canvas) : Canvas :=
  draw (FillRect (fillStyle c) x y w h) c.

Definition fillCircle (cx cy r : Q) (c : Canvas) : Canvas :=
  draw (FillCircle (fillStyle c) cx cy r) c.

Definition fillRoundedRect (x y w h r : Q) (c : Canvas) : Canvas :=
  draw (FillRoundedRect (fillStyle c) x y w h r) c.

(** *** Which points a drawing call paints *)

(** The rectangle [(x, y, w, h)] holds the points [x <= px < x + w],
    [y <= py < y + h]. *)
Definition inRect (x y w h px py : Q) : bool :=
  Qle_bool x px && Qlt_bool px (x + w) &&
  Qle_bool y py && Qlt_bool py (y + h).

Definition inCircle (cx cy r px py : Q) : bool :=
  Qle_bool (sq (px - cx) + sq (py - cy)) (sq r).

(** Inside the rectangle and, within [r] of a corner on both axes, inside
    that corner's circle. *)
Definition inRoundedRect (x y w h r px py : Q) : bool :=
  inRect x y w h px py &&
  let nearL := Qlt_bool px (x + r) in
  let nearR := Qlt_bool (x + w - r) px in
  let nearT := Qlt_bool py (y + r) in
  let nearB := Qlt_bool (y + h - r) py in
  implb (nearL && nearT) (inCircle (x + r) (y + r) r px py) &&
  implb (nearR && nearT) (inCircle (x + w - r) (y + r) r px py) &&
  implb (nearR && nearB) (inCircle (x + w - r) (y + h - r) r px py) &&
  implb (nearL && nearB) (inCircle (x + r) (y + h - r) r px py).

Definition covers (op : DrawOp) (px py : Q) : bool :=
  match op with
  | ClearRect x y w h => inRect x y w h px py
  | FillRect _ x y w h => inRect x y w h px py
  | FillCircle _ cx cy r => inCircle cx cy r px py
  | FillRoundedRect _ x y w h r => inRoundedRect x y w h r px py
  | DrawCanvas _ sw sh dx dy =>
      inRect dx dy (inject_Z sw) (inject_Z sh) px py
  | DrawImage _ dx dy dw dh => inRect dx dy dw dh px py
  | PutImageData d dx dy =>
      inRect dx dy (inject_Z (data_width d)) (inject_Z (data_height d)) px py
  end.

(** How many of the calls [ops] paint the point. *)
Definition coverCount (ops : list DrawOp) (px py : Q) : nat :=
  length (List.filter (fun op => covers op px py) ops).

(** *** What a point shows *)

(** A point is transparent (zero alpha), shows a solid colour, shows an
    image sample drawn over what was there, or shows one cell of raw
    pixel data. *)
Inductive Pixel : Type :=
| Transparent
| Solid (c : color)
| Sampled (img : Image) (u v : Q) (under : Pixel)
| Raw (d : ImageData) (col row : Z).

Fixpoint over (top under : Pixel) : Pixel :=
  match top with
  | Transparent => under
  | Solid c => Solid c
  | Sampled img u v t => Sampled img u v (over t under)
  | Raw d col row => Raw d col row
  end.

Fixpoint paintOp (op : DrawOp) (px py : Q) (under : Pixel) : Pixel :=
  if covers op px py then
    match op with
    | ClearRect _ _ _ _ => Transparent
    | FillRect c _ _ _ _ => Solid c
    | FillCircle c _ _ _ => Solid c
    | FillRoundedRect c _ _ _ _ _ => Solid c
    | DrawCanvas src _ _ dx dy =>
        over (fold_left (fun acc o => paintOp o (px - dx) (py - dy) acc)
                src Transparent) under
    | DrawImage img dx dy dw dh =>
        Sampled img ((px - dx) / dw) ((py - dy) / dh) under
    | PutImageData d dx dy => Raw d (Qfloor (px - dx)) (Qfloor (py - dy))
    end
  else under.

Definition paint (ops : list DrawOp) (px py : Q) (under : Pixel) : Pixel :=
  fold_left (fun acc o => paintOp o px py acc) ops under.

(** The image shown by a canvas at a point of its surface. *)
Definition pixelAt (c : Canvas) (px py : Q) : Pixel :=
  if inRect 0 0 (inject_Z (width c)) (inject_Z (height c)) px py
  then paint (content c) px py Transparent
  else Transparent.

(** ** The external QR encoder *)

(** What [qrcode(typeNumber, errorCorrectionLevel)] hands back once
    [addData] and [make] went through. *)
Record QRCode : Type := mkQRCode {
  getModuleCount : nat;
  isDark : nat -> nat -> bool
}.

(** ** Exceptions, the world and the computation monad *)

(** What a [throw] hands to the handler.  [Error] and [LibraryError] are
    [Error] objects with a message, tagged by where they were created:
    [Error] by a [throw new Error(..)] of this code, [LibraryError] inside
    an external collaborator.  [ThrownString] is a bare string, which is
    what the QR encoder throws ([throw 'code length overflow. (..)']). *)
Inductive Exn : Type :=
| Error (msg : string)
| LibraryError (msg : string)
| ThrownString (value : string).

(** [error.message], as a template literal prints it: a string has no
    such property. *)
Definition message (e : Exn) : string :=
  match e with
  | Error m => m
  | LibraryError m => m
  | ThrownString _ => "undefined"
  end.

Inductive Outcome (A : Type) : Type :=
| Return (a : A)
| Throw (e : Exn).
Arguments Return {A} a.
Arguments Throw {A} e.

(** What the page shows in the result area. *)
Inductive Display : Type :=
| Placeholder
| ShowsCanvas (c : Canvas)
| ShowsGIF (dataURL : string).

Record Blob : Type := mkBlob { blob_data : string }.

(** [UIController]: its [state.currentCanvas], what is displayed, and the
    messages it has put up, oldest first. *)
Record UI : Type := mkUI {
  currentCanvas : option nat;
  displayed : Display;
  errorsShown : list string;
  loadingMessages : list string
}.

(** [QRCodeApp.state] (the icon manifest plays no part here). *)
Record AppState : Type := mkAppState {
  currentLogo : option string;
  isAnimatedGIF : bool;
  animatedGIFBlob : option Blob
}.

(** The mutable state of a page: the canvas elements by identity, the
    calls made so far to the QR encoder (oldest first), the frames held
    by the GIF encoder instance created last, the [UIController] and the
    [QRCodeApp] state. *)
Record World : Type := mkWorld {
  canvases : gmap nat Canvas;
  encoderCalls : list (Z * string * string);
  gifFrames : list (Canvas * Z);
  ui : UI;
  app : AppState
}.

Definition M (A : Type) : Type := World -> World * Outcome A.

#[export] Instance M_ret : MRet M := fun A a w => (w, Return a).

#[export] Instance M_bind : MBind M := fun A B f m w =>
  match m w with
  | (w', Return a) => f a w'
  | (w', Throw e) => (w', Throw e)
  end.

Definition throw {A : Type} (e : Exn) : M A := fun w => (w, Throw e).

(** [try { body } catch (error) { handler }] *)
Definition try_catch {A : Type} (body : M A) (handler : Exn -> M A) : M A :=
  fun w =>
    match body w with
    | (w', Return a) => (w', Return a)
    | (w', Throw e) => handler e w'
    end.

(** The canvas an identifier refers to. *)
Definition canvasOf (w : World) (id : nat) : Canvas :=
  default newCanvas (canvases w !! id).

Definition set_canvases (h : gmap nat Canvas) (w : World) : World :=
  {| canvases := h; encoderCalls := encoderCalls w;
     gifFrames := gifFrames w; ui := ui w; app := app w |}.

Definition set_encoderCalls (l : list (Z * string * string)) (w : World)
    : World :=
  {| canvases := canvases w; encoderCalls := l;
     gifFrames := gifFrames w; ui := ui w; app := app w |}.

Definition set_gifFrames (l : list (Canvas * Z)) (w : World) : World :=
  {| canvases := canvases w; encoderCalls := encoderCalls w;
     gifFrames := l; ui := ui w; app := app w |}.

Definition set_ui (u : UI) (w : World) : World :=
  {| canvases := canvases w; encoderCalls := encoderCalls w;
     gifFrames := gifFrames w; ui := u; app := app w |}.

Definition set_app (a : AppState) (w : World) : World :=
  {| canvases := canvases w; encoderCalls := encoderCalls w;
     gifFrames := gifFrames w; ui := ui w; app := a |}.

(** [document.createElement('canvas')] *)
Definition createCanvas : M nat := fun w =>
  let id := fresh (dom (canvases w)) in
  (set_canvases (<[id := newCanvas]> (canvases w)) w, Return id).

(** Run drawing calls on the canvas [id]. *)
Definition onCanvas (id : nat) (f : Canvas -> Canvas) : M unit := fun w =>
  (set_canvases (<[id := f (canvasOf w id)]> (canvases w)) w, Return tt).

(** [v || d] for a number [v] that may be absent: [d] replaces a missing
    value and 0. *)
Definition or_default (v : option Z) (d : Z) : Z :=
  match v with
  | Some n => if (n =? 0)%Z then d else n
  | None => d
  end.

(** [!s] is false exactly when [s] is a non-empty string. *)
Definition truthy (s : option string) : bool :=
  match s with
  | Some "" => false
  | Some _ => true
  | None => false
  end.

Definition getCanvas (id : nat) : M Canvas := fun w =>
  (w, Return (canvasOf w id)).

(** The outcome of a call into an external collaborator: its result, or
    the exception it threw. *)
Definition lift {A : Type} (r : string + A) : M A := fun w =>
  (w, match r with
      | inr a => Return a
      | inl msg => Throw (LibraryError msg)
      end).

(** [s.split(sep)] for a one-character separator. *)
Fixpoint split (sep : ascii) (s : string) : list string :=
  match s with
  | EmptyString => [EmptyString]
  | String ch rest =>
      if Ascii.eqb ch sep then EmptyString :: split sep rest
      else match split sep rest with
           | piece :: pieces => String ch piece :: pieces
           | [] => [String ch EmptyString]
           end
  end.

(** ** Decoded GIF data *)

Record Dims : Type := mkDims { dims_width : Z; dims_height : Z }.

(** A frame as [gifuct.decompressFrames] yields it; [raw_delay] is [None]
    when the frame object has no [delay]. *)
Record GifFrame : Type := mkGifFrame {
  raw_patch : list Z;
  raw_dims : Dims;
  raw_delay : option Z
}.

(** ** External collaborators *)

(** A run of the gif.js encoder: the values it reports through
    ['progress'], then ['finished'] with the blob or ['error'];
    [RenderThrew] is an exception thrown synchronously by [render()]. *)
Inductive GifRun : Type :=
| Finished (progress : list Q) (blob : Blob)
| ErrorEvent (progress : list Q) (error : string)
| RenderThrew (error : string).

Record Window : Type := mkWindow {
  (** [qrcode(typeNumber, level)], [addData(text)], [make()]: the module
      matrix, or the message of the exception the library throws. *)
  qrcode : Z -> string -> string -> string + QRCode;
  (** [new Image()] with [src] set: the loaded image, or [None] when
      [onerror] fires. *)
  Image_load : string -> option Image;
  (** [atob] *)
  atob : string -> string + list Z;
  (** [window.gifuct]: [parseGIF] followed by [decompressFrames]. *)
  gifuct : option (list Z -> string + list GifFrame);
  (** [new ImageData(new Uint8ClampedArray(patch), width, height)] *)
  ImageData_new : list Z -> Z -> Z -> string + ImageData;
  (** [window.GIF]: what [render()] does with the frames added. *)
  GIF : option (list (Canvas * Z) -> GifRun);
  (** [canvas.toDataURL()] *)
  toDataURL : Canvas -> string;
  (** [FileReader.readAsDataURL(blob)]: [None] when [onerror] fires. *)
  readAsDataURL : Blob -> option string
}.

(** ** The page *)

(** [s.trim()]; strings are sequences of code units below 256, of which
    the white space and line terminator characters are TAB, LF, VT, FF,
    CR, SPACE and NBSP. *)
Definition isWhiteSpace (ch : ascii) : bool :=
  let n := nat_of_ascii ch in
  (n =? 9)%nat || (n =? 10)%nat || (n =? 11)%nat || (n =? 12)%nat ||
  (n =? 13)%nat || (n =? 32)%nat || (n =? 160)%nat.

Fixpoint trimStart (s : string) : string :=
  match s with
  | EmptyString => EmptyString
  | String ch rest => if isWhiteSpace ch then trimStart rest else s
  end.

Fixpoint trimEnd (s : string) : string :=
  match s with
  | EmptyString => EmptyString
  | String ch rest =>
      match trimEnd rest with
      | EmptyString =>
          if isWhiteSpace ch then EmptyString else String ch EmptyString
      | rest' => String ch rest'
      end
  end.

Definition trim (s : string) : string := trimEnd (trimStart s).

(** The elements [UIController] reads and writes, and its
    [state.iconPickerOpen]: the form controls by their values ([sizeSelect]
    after [parseInt], [activeStyle] the [data-style] of the active style
    button if there is one), the ['hidden'] class of the loading
    indicator, the logo preview and the icon picker, the [disabled] flag
    of the generate button, the value of the file input ([None] if the
    element is missing) and the ['selected'] class of each icon item. *)
Record Controls : Type := mkControls {
  qrInput : string;
  sizeSelect : Z;
  errorCorrectionSelect : string;
  activeStyle : option string;
  fgColorInput : color;
  bgColorInput : color;
  transparentBgCheckbox : bool;
  loadingIndicatorHidden : bool;
  generateBtnDisabled : bool;
  logoPreviewImgSrc : string;
  logoPreviewHidden : bool;
  iconPickerHidden : bool;
  iconPickerOpen : bool;
  logoUploadValue : option string;
  iconItemsSelected : list bool
}.

(** A page: the world of the drawing pipeline and the controls. *)
Record Page : Type := mkPage {
  world : World;
  controls : Controls
}.

Definition P (A : Type) : Type := Page -> Page * Outcome A.

#[export] Instance P_ret : MRet P := fun A a p => (p, Return a).

#[export] Instance P_bind : MBind P := fun A B f m p =>
  match m p with
  | (p', Return a) => f a p'
  | (p', Throw e) => (p', Throw e)
  end.

(** A computation of the pipeline, run on the page. *)
Definition liftW {A : Type} (m : M A) : P A := fun p =>
  let (w', outcome) := m (world p) in
  ({| world := w'; controls := controls p |}, outcome).

Definition set_controls (c : Controls) (p : Page) : Page :=
  {| world := world p; controls := c |}.

(** [try { body } catch (error) { handler }] on the page. *)
Definition try_catch_P {A : Type} (body : P A) (handler : Exn -> P A)
    : P A :=
  fun p =>
    match body p with
    | (p', Return a) => (p', Return a)
    | (p', Throw e) => handler e p'
    end.

(** [try { body } finally { finalizer }]: the finalizer runs however the
    body ends, and the body's completion stands unless the finalizer
    throws. *)
Definition try_finally {A : Type} (body : P A) (finalizer : P unit) : P A :=
  fun p =>
    let (p1, outcome) := body p in
    match finalizer p1 with
    | (p2, Return _) => (p2, outcome)
    | (p2, Throw e) => (p2, Throw e)
    end.

(** * [js/qr-generator.js] *)

Module QRGenerator.

(** The argument of [generate]; a field is [None] when the property is
    absent ([undefined]) and the destructuring default applies. *)
Record Options : Type := mkOptions {
  text : option string;
  size : option Z;
  errorCorrection : option string;
  style : option string;
  foregroundColor : option color;
  backgroundColor : option color;
  transparentBackground : option bool;
  margin : option Z
}.

(** The argument of [renderToCanvas]. *)
Record RenderOptions : Type := mkRenderOptions {
  r_size : Z;
  r_style : string;
  r_foregroundColor : color;
  r_backgroundColor : color;
  r_transparentBackground : bool;
  r_margin : Z
}.

(** A [QRGenerator] instance: [this.canvas], created by the constructor. *)
Record t : Type := mk { canvas : nat }.

Definition constructor : M t :=
  id ← createCanvas; mret (mk id).

(** [(index + margin) * cellSize] *)
Definition cellOrigin (index : nat) (margin : Z) (cellSize : Q) : Q :=
  (inject_Z (Z.of_nat index + margin) * cellSize)%Q.

(** [(index + margin + 0.5) * cellSize] *)
Definition cellCentre (index : nat) (margin : Z) (cellSize : Q) : Q :=
  ((inject_Z (Z.of_nat index + margin) + (1 # 2)) * cellSize)%Q.

(** [for (row ...) for (col ...) if (qr.isDark(row, col)) body(row, col)] *)
Definition forDarkModules (qr : QRCode)
    (body : nat -> nat -> Canvas -> Canvas) (c : Canvas) : Canvas :=
  let moduleCount := getModuleCount qr in
  foldl (fun c row =>
    foldl (fun c col => if isDark qr row col then body row col c else c)
      c (seq 0 moduleCount))
    c (seq 0 moduleCount).

Definition renderSquares (qr : QRCode) (cellSize : Q) (margin : Z)
    (c : Canvas) : Canvas :=
  forDarkModules qr (fun row col =>
    let x := cellOrigin col margin cellSize in
    let y := cellOrigin row margin cellSize in
    fillRect x y cellSize cellSize) c.

Definition renderDots (qr : QRCode) (cellSize : Q) (margin : Z)
    (c : Canvas) : Canvas :=
  let radius := (cellSize * (45 # 100))%Q in
  forDarkModules qr (fun row col =>
    let centerX := cellCentre col margin cellSize in
    let centerY := cellCentre row margin cellSize in
    fillCircle centerX centerY radius) c.

Definition drawRoundedRect (x y width height radius : Q) (c : Canvas)
    : Canvas :=
  fillRoundedRect x y width height radius c.

Definition renderRounded (qr : QRCode) (cellSize : Q) (margin : Z)
    (c : Canvas) : Canvas :=
  let borderRadius := (cellSize * (3 # 10))%Q in
  forDarkModules qr (fun row col =>
    let x := cellOrigin col margin cellSize in
    let y := cellOrigin row margin cellSize in
    drawRoundedRect x y cellSize cellSize borderRadius) c.

Definition cellSizeOf (qr : QRCode) (size margin : Z) : Q :=
  let moduleCount := getModuleCount qr in
  let totalModules := Z.of_nat moduleCount + margin * 2 in
  (inject_Z size / inject_Z totalModules)%Q.

(** *** The squares in double precision

    [cellSize], the origins of the cells and the squares of
    [renderSquares] as the doubles of the code: [size / totalModules] and
    [(index + margin) * cellSize] are rounded once each; the sums of
    integers under them are exact. *)
Definition cellSizeDouble (qr : QRCode) (size margin : Z) : Double.t :=
  let moduleCount := getModuleCount qr in
  let totalModules := Z.of_nat moduleCount + margin * 2 in
  Double.div (Double.ofZ size) (Double.ofZ totalModules).

Definition cellOriginDouble (index : nat) (margin : Z) (cellSize : Double.t)
    : Double.t :=
  Double.mul (Double.ofZ (Z.of_nat index + margin)) cellSize.

Definition renderSquaresDouble (qr : QRCode) (cellSize : Double.t)
    (margin : Z) (c : Canvas) : Canvas :=
  forDarkModules qr (fun row col =>
    let x := cellOriginDouble col margin cellSize in
    let y := cellOriginDouble row margin cellSize in
    fillRect (Double.toQ x) (Double.toQ y)
      (Double.toQ cellSize) (Double.toQ cellSize)) c.

(** The style [switch]: ['dots'], ['rounded'], and ['squares'] or
    anything else. *)
Definition renderStyle (style : string) (qr : QRCode) (cellSize : Q)
    (margin : Z) (c : Canvas) : Canvas :=
  if String.eqb style "dots" then renderDots qr cellSize margin c
  else if String.eqb style "rounded" then renderRounded qr cellSize margin c
  else renderSquares qr cellSize margin c.

(** [renderToCanvas], as the sequence of calls it makes on [this.canvas]. *)
Definition renderToCanvas (qr : QRCode) (options : RenderOptions)
    (c : Canvas) : Canvas :=
  let size := r_size options in
  let margin := r_margin options in
  let cellSize := cellSizeOf qr size margin in
  let c := set_width size c in
  let c := set_height size c in
  let c := clearRect 0 0 (inject_Z size) (inject_Z size) c in
  let c :=
    if negb (r_transparentBackground options) then
      let c := set_fillStyle (r_backgroundColor options) c in
      fillRect 0 0 (inject_Z size) (inject_Z size) c
    else c in
  let c := set_fillStyle (r_foregroundColor options) c in
  renderStyle (r_style options) qr cellSize margin c.

Section WithWindow.
Variable win : Window.

(** One run of the encoder: the call is recorded, the string that the
    library throws is passed on. *)
Definition encode (typeNumber : Z) (errorCorrection text : string)
    : M QRCode := fun w =>
  (set_encoderCalls
     (encoderCalls w ++ [(typeNumber, errorCorrection, text)]) w,
   match qrcode win typeNumber errorCorrection text with
   | inr qr => Return qr
   | inl msg => Throw (ThrownString msg)
   end).

(** The probe loop, with [remaining] type numbers left to try starting
    at [typeNumber]; past the last one the result is 10. *)
Fixpoint probeFrom (remaining : nat) (typeNumber : Z)
    (text errorCorrection : string) : M Z :=
  match remaining with
  | O => mret 10
  | S remaining' =>
      try_catch
        (_ ← encode typeNumber errorCorrection text; mret typeNumber)
        (fun e => probeFrom remaining' (typeNumber + 1) text errorCorrection)
  end.

(** [for (let typeNumber = 1; typeNumber <= 40; typeNumber++)] *)
Definition calculateTypeNumber (text errorCorrection : string) : M Z :=
  probeFrom 40 1 text errorCorrection.

Definition generate (self : t) (options : Options) : M nat :=
  let size := default 512 (size options) in
  let errorCorrection := default "H" (errorCorrection options) in
  let style := default "squares" (style options) in
  let foregroundColor := default black (foregroundColor options) in
  let backgroundColor := default white (backgroundColor options) in
  let transparentBackground :=
    default false (transparentBackground options) in
  let margin := default 4 (margin options) in
  match text options with
  | None => throw (Error "Text is required to generate QR code")
  | Some "" => throw (Error "Text is required to generate QR code")
  | Some text =>
      typeNumber ← calculateTypeNumber text errorCorrection;
      qr ← encode typeNumber errorCorrection text;
      _ ← onCanvas (canvas self)
            (renderToCanvas qr
               {| r_size := size; r_style := style;
                  r_foregroundColor := foregroundColor;
                  r_backgroundColor := backgroundColor;
                  r_transparentBackground := transparentBackground;
                  r_margin := margin |});
      mret (canvas self)
  end.

End WithWindow.

End QRGenerator.

(** * [js/image-processor.js] *)

Module ImageProcessor.

(** The [options] argument of [addLogoOverlay]; [None] is an absent
    property. *)
Record OverlayOptions : Type := mkOverlayOptions {
  logoSizePercent : option Q;
  padding : option Q;
  backgroundColor : option color;
  patternStyle : option string
}.

(** An element of the array [parseGIF] resolves to. *)
Record Frame : Type := mkFrame {
  imageData : ImageData;
  delay : Z;
  dims : Dims
}.

(** An [ImageProcessor] instance: [this.canvas]. *)
Record t : Type := mk { canvas : nat }.

Definition constructor : M t :=
  id ← createCanvas; mret (mk id).

(** [drawLogoBackground]; [ctx] is the context passed, [None] for the
    default [this.ctx]. *)
Definition drawLogoBackground (self : t) (x y size padding : Q)
    (backgroundColor : color) (patternStyle : string) (ctx : option nat)
    : M unit :=
  let context := default (canvas self) ctx in
  _ ← onCanvas context (set_fillStyle backgroundColor);
  if String.eqb patternStyle "dots" then
    let centerX := (x + size / 2)%Q in
    let centerY := (y + size / 2)%Q in
    let radius := ((size + padding * 2) / 2)%Q in
    onCanvas context (fillCircle centerX centerY radius)
  else if String.eqb patternStyle "rounded" then
    let borderRadius := ((size + padding * 2) * (2 # 10))%Q in
    onCanvas context
      (fillRoundedRect (x - padding) (y - padding)
         (size + padding * 2) (size + padding * 2) borderRadius)
  else
    onCanvas context
      (fillRect (x - padding) (y - padding)
         (size + padding * 2) (size + padding * 2)).

(** The rectangle [(dx, dy, dw, dh)] that [drawLogo] passes to
    [drawImage], for an image of positive width and height. *)
Definition logoRect (image : Image) (x y maxSize : Q) : Q * Q * Q * Q :=
  let aspectRatio :=
    (inject_Z (img_width image) / inject_Z (img_height image))%Q in
  let width := maxSize in
  let height := maxSize in
  let '(width, height) :=
    if Qlt_bool 1 aspectRatio then (width, (maxSize / aspectRatio)%Q)
    else if Qlt_bool aspectRatio 1 then ((maxSize * aspectRatio)%Q, height)
    else (width, height) in
  let offsetX := ((maxSize - width) / 2)%Q in
  let offsetY := ((maxSize - height) / 2)%Q in
  ((x + offsetX)%Q, (y + offsetY)%Q, width, height).

Definition drawLogo (self : t) (image : Image) (x y maxSize : Q)
    (ctx : option nat) : M unit :=
  let context := default (canvas self) ctx in
  let '(dx, dy, dw, dh) := logoRect image x y maxSize in
  onCanvas context (draw (DrawImage image dx dy dw dh)).

Section WithWindow.
Variable win : Window.

Definition loadImage (src : string) : M Image :=
  match Image_load win src with
  | Some img => mret img
  | None => throw (Error "Failed to load image: [object Event]")
  end.

(** [addLogoOverlay(qrCanvas, logoSrc, options)]; [qrCanvas] and
    [logoSrc] are [None] when [null] or [undefined]. *)
Definition addLogoOverlay (self : t) (qrCanvas : option nat)
    (logoSrc : option string) (options : OverlayOptions) : M nat :=
  let logoSizePercent := default (25 # 100) (logoSizePercent options) in
  let padding := default (inject_Z 10) (padding options) in
  let backgroundColor := default white (backgroundColor options) in
  let patternStyle := default "squares" (patternStyle options) in
  match qrCanvas, logoSrc with
  | Some qrCanvas, Some logoSrc =>
      if truthy (Some logoSrc) then
        outputCanvas ← createCanvas;
        qr ← getCanvas qrCanvas;
        _ ← onCanvas outputCanvas (set_width (width qr));
        qr ← getCanvas qrCanvas;
        _ ← onCanvas outputCanvas (set_height (height qr));
        qr ← getCanvas qrCanvas;
        _ ← onCanvas outputCanvas
              (draw (DrawCanvas (content qr) (width qr) (height qr) 0 0));
        logoImage ← loadImage logoSrc;
        qr ← getCanvas qrCanvas;
        let logoSize := (inject_Z (width qr) * logoSizePercent)%Q in
        let logoX := ((inject_Z (width qr) - logoSize) / 2)%Q in
        let logoY := ((inject_Z (height qr) - logoSize) / 2)%Q in
        _ ← drawLogoBackground self logoX logoY logoSize padding
              backgroundColor patternStyle (Some outputCanvas);
        _ ← drawLogo self logoImage logoX logoY logoSize (Some outputCanvas);
        mret outputCanvas
      else throw (Error "QR canvas and logo source are required")
  | _, _ => throw (Error "QR canvas and logo source are required")
  end.

(** The [for (const frame of frames)] loop of [parseGIF]. *)
Fixpoint processFrames (frames : list GifFrame) (processedFrames : list Frame)
    : M (list Frame) :=
  match frames with
  | [] => mret processedFrames
  | frame :: rest =>
      imageData ← lift (ImageData_new win (raw_patch frame)
                          (dims_width (raw_dims frame))
                          (dims_height (raw_dims frame)));
      processFrames rest
        (processedFrames ++
           [{| imageData := imageData;
               delay := or_default (raw_delay frame) 100;
               dims := raw_dims frame |}])
  end.

(** [parseGIF(dataURL)]; [dataURL] is [None] when [null]. *)
Definition parseGIF (dataURL : option string) : M (list Frame) :=
  try_catch
    (match gifuct win with
     | None => throw (Error "gifuct-js library not loaded")
     | Some decompressFrames =>
         match dataURL with
         | None =>
             throw (LibraryError
                      "Cannot read properties of null (reading 'split')")
         | Some dataURL =>
             let base64 := split "," dataURL !! 1%nat in
             if truthy base64 then
               bytes ← lift (atob win (default "" base64));
               frames ← lift (decompressFrames bytes);
               if (length frames =? 0)%nat
               then throw (Error "No frames found in GIF")
               else processFrames frames []
             else throw (Error "Invalid data URL format")
         end
     end)
    (fun error =>
       throw (Error ("Failed to parse GIF file: " ++ message error))).

Definition imageDataToCanvas (imageData : ImageData) : M nat :=
  canvas ← createCanvas;
  _ ← onCanvas canvas (set_width (data_width imageData));
  _ ← onCanvas canvas (set_height (data_height imageData));
  _ ← onCanvas canvas (draw (PutImageData imageData 0 0));
  mret canvas.

(** [gif.addFrame(canvas, { delay, copy: true })]: the encoder keeps a
    copy of the canvas as it is now. *)
Definition addFrame (canvas : nat) (delay : Z) : M unit := fun w =>
  (set_gifFrames (gifFrames w ++ [(canvasOf w canvas, delay)]) w, Return tt).

(** [canvases.forEach((canvas, index) => gif.addFrame(..))], from
    [index] on. *)
Fixpoint addFrames (canvases : list nat) (delays : list Z) (index : nat)
    : M unit :=
  match canvases with
  | [] => mret tt
  | canvas :: rest =>
      _ ← addFrame canvas (or_default (delays !! index) 100);
      addFrames rest delays (S index)
  end.

(** The ['progress'] events of one run, delivered to the listener. *)
Fixpoint reportProgress (progressCallback : option (Q -> M unit))
    (progress : list Q) : M unit :=
  match progress with
  | [] => mret tt
  | p :: rest =>
      _ ← match progressCallback with
          | Some callback => callback p
          | None => mret tt
          end;
      reportProgress progressCallback rest
  end.

(** [createAnimatedGIF(canvases, delays, progressCallback)]: the promise
    resolves with the blob ([Return]) or rejects ([Throw]). *)
Definition createAnimatedGIF (canvases : list nat) (delays : list Z)
    (progressCallback : option (Q -> M unit)) : M Blob :=
  match GIF win with
  | None => throw (Error "gif.js library not loaded")
  | Some render =>
      if (length canvases =? 0)%nat
      then throw (Error "No canvases provided for GIF creation")
      else
        _ ← (fun w => (set_gifFrames [] w, Return tt));
        _ ← addFrames canvases delays 0;
        frames ← (fun w => (w, Return (gifFrames w)));
        match render frames with
        | Finished progress blob =>
            _ ← reportProgress progressCallback progress;
            mret blob
        | ErrorEvent progress error =>
            _ ← reportProgress progressCallback progress;
            throw (Error ("GIF encoding failed: " ++ error))
        | RenderThrew error =>
            throw (Error ("Failed to create animated GIF: " ++ error))
        end
  end.

Definition blobToDataURL (blob : Blob) : M string :=
  match readAsDataURL win blob with
  | Some url => mret url
  | None => throw (Error "Failed to convert blob: [object ProgressEvent]")
  end.

End WithWindow.

(** ** Files and resizing *)

(** A [File]: its MIME type, its size in bytes and its content. *)
Record File : Type := mkFile {
  file_type : string;
  file_size : Z;
  file_blob : Blob
}.

(** The object [validateImageFile] returns. *)
Record Validation : Type := mkValidation {
  valid : bool;
  errors : list string
}.

Definition supportedFormats : list string :=
  ["image/png"; "image/jpeg"; "image/jpg"; "image/svg+xml"; "image/webp";
   "image/gif"].

(** [array.includes(s)] *)
Definition includes (l : list string) (s : string) : bool :=
  existsb (String.eqb s) l.

(** [if (condition) errors.push(message)] *)
Definition pushIf (condition : bool) (message : string)
    (errors : list string) : list string :=
  if condition then errors ++ [message] else errors.

(** The [unsigned long] that a number becomes when it is assigned to
    [canvas.width] or [canvas.height]: truncated towards zero, reduced
    modulo 2^32, and replaced by the default of the attribute when above
    2^31 - 1; [NaN] and the infinities become 0. *)
Definition canvasLength (fallback : Z) (v : Double.t) : Z :=
  match Double.value v with
  | Some v =>
      let n := (if Qle_bool 0 v then Qfloor v else Qceiling v) mod 2 ^ 32 in
      if (n <=? 2147483647)%Z then n else fallback
  | None => 0
  end.

(** The [width] and [height] that [resizeImage] computes, in the double
    arithmetic of the code. *)
Definition resizedSize (image : Image) (maxWidth maxHeight : Double.t)
    : Double.t * Double.t :=
  let width := Double.ofZ (img_width image) in
  let height := Double.ofZ (img_height image) in
  if Double.ltb maxWidth width || Double.ltb maxHeight height then
    let aspectRatio := Double.div width height in
    if Double.ltb height width
    then (maxWidth, Double.div maxWidth aspectRatio)
    else (Double.mul maxHeight aspectRatio, maxHeight)
  else (width, height).

(** [ctx.drawImage(image, 0, 0, width, height)]: nothing is drawn when an
    argument is not finite. *)
Definition drawResized (image : Image) (width height : Double.t)
    (c : Canvas) : Canvas :=
  match Double.value width, Double.value height with
  | Some dw, Some dh => draw (DrawImage image 0 0 dw dh) c
  | _, _ => c
  end.

Section Files.
Variable win : Window.

(** [String(n)] for a number [n], as the template literal of
    [validateImageFile] converts it. *)
Variable numberToString : Q -> string.

(** [validateImageFile(file, maxSizeBytes)]; [file] is [None] when
    missing, [maxSizeBytes] is [None] when [null] or not passed. *)
Definition validateImageFile (file : option File) (maxSizeBytes : option Z)
    : Validation :=
  match file with
  | None => {| valid := false; errors := ["No file provided"] |}
  | Some file =>
      let errors := [] in
      let errors :=
        pushIf (negb (String.prefix "image/" (file_type file)))
          "File must be an image" errors in
      let maxSizeBytes :=
        match maxSizeBytes with
        | Some n => n
        | None =>
            if String.eqb (file_type file) "image/gif"
            then 100 * 1024 * 1024
            else 5 * 1024 * 1024
        end in
      let errors :=
        if (file_size file >? maxSizeBytes)%Z then
          let maxSizeMB :=
            (inject_Z maxSizeBytes / inject_Z (1024 * 1024))%Q in
          (errors ++ [("File size must be less than " ++
                       numberToString maxSizeMB ++ "MB")%string])%list
        else errors in
      let errors :=
        pushIf (negb (includes supportedFormats (file_type file)))
          "Unsupported image format. Use PNG, JPEG, SVG, WebP, or GIF"
          errors in
      {| valid := (length errors =? 0)%nat; errors := errors |}
  end.

Definition fileToDataURL (file : option File) : M string :=
  match file with
  | None => throw (Error "Invalid image file")
  | Some file =>
      if negb (String.prefix "image/" (file_type file))
      then throw (Error "Invalid image file")
      else
        match readAsDataURL win (file_blob file) with
        | Some url => mret url
        | None => throw (Error "Failed to read file: [object ProgressEvent]")
        end
  end.

Definition resizeImage (imageSrc : string) (maxWidth maxHeight : Double.t)
    : M string :=
  image ← loadImage win imageSrc;
  let '(width, height) := resizedSize image maxWidth maxHeight in
  tempCanvas ← createCanvas;
  _ ← onCanvas tempCanvas (set_width (canvasLength 300 width));
  _ ← onCanvas tempCanvas (set_height (canvasLength 150 height));
  _ ← onCanvas tempCanvas (drawResized image width height);
  tempCanvas' ← getCanvas tempCanvas;
  mret (toDataURL win tempCanvas').

End Files.

End ImageProcessor.

(** * [UIController] *)

Module UIController.

(** [alert(`Error: ${message}`)] *)
Definition showError (message : string) : M unit := fun w =>
  (set_ui {| currentCanvas := currentCanvas (ui w);
             displayed := displayed (ui w);
             errorsShown := errorsShown (ui w) ++ ["Error: " ++ message];
             loadingMessages := loadingMessages (ui w) |} w,
   Return tt).

(** [displayQR(canvas)]: nothing for a missing canvas; otherwise the
    canvas becomes [state.currentCanvas] and its image is copied to the
    page.  The download button, which [displayQR] enables as well, is
    not part of the page as modelled. *)
Definition displayQR (canvas : option nat) : M unit := fun w =>
  match canvas with
  | None => (w, Return tt)
  | Some canvas =>
      (set_ui {| currentCanvas := Some canvas;
                 displayed := ShowsCanvas (canvasOf w canvas);
                 errorsShown := errorsShown (ui w);
                 loadingMessages := loadingMessages (ui w) |} w,
       Return tt)
  end.

(** Modelled from the spec: [showLoadingMessage] is called by
    [generateAnimatedQR] but is not defined by the [UIController] source
    at hand.  Progress is reported to the user as text; the message is
    recorded. *)
Definition showLoadingMessage (message : string) : M unit := fun w =>
  (set_ui {| currentCanvas := currentCanvas (ui w);
             displayed := displayed (ui w);
             errorsShown := errorsShown (ui w);
             loadingMessages := loadingMessages (ui w) ++ [message] |} w,
   Return tt).

(** Modelled from the spec: [displayAnimatedGIF] is called by
    [generateAnimatedQR] but is not defined by the [UIController] source
    at hand.  The re-encoded container is what the page then shows. *)
Definition displayAnimatedGIF (dataURL : string) : M unit := fun w =>
  (set_ui {| currentCanvas := currentCanvas (ui w);
             displayed := ShowsGIF dataURL;
             errorsShown := errorsShown (ui w);
             loadingMessages := loadingMessages (ui w) |} w,
   Return tt).

(** ** Form controls *)

(** The object [validateInput] returns; [error] is absent when valid. *)
Record InputValidation : Type := mkInputValidation {
  valid : bool;
  error : option string
}.

Definition validateInput : P InputValidation := fun p =>
  let text := trim (qrInput (controls p)) in
  (p, Return
        (if negb (truthy (Some text)) then
           {| valid := false;
              error :=
                Some "Please enter a URL or text to generate a QR code" |}
         else if (2953 <? String.length text)%nat then
           {| valid := false;
              error :=
                Some "Text is too long. Maximum 2953 characters for QR codes."
           |}
         else {| valid := true; error := None |})).

Definition getConfig : P QRGenerator.Options := fun p =>
  let c := controls p in
  (p, Return
        {| QRGenerator.text := Some (trim (qrInput c));
           QRGenerator.size := Some (sizeSelect c);
           QRGenerator.errorCorrection := Some (errorCorrectionSelect c);
           QRGenerator.style := Some (default "squares" (activeStyle c));
           QRGenerator.foregroundColor := Some (fgColorInput c);
           QRGenerator.backgroundColor := Some (bgColorInput c);
           QRGenerator.transparentBackground :=
             Some (transparentBgCheckbox c);
           QRGenerator.margin := Some 4 |}).

Definition showLoading : P unit := fun p =>
  let c := controls p in
  (set_controls
     {| qrInput := qrInput c; sizeSelect := sizeSelect c;
        errorCorrectionSelect := errorCorrectionSelect c;
        activeStyle := activeStyle c; fgColorInput := fgColorInput c;
        bgColorInput := bgColorInput c;
        transparentBgCheckbox := transparentBgCheckbox c;
        loadingIndicatorHidden := false;
        generateBtnDisabled := true;
        logoPreviewImgSrc := logoPreviewImgSrc c;
        logoPreviewHidden := logoPreviewHidden c;
        iconPickerHidden := iconPickerHidden c;
        iconPickerOpen := iconPickerOpen c;
        logoUploadValue := logoUploadValue c;
        iconItemsSelected := iconItemsSelected c |} p,
   Return tt).

Definition hideLoading : P unit := fun p =>
  let c := controls p in
  (set_controls
     {| qrInput := qrInput c; sizeSelect := sizeSelect c;
        errorCorrectionSelect := errorCorrectionSelect c;
        activeStyle := activeStyle c; fgColorInput := fgColorInput c;
        bgColorInput := bgColorInput c;
        transparentBgCheckbox := transparentBgCheckbox c;
        loadingIndicatorHidden := true;
        generateBtnDisabled := false;
        logoPreviewImgSrc := logoPreviewImgSrc c;
        logoPreviewHidden := logoPreviewHidden c;
        iconPickerHidden := iconPickerHidden c;
        iconPickerOpen := iconPickerOpen c;
        logoUploadValue := logoUploadValue c;
        iconItemsSelected := iconItemsSelected c |} p,
   Return tt).

Definition showLogoPreview (logoSrc : string) : P unit := fun p =>
  let c := controls p in
  (set_controls
     {| qrInput := qrInput c; sizeSelect := sizeSelect c;
        errorCorrectionSelect := errorCorrectionSelect c;
        activeStyle := activeStyle c; fgColorInput := fgColorInput c;
        bgColorInput := bgColorInput c;
        transparentBgCheckbox := transparentBgCheckbox c;
        loadingIndicatorHidden := loadingIndicatorHidden c;
        generateBtnDisabled := generateBtnDisabled c;
        logoPreviewImgSrc := logoSrc;
        logoPreviewHidden := false;
        iconPickerHidden := iconPickerHidden c;
        iconPickerOpen := iconPickerOpen c;
        logoUploadValue := logoUploadValue c;
        iconItemsSelected := iconItemsSelected c |} p,
   Return tt).

Definition hideLogoPreview : P unit := fun p =>
  let c := controls p in
  (set_controls
     {| qrInput := qrInput c; sizeSelect := sizeSelect c;
        errorCorrectionSelect := errorCorrectionSelect c;
        activeStyle := activeStyle c; fgColorInput := fgColorInput c;
        bgColorInput := bgColorInput c;
        transparentBgCheckbox := transparentBgCheckbox c;
        loadingIndicatorHidden := loadingIndicatorHidden c;
        generateBtnDisabled := generateBtnDisabled c;
        logoPreviewImgSrc := "";
        logoPreviewHidden := true;
        iconPickerHidden := iconPickerHidden c;
        iconPickerOpen := iconPickerOpen c;
        logoUploadValue := logoUploadValue c;
        iconItemsSelected := iconItemsSelected c |} p,
   Return tt).

Definition toggleIconPicker : P unit := fun p =>
  let c := controls p in
  (set_controls
     {| qrInput := qrInput c; sizeSelect := sizeSelect c;
        errorCorrectionSelect := errorCorrectionSelect c;
        activeStyle := activeStyle c; fgColorInput := fgColorInput c;
        bgColorInput := bgColorInput c;
        transparentBgCheckbox := transparentBgCheckbox c;
        loadingIndicatorHidden := loadingIndicatorHidden c;
        generateBtnDisabled := generateBtnDisabled c;
        logoPreviewImgSrc := logoPreviewImgSrc c;
        logoPreviewHidden := logoPreviewHidden c;
        iconPickerHidden := if iconPickerOpen c then true else false;
        iconPickerOpen := if iconPickerOpen c then false else true;
        logoUploadValue := logoUploadValue c;
        iconItemsSelected := iconItemsSelected c |} p,
   Return tt).

End UIController.

(** * [QRCodeApp], the application coordinator *)

Module QRCodeApp.

Record t : Type := mk {
  qrGenerator : QRGenerator.t;
  imageProcessor : ImageProcessor.t
}.

Definition getState : M AppState := fun w => (w, Return (app w)).

(** [this.state.animatedGIFBlob = blob] *)
Definition setAnimatedGIFBlob (blob : option Blob) : M unit := fun w =>
  (set_app {| currentLogo := currentLogo (app w);
              isAnimatedGIF := isAnimatedGIF (app w);
              animatedGIFBlob := blob |} w,
   Return tt).

(** [Math.round(x)] for a finite [x]: the nearest integer, a tie going
    up. *)
Definition round (x : Double.t) : Z := Qfloor (Double.toQ x + (1 # 2)).

(** [Math.round(progress * 100)], the product being that of two doubles.
    [progress] is the number the encoder reports, a double between 0
    and 1. *)
Definition percent (progress : Q) : Z :=
  round (Double.mul (Double.ofQ progress) (Double.ofZ 100)).

(** The options both paths pass to [addLogoOverlay]. *)
Definition overlayOptions (config : QRGenerator.Options)
    : ImageProcessor.OverlayOptions :=
  {| ImageProcessor.logoSizePercent := Some (25 # 100);
     ImageProcessor.padding := Some (inject_Z 10);
     ImageProcessor.backgroundColor := Some white;
     ImageProcessor.patternStyle := QRGenerator.style config |}.

Section WithWindow.
Variable win : Window.

Definition generateStaticQR (self : t) (config : QRGenerator.Options)
    : M unit :=
  qrCanvas ← QRGenerator.generate win (qrGenerator self) config;
  state ← getState;
  finalCanvas ←
    (if truthy (currentLogo state) then
       try_catch
         (ImageProcessor.addLogoOverlay win (imageProcessor self)
            (Some qrCanvas) (currentLogo state) (overlayOptions config))
         (fun error =>
            _ ← UIController.showError
                  "Failed to add logo. Using QR code without logo.";
            mret qrCanvas)
     else mret qrCanvas);
  _ ← UIController.displayQR (Some finalCanvas);
  setAnimatedGIFBlob None.

(** One iteration of the [for] loop of [generateAnimatedQR], for the
    frame at index [i] of [total]: the composited canvas of that frame. *)
Definition processFrame (self : t) (config : QRGenerator.Options)
    (frame : ImageProcessor.Frame) (i total : nat) : M nat :=
  _ ← UIController.showLoadingMessage
        ("Processing frame " ++ pretty (S i) ++ "/" ++ pretty total
         ++ "...");
  qrCanvas ← QRGenerator.generate win (qrGenerator self) config;
  frameCanvas ← ImageProcessor.imageDataToCanvas
                  (ImageProcessor.imageData frame);
  frameCanvas' ← getCanvas frameCanvas;
  let frameDataURL := toDataURL win frameCanvas' in
  ImageProcessor.addLogoOverlay win (imageProcessor self)
    (Some qrCanvas) (Some frameDataURL) (overlayOptions config).

(** The [for (let i = 0; i < frames.length; i++)] loop of
    [generateAnimatedQR]: [remaining] are the frames from index [i] on,
    [total] is [frames.length]. *)
Fixpoint frameLoop (self : t) (config : QRGenerator.Options)
    (remaining : list ImageProcessor.Frame) (i total : nat)
    (qrCanvases : list nat) (delays : list Z) : M (list nat * list Z) :=
  match remaining with
  | [] => mret (qrCanvases, delays)
  | frame :: rest =>
      finalCanvas ← processFrame self config frame i total;
      frameLoop self config rest (S i) total
        (qrCanvases ++ [finalCanvas])
        (delays ++ [ImageProcessor.delay frame])
  end.

(** The body of the [try] block of [generateAnimatedQR]. *)
Definition animatedPath (self : t) (config : QRGenerator.Options)
    : M unit :=
  if negb (bool_decide (is_Some (gifuct win))) ||
     negb (bool_decide (is_Some (GIF win)))
  then throw (Error ("GIF processing libraries not loaded. " ++
                     "Please check your internet connection and " ++
                     "refresh the page."))
  else
    _ ← UIController.showLoadingMessage "Processing animated GIF...";
    state ← getState;
    frames ← ImageProcessor.parseGIF win (currentLogo state);
    '(qrCanvases, delays) ← frameLoop self config frames 0 (length frames)
                              [] [];
    _ ← UIController.showLoadingMessage "Creating animated GIF...";
    gifBlob ← ImageProcessor.createAnimatedGIF win qrCanvases delays
                (Some (fun progress =>
                   UIController.showLoadingMessage
                     ("Encoding GIF: " ++ pretty (percent progress)
                      ++ "%")));
    gifDataURL ← ImageProcessor.blobToDataURL win gifBlob;
    _ ← setAnimatedGIFBlob (Some gifBlob);
    UIController.displayAnimatedGIF gifDataURL.

Definition generateAnimatedQR (self : t) (config : QRGenerator.Options)
    : M unit :=
  try_catch (animatedPath self config)
    (fun error =>
       _ ← UIController.showError
             ("Failed to process animated GIF: " ++ message error
              ++ ". Using static QR code.");
       generateStaticQR self config).

End WithWindow.

(** ** The event handlers *)

(** [this.state.currentLogo = logo] *)
Definition setCurrentLogo (logo : option string) : M unit := fun w =>
  (set_app {| currentLogo := logo;
              isAnimatedGIF := isAnimatedGIF (app w);
              animatedGIFBlob := animatedGIFBlob (app w) |} w,
   Return tt).

(** [this.state.isAnimatedGIF = flag] *)
Definition setIsAnimatedGIF (flag : bool) : M unit := fun w =>
  (set_app {| currentLogo := currentLogo (app w);
              isAnimatedGIF := flag;
              animatedGIFBlob := animatedGIFBlob (app w) |} w,
   Return tt).

(** [this.uiController.state.currentCanvas] *)
Definition getCurrentCanvas : M (option nat) := fun w =>
  (w, Return (currentCanvas (ui w))).

(** [if (fileInput) fileInput.value = ''] *)
Definition clearFileInput : P unit := fun p =>
  let c := controls p in
  (set_controls
     {| qrInput := qrInput c; sizeSelect := sizeSelect c;
        errorCorrectionSelect := errorCorrectionSelect c;
        activeStyle := activeStyle c; fgColorInput := fgColorInput c;
        bgColorInput := bgColorInput c;
        transparentBgCheckbox := transparentBgCheckbox c;
        loadingIndicatorHidden := loadingIndicatorHidden c;
        generateBtnDisabled := generateBtnDisabled c;
        logoPreviewImgSrc := logoPreviewImgSrc c;
        logoPreviewHidden := logoPreviewHidden c;
        iconPickerHidden := iconPickerHidden c;
        iconPickerOpen := iconPickerOpen c;
        logoUploadValue :=
          match logoUploadValue c with
          | Some _ => Some ""
          | None => None
          end;
        iconItemsSelected := iconItemsSelected c |} p,
   Return tt).

(** [querySelectorAll('.icon-item').forEach(item =>
    item.classList.remove('selected'))] *)
Definition deselectIcons : P unit := fun p =>
  let c := controls p in
  (set_controls
     {| qrInput := qrInput c; sizeSelect := sizeSelect c;
        errorCorrectionSelect := errorCorrectionSelect c;
        activeStyle := activeStyle c; fgColorInput := fgColorInput c;
        bgColorInput := bgColorInput c;
        transparentBgCheckbox := transparentBgCheckbox c;
        loadingIndicatorHidden := loadingIndicatorHidden c;
        generateBtnDisabled := generateBtnDisabled c;
        logoPreviewImgSrc := logoPreviewImgSrc c;
        logoPreviewHidden := logoPreviewHidden c;
        iconPickerHidden := iconPickerHidden c;
        iconPickerOpen := iconPickerOpen c;
        logoUploadValue := logoUploadValue c;
        iconItemsSelected := map (fun _ => false) (iconItemsSelected c) |} p,
   Return tt).

Section Handlers.
Variable win : Window.

(** [String(n)] as used by [validateImageFile]. *)
Variable numberToString : Q -> string.

Definition generateQR (self : t) : P unit :=
  try_finally
    (try_catch_P
       (validation ← UIController.validateInput;
        if negb (UIController.valid validation) then
          liftW (UIController.showError
                   (default "undefined" (UIController.error validation)))
        else
          _ ← UIController.showLoading;
          config ← UIController.getConfig;
          state ← liftW getState;
          if isAnimatedGIF state && truthy (currentLogo state)
          then liftW (generateAnimatedQR win self config)
          else liftW (generateStaticQR win self config))
       (fun error =>
          liftW (UIController.showError
                   "Failed to generate QR code. Please try again.")))
    UIController.hideLoading.

(** [if (this.uiController.state.currentCanvas) await this.generateQR()] *)
Definition regenerate (self : t) : P unit :=
  current ← liftW getCurrentCanvas;
  if bool_decide (is_Some current) then generateQR self else mret tt.

Definition handleLogoUpload (self : t) (file : option ImageProcessor.File)
    : P unit :=
  try_catch_P
    (let validation :=
       ImageProcessor.validateImageFile numberToString file None in
     if negb (ImageProcessor.valid validation) then
       liftW (UIController.showError
                (String.concat ", " (ImageProcessor.errors validation)))
     else
       dataURL ← liftW (ImageProcessor.fileToDataURL win file);
       let isGIF :=
         match file with
         | Some file => String.eqb (ImageProcessor.file_type file) "image/gif"
         | None => false
         end in
       _ ← (if isGIF then
              _ ← liftW (setCurrentLogo (Some dataURL));
              _ ← liftW (setIsAnimatedGIF true);
              UIController.showLogoPreview dataURL
            else
              resizedDataURL ← liftW (ImageProcessor.resizeImage win dataURL
                                        (Double.ofZ 512) (Double.ofZ 512));
              _ ← liftW (setCurrentLogo (Some resizedDataURL));
              _ ← liftW (setIsAnimatedGIF false);
              UIController.showLogoPreview resizedDataURL);
       open ← (fun p => (p, Return (iconPickerOpen (controls p))));
       _ ← (if open : bool then UIController.toggleIconPicker else mret tt);
       regenerate self)
    (fun error =>
       liftW (UIController.showError
                "Failed to upload logo. Please try another image.")).

Definition handleIconSelect (self : t) (iconPath : string) : P unit :=
  try_catch_P
    (_ ← liftW (setCurrentLogo (Some iconPath));
     _ ← UIController.showLogoPreview iconPath;
     _ ← UIController.toggleIconPicker;
     regenerate self)
    (fun error =>
       liftW (UIController.showError
                "Failed to select icon. Please try again.")).

Definition removeLogo (self : t) : P unit :=
  _ ← liftW (setCurrentLogo None);
  _ ← liftW (setIsAnimatedGIF false);
  _ ← liftW (setAnimatedGIFBlob None);
  _ ← UIController.hideLogoPreview;
  _ ← clearFileInput;
  _ ← deselectIcons;
  regenerate self.

End Handlers.

End QRCodeApp.

(** * Vocabulary of the statements *)

Local Close Scope string_scope.

(** The canvas [c] after the drawing calls [ops]. *)
Definition drawAll (ops : list DrawOp) (c : Canvas) : Canvas :=
  {| width := width c; height := height c; fillStyle := fillStyle c;
     content := content c ++ ops |}.

(** One call [shape row col] per dark module, rows first, in the order
    of the two nested loops. *)
Definition darkOps (qr : QRCode) (shape : nat -> nat -> DrawOp)
    : list DrawOp :=
  flat_map (fun row =>
    flat_map (fun col => if isDark qr row col then [shape row col] else [])
      (seq 0 (getModuleCount qr)))
    (seq 0 (getModuleCount qr)).

(** The module row or column a surface coordinate falls in: the cell
    index on the grid of pitch [cellSize], less the quiet zone. *)
Definition moduleIndex (cellSize : Q) (margin : Z) (p : Q) : Z :=
  Qfloor (p / cellSize) - margin.

(** Whether the point lies in the cell of a dark module. *)
Definition darkAt (qr : QRCode) (cellSize : Q) (margin : Z) (px py : Q)
    : bool :=
  let col := moduleIndex cellSize margin px in
  let row := moduleIndex cellSize margin py in
  (0 <=? col) && (col <? Z.of_nat (getModuleCount qr)) &&
  (0 <=? row) && (row <? Z.of_nat (getModuleCount qr)) &&
  isDark qr (Z.to_nat row) (Z.to_nat col).

(** The calls of the three module renderers. *)
Definition squareOps (qr : QRCode) (cellSize : Q) (margin : Z) (fg : color)
    : list DrawOp :=
  darkOps qr (fun row col =>
    FillRect fg (inject_Z (Z.of_nat col + margin) * cellSize)
      (inject_Z (Z.of_nat row + margin) * cellSize) cellSize cellSize).

Definition dotOps (qr : QRCode) (cellSize : Q) (margin : Z) (fg : color)
    : list DrawOp :=
  darkOps qr (fun row col =>
    FillCircle fg
      ((inject_Z (Z.of_nat col + margin) + (1 # 2)) * cellSize)
      ((inject_Z (Z.of_nat row + margin) + (1 # 2)) * cellSize)
      (cellSize * (45 # 100))).

Definition roundedOps (qr : QRCode) (cellSize : Q) (margin : Z) (fg : color)
    : list DrawOp :=
  darkOps qr (fun row col =>
    FillRoundedRect fg (inject_Z (Z.of_nat col + margin) * cellSize)
      (inject_Z (Z.of_nat row + margin) * cellSize) cellSize cellSize
      (cellSize * (3 # 10))).

(** The calls of the renderer the style [switch] selects. *)
Definition styleOps (style : string) (qr : QRCode) (cellSize : Q)
    (margin : Z) (fg : color) : list DrawOp :=
  if String.eqb style "dots" then dotOps qr cellSize margin fg
  else if String.eqb style "rounded" then roundedOps qr cellSize margin fg
  else squareOps qr cellSize margin fg.

(** ** Concrete data for the examples *)

(** A 2 x 2 matrix, dark on the diagonal. *)
Definition demoQR : QRCode :=
  {| getModuleCount := 2; isDark := fun row col => Nat.eqb row col |}.

(** 80 pixels, one quiet module: 4 cells of 20 pixels a side. *)
Definition demoRender (style : string) (transparent : bool)
    : QRGenerator.RenderOptions :=
  {| QRGenerator.r_size := 80;
     QRGenerator.r_style := style;
     QRGenerator.r_foregroundColor := black;
     QRGenerator.r_backgroundColor := white;
     QRGenerator.r_transparentBackground := transparent;
     QRGenerator.r_margin := 1 |}.

(** Whether the encoder takes the text at a type number. *)
Definition accepts (win : Window) (typeNumber : Z)
    (errorCorrection text : string) : bool :=
  match qrcode win typeNumber errorCorrection text with
  | inr _ => true
  | inl _ => false
  end.

(** The encoder calls of a probe of [count] consecutive type numbers
    starting at [first]. *)
Definition probes (first : Z) (count : nat) (errorCorrection text : string)
    : list (Z * string * string) :=
  map (fun i => (first + Z.of_nat i, errorCorrection, text)) (seq 0 count).

(** The [RenderOptions] that [generate] builds from its [options]. *)
Definition renderOptionsOf (options : QRGenerator.Options)
    : QRGenerator.RenderOptions :=
  {| QRGenerator.r_size := default 512 (QRGenerator.size options);
     QRGenerator.r_style :=
       default "squares"%string (QRGenerator.style options);
     QRGenerator.r_foregroundColor :=
       default black (QRGenerator.foregroundColor options);
     QRGenerator.r_backgroundColor :=
       default white (QRGenerator.backgroundColor options);
     QRGenerator.r_transparentBackground :=
       default false (QRGenerator.transparentBackground options);
     QRGenerator.r_margin := default 4 (QRGenerator.margin options) |}.

(** An encoder for the examples: type number [t] holds [3 * t]
    characters at every level. *)
Definition demoEncoder (typeNumber : Z) (errorCorrection text : string)
    : string + QRCode :=
  if Z.of_nat (String.length text) <=? 3 * typeNumber
  then inr {| getModuleCount := Z.to_nat (17 + 4 * typeNumber);
              isDark := fun row col => Nat.even (row + col) |}
  else inl "code length overflow"%string.

Definition demoFrames : list GifFrame :=
  [ {| raw_patch := [0; 0; 0; 255]; raw_dims := mkDims 1 1;
       raw_delay := Some 100 |};
    {| raw_patch := [255; 0; 0; 255]; raw_dims := mkDims 1 1;
       raw_delay := Some 150 |};
    {| raw_patch := [0; 255; 0; 255]; raw_dims := mkDims 1 1;
       raw_delay := None |} ].

(** A page where every collaborator is present and works; only the
    image source ["broken"] fails to load. *)
Definition demoWindow : Window :=
  {| qrcode := demoEncoder;
     Image_load := fun src =>
       if String.eqb src "broken" then None
       else Some {| img_width := 200; img_height := 100; img_src := src |};
     atob := fun _ => inr [71; 73; 70];
     gifuct := Some (fun _ => inr demoFrames);
     ImageData_new := fun patch w h =>
       inr {| data := patch; data_width := w; data_height := h |};
     GIF := Some (fun frames =>
       Finished [(1 # 2)%Q; 1%Q] (mkBlob "GIF89a"));
     toDataURL := fun c =>
       ("data:image/png;base64," ++ pretty (length (content c)))%string;
     readAsDataURL := fun blob =>
       Some ("data:image/gif;base64," ++ blob_data blob)%string |}.

(** The same page without the GIF encoder. *)
Definition demoWindowNoGIF : Window :=
  {| qrcode := demoEncoder;
     Image_load := Image_load demoWindow;
     atob := atob demoWindow;
     gifuct := gifuct demoWindow;
     ImageData_new := ImageData_new demoWindow;
     GIF := None;
     toDataURL := toDataURL demoWindow;
     readAsDataURL := readAsDataURL demoWindow |}.

Definition demoOptions (text : string) : QRGenerator.Options :=
  {| QRGenerator.text := Some text;
     QRGenerator.size := Some 256;
     QRGenerator.errorCorrection := None;
     QRGenerator.style := Some "dots"%string;
     QRGenerator.foregroundColor := None;
     QRGenerator.backgroundColor := None;
     QRGenerator.transparentBackground := None;
     QRGenerator.margin := None |}.

(** A page right after the application was constructed: canvas 0
    belongs to the [QRGenerator], canvas 1 to the [ImageProcessor]. *)
Definition demoWorld (logo : option string) (animated : bool) : World :=
  {| canvases := <[1%nat := newCanvas]> (<[0%nat := newCanvas]> ∅);
     encoderCalls := [];
     gifFrames := [];
     ui := {| currentCanvas := None; displayed := Placeholder;
              errorsShown := []; loadingMessages := [] |};
     app := {| currentLogo := logo; isAnimatedGIF := animated;
               animatedGIFBlob := None |} |}.

Definition demoApp : QRCodeApp.t :=
  {| QRCodeApp.qrGenerator := QRGenerator.mk 0;
     QRCodeApp.imageProcessor := ImageProcessor.mk 1 |}.

(** A text of [n] characters. *)
Fixpoint longText (n : nat) : string :=
  match n with
  | O => EmptyString
  | S n' => String "a"%char (longText n')
  end.

(** The call [drawLogoBackground] issues after setting the fill style. *)
Definition logoBackgroundOp (x y size padding : Q) (backgroundColor : color)
    (patternStyle : string) : DrawOp :=
  if String.eqb patternStyle "dots" then
    FillCircle backgroundColor (x + size / 2) (y + size / 2)
      ((size + padding * 2) / 2)
  else if String.eqb patternStyle "rounded" then
    FillRoundedRect backgroundColor (x - padding) (y - padding)
      (size + padding * 2) (size + padding * 2)
      ((size + padding * 2) * (2 # 10))
  else
    FillRect backgroundColor (x - padding) (y - padding)
      (size + padding * 2) (size + padding * 2).

(** The output canvas of [addLogoOverlay] once the base was copied. *)
Definition copyOf (qr : Canvas) : Canvas :=
  {| width := width qr; height := height qr; fillStyle := black;
     content := [DrawCanvas (content qr) (width qr) (height qr) 0 0] |}.

(** The output canvas of [addLogoOverlay] for the base [qr] and the
    loaded logo [img]. *)
Definition overlayOf (qr : Canvas) (img : Image)
    (options : ImageProcessor.OverlayOptions) : Canvas :=
  let logoSizePercent :=
    default (25 # 100)%Q (ImageProcessor.logoSizePercent options) in
  let padding := default (inject_Z 10) (ImageProcessor.padding options) in
  let backgroundColor :=
    default white (ImageProcessor.backgroundColor options) in
  let patternStyle :=
    default "squares"%string (ImageProcessor.patternStyle options) in
  let logoSize := (inject_Z (width qr) * logoSizePercent)%Q in
  let logoX := ((inject_Z (width qr) - logoSize) / 2)%Q in
  let logoY := ((inject_Z (height qr) - logoSize) / 2)%Q in
  let '(dx, dy, dw, dh) := ImageProcessor.logoRect img logoX logoY logoSize in
  {| width := width qr; height := height qr; fillStyle := backgroundColor;
     content :=
       [DrawCanvas (content qr) (width qr) (height qr) 0 0;
        logoBackgroundOp logoX logoY logoSize padding backgroundColor
          patternStyle;
        DrawImage img dx dy dw dh] |}.

(** The canvas [imageDataToCanvas] makes of a frame's pixel data. *)
Definition frameCanvasOf (d : ImageData) : Canvas :=
  {| width := data_width d; height := data_height d; fillStyle := black;
     content := [PutImageData d 0 0] |}.

(** What holds of the canvas [out] composited for [frame] in the world
    [w']: it is not the generator's canvas [g] and it shows the rendered
    QR code [base] under the image of that frame. *)
Definition compositeOf (win : Window) (g : nat) (base : Canvas)
    (options : ImageProcessor.OverlayOptions) (w' : World) (out : nat)
    (frame : ImageProcessor.Frame) : Prop :=
  out <> g /\
  exists img,
    Image_load win
      (toDataURL win (frameCanvasOf (ImageProcessor.imageData frame))) =
      Some img /\
    canvases w' !! out = Some (overlayOf base img options).

(** The shape each renderer draws for the dark module [(row, col)]. *)
Definition styleShape (style : string) (cellSize : Q) (margin : Z)
    (fg : color) (row col : nat) : DrawOp :=
  if String.eqb style "dots" then
    FillCircle fg
      ((inject_Z (Z.of_nat col + margin) + (1 # 2)) * cellSize)
      ((inject_Z (Z.of_nat row + margin) + (1 # 2)) * cellSize)
      (cellSize * (45 # 100))
  else if String.eqb style "rounded" then
    FillRoundedRect fg (inject_Z (Z.of_nat col + margin) * cellSize)
      (inject_Z (Z.of_nat row + margin) * cellSize) cellSize cellSize
      (cellSize * (3 # 10))
  else
    FillRect fg (inject_Z (Z.of_nat col + margin) * cellSize)
      (inject_Z (Z.of_nat row + margin) * cellSize) cellSize cellSize.

(** Calls that fill a shape with a colour or clear it; the calls that
    copy pictures are the others. *)
Definition isFill (op : DrawOp) : bool :=
  match op with
  | ClearRect _ _ _ _ | FillRect _ _ _ _ _ | FillCircle _ _ _ _
  | FillRoundedRect _ _ _ _ _ _ => true
  | DrawCanvas _ _ _ _ _ | DrawImage _ _ _ _ _ | PutImageData _ _ _ => false
  end.

(** The two calls [addLogoOverlay] makes on the output canvas after the
    copy of the base [qr]: the background of the logo and the logo. *)
Definition overlayMask (qr : Canvas)
    (options : ImageProcessor.OverlayOptions) : DrawOp :=
  let logoSizePercent :=
    default (25 # 100)%Q (ImageProcessor.logoSizePercent options) in
  let padding := default (inject_Z 10) (ImageProcessor.padding options) in
  let backgroundColor :=
    default white (ImageProcessor.backgroundColor options) in
  let patternStyle :=
    default "squares"%string (ImageProcessor.patternStyle options) in
  let logoSize := (inject_Z (width qr) * logoSizePercent)%Q in
  let logoX := ((inject_Z (width qr) - logoSize) / 2)%Q in
  let logoY := ((inject_Z (height qr) - logoSize) / 2)%Q in
  logoBackgroundOp logoX logoY logoSize padding backgroundColor patternStyle.

Definition overlayLogo (qr : Canvas) (img : Image)
    (options : ImageProcessor.OverlayOptions) : DrawOp :=
  let logoSizePercent :=
    default (25 # 100)%Q (ImageProcessor.logoSizePercent options) in
  let logoSize := (inject_Z (width qr) * logoSizePercent)%Q in
  let logoX := ((inject_Z (width qr) - logoSize) / 2)%Q in
  let logoY := ((inject_Z (height qr) - logoSize) / 2)%Q in
  let '(dx, dy, dw, dh) := ImageProcessor.logoRect img logoX logoY logoSize in
  DrawImage img dx dy dw dh.

(** The page [w'] differs from [w], as far as the [UIController] and the
    application state go, by the loading messages [msgs] put up since. *)
Definition said (msgs : list string) (w w' : World) : Prop :=
  app w' = app w /\
  currentCanvas (ui w') = currentCanvas (ui w) /\
  displayed (ui w') = displayed (ui w) /\
  errorsShown (ui w') = errorsShown (ui w) /\
  loadingMessages (ui w') = loadingMessages (ui w) ++ msgs.

(** A computation that shows nothing and leaves the application state
    alone. *)
Definition silent {A : Type} (m : M A) : Prop :=
  forall w, said [] w (m w).1.

(** The messages of the frame loop for [count] frames from index [first]
    on, out of [total]. *)
Definition frameMessages (first count total : nat) : list string :=
  map (fun i => ("Processing frame " ++ pretty (S i) ++ "/" ++ pretty total
                 ++ "...")%string)
    (seq first count).

(** The messages of the progress listener of [generateAnimatedQR]. *)
Definition encodingMessages (progress : list Q) : list string :=
  map (fun p => ("Encoding GIF: " ++ pretty (QRCodeApp.percent p)
                 ++ "%")%string)
    progress.

(** What [createAnimatedGIF] makes of a run of the encoder. *)
Definition outcomeOfRun (run : GifRun) : Outcome Blob :=
  match run with
  | Finished _ blob => Return blob
  | ErrorEvent _ error =>
      Throw (Error ("GIF encoding failed: " ++ error)%string)
  | RenderThrew error =>
      Throw (Error ("Failed to create animated GIF: " ++ error)%string)
  end.

(** The configuration [getConfig] reads off the controls. *)
Definition configOf (c : Controls) : QRGenerator.Options :=
  {| QRGenerator.text := Some (trim (qrInput c));
     QRGenerator.size := Some (sizeSelect c);
     QRGenerator.errorCorrection := Some (errorCorrectionSelect c);
     QRGenerator.style := Some (default "squares"%string (activeStyle c));
     QRGenerator.foregroundColor := Some (fgColorInput c);
     QRGenerator.backgroundColor := Some (bgColorInput c);
     QRGenerator.transparentBackground := Some (transparentBgCheckbox c);
     QRGenerator.margin := Some 4 |}.

(** The path [generateQR] takes on the page [w]. *)
Definition pathOf (win : Window) (self : QRCodeApp.t) (w : World)
    (config : QRGenerator.Options) : M unit :=
  if isAnimatedGIF (app w) && truthy (currentLogo (app w))
  then QRCodeApp.generateAnimatedQR win self config
  else QRCodeApp.generateStaticQR win self config.

(** The stored logo and its kind are the same on both pages. *)
Definition sameLogo (w w' : World) : Prop :=
  currentLogo (app w') = currentLogo (app w) /\
  isAnimatedGIF (app w') = isAnimatedGIF (app w).

Definition keepsLogo {A : Type} (m : M A) : Prop :=
  forall w, sameLogo w (m w).1.

(** Controls for the examples: the text ["  hi "], 256 pixels, level H,
    the Dots button active, black on white. *)
Definition demoControls : Controls :=
  {| qrInput := "  hi "%string; sizeSelect := 256;
     errorCorrectionSelect := "H"%string;
     activeStyle := Some "dots"%string;
     fgColorInput := black; bgColorInput := white;
     transparentBgCheckbox := false;
     loadingIndicatorHidden := true; generateBtnDisabled := false;
     logoPreviewImgSrc := ""%string; logoPreviewHidden := true;
     iconPickerHidden := false; iconPickerOpen := true;
     logoUploadValue := Some ""%string;
     iconItemsSelected := [false; true; false] |}.

Definition withInput (text : string) (c : Controls) : Controls :=
  {| qrInput := text; sizeSelect := sizeSelect c;
     errorCorrectionSelect := errorCorrectionSelect c;
     activeStyle := activeStyle c; fgColorInput := fgColorInput c;
     bgColorInput := bgColorInput c;
     transparentBgCheckbox := transparentBgCheckbox c;
     loadingIndicatorHidden := loadingIndicatorHidden c;
     generateBtnDisabled := generateBtnDisabled c;
     logoPreviewImgSrc := logoPreviewImgSrc c;
     logoPreviewHidden := logoPreviewHidden c;
     iconPickerHidden := iconPickerHidden c;
     iconPickerOpen := iconPickerOpen c;
     logoUploadValue := logoUploadValue c;
     iconItemsSelected := iconItemsSelected c |}.

(** The controls [c'] are those of [c], the loading indicator and the
    generate button apart. *)
Definition sameWidgets (c c' : Controls) : Prop :=
  qrInput c' = qrInput c /\ sizeSelect c' = sizeSelect c /\
  errorCorrectionSelect c' = errorCorrectionSelect c /\
  activeStyle c' = activeStyle c /\ fgColorInput c' = fgColorInput c /\
  bgColorInput c' = bgColorInput c /\
  transparentBgCheckbox c' = transparentBgCheckbox c /\
  logoPreviewImgSrc c' = logoPreviewImgSrc c /\
  logoPreviewHidden c' = logoPreviewHidden c /\
  iconPickerHidden c' = iconPickerHidden c /\
  iconPickerOpen c' = iconPickerOpen c /\
  logoUploadValue c' = logoUploadValue c /\
  iconItemsSelected c' = iconItemsSelected c.

(** No animation is stored on [w'] if none was on [w]. *)
Definition noAnimation (w w' : World) : Prop :=
  animatedGIFBlob (app w) = None -> animatedGIFBlob (app w') = None.

(** The computation [m] keeps the relation [R] between the page it
    starts on and the page it ends on, however it ends. *)
Definition keeps (R : World -> World -> Prop) {A : Type} (m : M A) : Prop :=
  forall w, R w (m w).1.

(** A PNG file of [size] bytes, for the examples. *)
Definition demoFile (type : string) (size : Z) : ImageProcessor.File :=
  {| ImageProcessor.file_type := type;
     ImageProcessor.file_size := size;
     ImageProcessor.file_blob := mkBlob "AAAA" |}.

(** The page holds [url] as its logo, of the kind [animated], shows it
    in the preview, and its icon picker is closed. *)
Definition logoStored (p : Page) (url : string) (animated : bool) : Prop :=
  currentLogo (app (world p)) = Some url /\
  isAnimatedGIF (app (world p)) = animated /\
  logoPreviewImgSrc (controls p) = url /\
  logoPreviewHidden (controls p) = false /\
  iconPickerOpen (controls p) = false.

(** The page after the one error [message] was shown on [p]. *)
Definition afterError (message : string) (p : Page) : Page :=
  {| world := (UIController.showError message (world p)).1;
     controls := controls p |}.

(** The encoder calls of one [generate]: the probes of the type numbers
    1 to [t], then the final run at [t]. *)
Definition encodeCalls (t : Z) (errorCorrection text : string)
    : list (Z * string * string) :=
  probes 1 (Z.to_nat t) errorCorrection text ++ [(t, errorCorrection, text)].

(** The page of the examples with one image behind every source, other
    progress values of the GIF encoder, and data URLs that tell the size
    of the canvas. *)
Definition demoWindowWith (image : Image) (progress : list Q) : Window :=
  {| qrcode := demoEncoder;
     Image_load := fun _ => Some image;
     atob := atob demoWindow;
     gifuct := gifuct demoWindow;
     ImageData_new := ImageData_new demoWindow;
     GIF := Some (fun frames => Finished progress (mkBlob "GIF89a"));
     toDataURL := fun c => (pretty (width c) ++ "x" ++ pretty (height c))%string;
     readAsDataURL := readAsDataURL demoWindow |}.

(** Squares of side [side] whose left edges are [X col] and whose top
    edges are [Y row], one per dark module. *)
Definition squaresAt (qr : QRCode) (X Y : nat -> Q) (side : Q) (fg : color)
    : list DrawOp :=
  darkOps qr (fun row col => FillRect fg (X col) (Y row) side side).

(** The coordinate [v] is within a thousandth of a cell of the grid line
    number [k], the line at [k * cellSize]. *)
Definition nearLine (cellSize : Q) (k : Z) (v : Q) : bool :=
  Qle_bool (inject_Z k * cellSize - cellSize * (1 # 1000)) v &&
  Qle_bool v (inject_Z k * cellSize + cellSize * (1 # 1000)).

(** The coordinate [p] is farther than a thousandth of a cell from the
    two lines of the cell grid it lies between. *)
Definition clearOfGrid (cellSize p : Q) : bool :=
  let k := Qfloor (p / cellSize) in
  Qlt_bool (inject_Z k * cellSize + cellSize * (1 # 1000)) p &&
  Qlt_bool p (inject_Z (k + 1) * cellSize - cellSize * (1 # 1000)).

(** The squares of side [side] at the edges [X 0], ..., [X (n - 1)] have
    both their edges within a thousandth of a cell of the grid lines that
    bound the cells of the modules 0, ..., n - 1. *)
Definition edgesNearGrid (n : nat) (cellSize : Q) (margin : Z)
    (X : nat -> Q) (side : Q) : bool :=
  forallb (fun i =>
    nearLine cellSize (Z.of_nat i + margin) (X i) &&
    nearLine cellSize (Z.of_nat i + margin + 1) (X i + side)) (seq 0 n).

(** The edges of the squares of [renderSquares] in exact arithmetic, and
    in the double arithmetic of the code. *)
Definition exactEdge (cellSize : Q) (margin : Z) (index : nat) : Q :=
  (inject_Z (Z.of_nat index + margin) * cellSize)%Q.

Definition doubleEdge (cellSize : Double.t) (margin : Z) (index : nat) : Q :=
  Double.toQ (QRGenerator.cellOriginDouble index margin cellSize).

(** A matrix of 21 modules, as of a version 1 code, that is dark in the
    top row of its two upper finder patterns and light elsewhere. *)
Definition finderRowQR : QRCode :=
  {| getModuleCount := 21;
     isDark := fun row col =>
       Nat.eqb row 0 && (Nat.ltb col 7 || Nat.ltb 13 col) |}.

(** 512 pixels with the default quiet zone of 4 modules: with 21 modules
    the cells are 512/29 pixels a side. *)
Definition finderRender : QRGenerator.RenderOptions :=
  {| QRGenerator.r_size := 512;
     QRGenerator.r_style := "squares";
     QRGenerator.r_foregroundColor := black;
     QRGenerator.r_backgroundColor := white;
     QRGenerator.r_transparentBackground := false;
     QRGenerator.r_margin := 4 |}.

(** [cellSize] for that rendering, as the double of the code. *)
Definition finderCellSize : Double.t :=
  QRGenerator.cellSizeDouble finderRowQR 512 4.

(** The page [w'] shows the static code of the matrix [qr], as
    [generateStaticQR] leaves it when it started on the page [w0]: no
    animation is stored and the generator's canvas holds the rendered
    matrix.  Without a logo that canvas is displayed.  With a logo that
    loads, a canvas that was not on [w0] holds the overlay and is
    displayed, and no error is added.  With a logo that fails to load the
    error ['Failed to add logo. Using QR code without logo.'] is added
    and the generator's canvas is displayed. *)
Definition showsStatic (win : Window) (self : QRCodeApp.t)
    (config : QRGenerator.Options) (qr : QRCode) (w0 w' : World) : Prop :=
  let g := QRGenerator.canvas (QRCodeApp.qrGenerator self) in
  let code :=
    QRGenerator.renderToCanvas qr (renderOptionsOf config) newCanvas in
  animatedGIFBlob (app w') = None /\
  canvases w' !! g = Some code /\
  match currentLogo (app w0) with
  | Some logo =>
      if String.eqb logo "" then
        currentCanvas (ui w') = Some g /\
        displayed (ui w') = ShowsCanvas code /\
        errorsShown (ui w') = errorsShown (ui w0)
      else
        match Image_load win logo with
        | Some img =>
            exists out, out <> g /\ canvases w0 !! out = None /\
              currentCanvas (ui w') = Some out /\
              canvases w' !! out =
                Some (overlayOf code img (QRCodeApp.overlayOptions config)) /\
              displayed (ui w') =
                ShowsCanvas
                  (overlayOf code img (QRCodeApp.overlayOptions config)) /\
              errorsShown (ui w') = errorsShown (ui w0)
        | None =>
            currentCanvas (ui w') = Some g /\
            displayed (ui w') = ShowsCanvas code /\
            errorsShown (ui w') =
              errorsShown (ui w0) ++
              ["Error: Failed to add logo. Using QR code without logo."%string]
        end
  | None =>
      currentCanvas (ui w') = Some g /\
      displayed (ui w') = ShowsCanvas code /\
      errorsShown (ui w') = errorsShown (ui w0)
  end.

(** The notice of [generateAnimatedQR] for the exception [e], as the
    page shows it. *)
Definition fallbackNotice (e : Exn) : string :=
  ("Error: Failed to process animated GIF: " ++ message e ++
   ". Using static QR code.")%string.

(** * Facts about rationals *)

Lemma Qlt_bool_iff (x y : Q) : Qlt_bool x y = true <-> (x < y)%Q.
Proof.
  unfold Qlt_bool. rewrite negb_true_iff. split.
  - intros H. apply Qnot_le_lt. intros Hle.
    apply Qle_bool_iff in Hle. congruence.
  - intros H. destruct (Qle_bool y x) eqn:E; [|reflexivity].
    apply Qle_bool_iff in E. exfalso. exact (Qlt_not_le _ _ H E).
Qed.


Lemma inject_Z_succ (z : Z) : (inject_Z (z + 1) == inject_Z z + 1)%Q.
Proof. rewrite inject_Z_plus. reflexivity. Qed.

(** A coordinate lies in the half-open cell number [z] exactly when the
    floor of its quotient by the pitch is [z]. *)
Lemma cell_of_floor (p cs : Q) (z : Z) :
  (0 < cs)%Q ->
  ((inject_Z z * cs <= p)%Q /\ (p < inject_Z z * cs + cs)%Q) <->
  Qfloor (p / cs) = z.
Proof.
  intros Hcs. split.
  - intros [Hlo Hhi].
    assert (A : (inject_Z z <= p / cs)%Q) by (apply Qle_shift_div_l; auto).
    assert (B : (p / cs < inject_Z (z + 1))%Q).
    { apply Qlt_shift_div_r; auto. rewrite inject_Z_succ. lra. }
    pose proof (Qfloor_le (p / cs)) as F1.
    pose proof (Qlt_floor (p / cs)) as F2.
    assert (C : (inject_Z (Qfloor (p / cs)) < inject_Z (z + 1))%Q) by lra.
    assert (D : (inject_Z z < inject_Z (Qfloor (p / cs) + 1))%Q) by lra.
    rewrite <- Zlt_Qlt in C, D. lia.
  - intros <-.
    pose proof (Qfloor_le (p / cs)) as F1.
    pose proof (Qlt_floor (p / cs)) as F2.
    rewrite inject_Z_succ in F2.
    assert (E : (p == (p / cs) * cs)%Q) by (field; lra).
    split.
    + rewrite E at 2. nra.
    + rewrite E at 1. nra.
Qed.

Lemma sq_bound (a b r : Q) :
  (0 <= r)%Q -> (sq a + sq b <= sq r)%Q ->
  (- r <= a <= r)%Q /\ (- r <= b <= r)%Q.
Proof. unfold sq. intros Hr H. repeat split; nra. Qed.

(** * Facts about doubles *)

(** The number of binary digits of a positive number. *)
Lemma digits2_pos_size p : digits2_pos p = Pos.size p.
Proof. induction p; simpl; congruence. Qed.

Lemma digits2_pos_iter p k :
  digits2_pos (Pos.iter xO p k) = (digits2_pos p + k)%positive.
Proof.
  induction k using Pos.peano_ind.
  - simpl. lia.
  - rewrite Pos.iter_succ. simpl. rewrite IHk. lia.
Qed.

Lemma iter_xO_value p k : Zpos (Pos.iter xO p k) = Zpos p * 2 ^ Zpos k.
Proof.
  induction k using Pos.peano_ind.
  - simpl. lia.
  - rewrite Pos.iter_succ. rewrite Pos2Z.inj_xO, IHk.
    rewrite Pos2Z.inj_succ, Z.pow_succ_r by lia. ring.
Qed.

Lemma digits_bound p : Zpos p < 2 ^ 53 -> Zpos (digits2_pos p) <= 53.
Proof.
  intros H. rewrite digits2_pos_size.
  destruct (Z.le_gt_cases (Zpos (Pos.size p)) 53) as [|Hgt]; [done|].
  exfalso. pose proof (Pos.size_le p) as Hle.
  assert (2 ^ 54 <= 2 ^ Zpos (Pos.size p)) by (apply Z.pow_le_mono_r; lia).
  assert (Zpos (2 ^ Pos.size p) = 2 ^ Zpos (Pos.size p)).
  { rewrite Pos2Z.inj_pow. reflexivity. }
  assert (Zpos (2 ^ Pos.size p) <= Zpos p~0) by (apply Pos2Z.pos_le_pos; exact Hle).
  change (2 ^ 54) with (2 * 2 ^ 53) in *. lia.
Qed.

(** A canonical mantissa and exponent go through [binary_round_aux]
    unchanged. *)
Lemma binary_round_aux_canonical s m e :
  Zpos (digits2_pos m) = 53 -> -1074 <= e <= 971 ->
  binary_round_aux 53 1024 s (Zpos m) e loc_Exact = S754_finite s m e.
Proof.
  intros Hd He. unfold binary_round_aux, shr_fexp, Zdigits2, fexp, emin.
  rewrite Hd.
  replace (Z.max (53 + e - 53) (3 - 1024 - 53) - e) with 0 by lia.
  cbn [shr shr_record_of_loc shr_m loc_of_shr_record round_nearest_even].
  rewrite Hd.
  replace (Z.max (53 + e - 53) (3 - 1024 - 53) - e) with 0 by lia.
  cbn [shr shr_m].
  destruct (Z.leb_spec e (1024 - 53)); [reflexivity|lia].
Qed.

(** Below 2^53 an integer is a double. *)
Lemma ofZ_pos p :
  Zpos p < 2 ^ 53 ->
  exists m e, Double.ofZ (Zpos p) = S754_finite false m e /\
    (inject_Z (Zpos m) * Qpower 2 e == inject_Z (Zpos p))%Q.
Proof.
  intros Hp. apply digits_bound in Hp.
  unfold Double.ofZ, binary_normalize, binary_round, shl_align, fexp, emin.
  set (d := Zpos (digits2_pos p)) in *.
  assert (Hd1 : 1 <= d) by (unfold d; lia).
  replace (Z.max (d + 0 - 53) (3 - 1024 - 53) - 0) with (d - 53) by lia.
  destruct (d - 53) as [|k|k] eqn:Ek; [|lia|].
  - exists p, (Z.max (d + 0 - 53) (3 - 1024 - 53)).
    replace (Z.max (d + 0 - 53) (3 - 1024 - 53)) with 0 by lia.
    split.
    + apply binary_round_aux_canonical; [fold d; lia|lia].
    + simpl. ring.
  - exists (Pos.iter xO p k), (Z.max (d + 0 - 53) (3 - 1024 - 53)).
    replace (Z.max (d + 0 - 53) (3 - 1024 - 53)) with (Zneg k) by lia.
    split.
    + apply binary_round_aux_canonical; [|lia].
      rewrite digits2_pos_iter. fold d. lia.
    + rewrite iter_xO_value.
      change (Qpower 2 (Zneg k)) with (/ (Qpower_positive 2 k))%Q.
      rewrite inject_Z_mult.
      assert (E : (inject_Z (2 ^ Zpos k) == Qpower_positive 2 k)%Q).
      { change (Qpower_positive 2 k) with (Qpower 2 (Zpos k)).
        change 2%Q with (inject_Z 2). rewrite <- Zpower_Qpower by lia. reflexivity. }
      rewrite E. field.
      intros H0. rewrite <- E in H0. unfold Qeq in H0. simpl in H0.
      pose proof (Z.pow_pos_nonneg 2 (Zpos k) ltac:(lia) ltac:(lia)). lia.
Qed.

Lemma value_ofZ z :
  0 <= z < 2 ^ 53 ->
  exists q, Double.value (Double.ofZ z) = Some q /\ (q == inject_Z z)%Q.
Proof.
  intros Hz. destruct z as [|p|p]; [|..|lia].
  - exists 0%Q. split; reflexivity.
  - destruct (ofZ_pos p (proj2 Hz)) as (m & e & -> & Hv).
    eexists. split; [reflexivity|exact Hv].
Qed.

Lemma Qlt_bool_inject_Z (q q' : Q) (a b : Z) :
  (q == inject_Z a)%Q -> (q' == inject_Z b)%Q -> Qlt_bool q q' = (a <? b).
Proof.
  intros Ha Hb. unfold Qlt_bool.
  destruct (Z.ltb_spec a b) as [Hlt|Hge].
  - apply negb_true_iff, not_true_is_false. rewrite Qle_bool_iff, Ha, Hb.
    rewrite <- Zle_Qle. lia.
  - apply negb_false_iff. rewrite Qle_bool_iff, Ha, Hb.
    rewrite <- Zle_Qle. lia.
Qed.

Lemma ltb_ofZ a b :
  0 <= a < 2 ^ 53 -> 0 <= b < 2 ^ 53 ->
  Double.ltb (Double.ofZ a) (Double.ofZ b) = (a <? b).
Proof.
  intros Ha Hb.
  destruct (value_ofZ a Ha) as (qa & Ea & Hqa).
  destruct (value_ofZ b Hb) as (qb & Eb & Hqb).
  unfold Double.ltb. rewrite Ea, Eb. by apply Qlt_bool_inject_Z.
Qed.

Lemma canvasLength_ofZ fallback z :
  0 <= z <= 2147483647 -> ImageProcessor.canvasLength fallback (Double.ofZ z) = z.
Proof.
  intros Hz.
  destruct (value_ofZ z) as (q & E & Hq); [lia|].
  unfold ImageProcessor.canvasLength. rewrite E. cbv zeta.
  assert (H0 : Qle_bool 0 q = true).
  { apply Qle_bool_iff. rewrite Hq. change 0%Q with (inject_Z 0).
    rewrite <- Zle_Qle. lia. }
  assert (Hf : Qfloor q = z) by (rewrite Hq; apply Qfloor_Z).
  rewrite H0, Hf, Z.mod_small by lia.
  destruct (Z.leb_spec z 2147483647); [reflexivity|lia].
Qed.

(** * Facts about the canvas *)

Lemma inRect_spec (x y w h px py : Q) :
  inRect x y w h px py = true <->
  (x <= px)%Q /\ (px < x + w)%Q /\ (y <= py)%Q /\ (py < y + h)%Q.
Proof.
  unfold inRect. rewrite !andb_true_iff, !Qle_bool_iff, !Qlt_bool_iff.
  tauto.
Qed.

Lemma drawAll_nil (c : Canvas) : drawAll [] c = c.
Proof. destruct c. unfold drawAll. simpl. by rewrite app_nil_r. Qed.

Lemma draw_drawAll (op : DrawOp) (c : Canvas) : draw op c = drawAll [op] c.
Proof. reflexivity. Qed.

Lemma drawAll_drawAll (ops ops' : list DrawOp) (c : Canvas) :
  drawAll ops' (drawAll ops c) = drawAll (ops ++ ops') c.
Proof. unfold drawAll. simpl. by rewrite app_assoc. Qed.

(** A loop whose every iteration issues a fixed list of calls issues
    their concatenation. *)
Lemma foldl_drawAll {X : Type} (step : Canvas -> X -> Canvas)
    (ops : X -> list DrawOp) (fs : color) (l : list X) :
  (forall x c, fillStyle c = fs -> step c x = drawAll (ops x) c) ->
  forall c, fillStyle c = fs -> foldl step c l = drawAll (flat_map ops l) c.
Proof.
  intros Hstep. induction l as [|x l IH]; intros c Hc; simpl.
  - by rewrite drawAll_nil.
  - rewrite Hstep by done. rewrite IH by done.
    apply drawAll_drawAll.
Qed.

Lemma forDarkModules_drawAll (qr : QRCode)
    (body : nat -> nat -> Canvas -> Canvas) (shape : nat -> nat -> DrawOp)
    (c : Canvas) :
  (forall row col c', fillStyle c' = fillStyle c ->
     body row col c' = draw (shape row col) c') ->
  QRGenerator.forDarkModules qr body c = drawAll (darkOps qr shape) c.
Proof.
  intros Hbody. unfold QRGenerator.forDarkModules, darkOps.
  apply (foldl_drawAll _ _ (fillStyle c)); [|done].
  intros row c1 Hc1.
  apply (foldl_drawAll _ _ (fillStyle c)); [|done].
  intros col c2 Hc2. destruct (isDark qr row col).
  - rewrite Hbody by done. apply draw_drawAll.
  - by rewrite drawAll_nil.
Qed.

Lemma renderSquares_drawAll qr cellSize margin c :
  QRGenerator.renderSquares qr cellSize margin c =
  drawAll (squareOps qr cellSize margin (fillStyle c)) c.
Proof.
  apply forDarkModules_drawAll. intros row col c' Hc'.
  unfold fillRect. by rewrite Hc'.
Qed.

Lemma renderDots_drawAll qr cellSize margin c :
  QRGenerator.renderDots qr cellSize margin c =
  drawAll (dotOps qr cellSize margin (fillStyle c)) c.
Proof.
  apply forDarkModules_drawAll. intros row col c' Hc'.
  unfold fillCircle. by rewrite Hc'.
Qed.

Lemma renderRounded_drawAll qr cellSize margin c :
  QRGenerator.renderRounded qr cellSize margin c =
  drawAll (roundedOps qr cellSize margin (fillStyle c)) c.
Proof.
  apply forDarkModules_drawAll. intros row col c' Hc'.
  unfold QRGenerator.drawRoundedRect, fillRoundedRect. by rewrite Hc'.
Qed.

Lemma renderStyle_drawAll style qr cellSize margin c :
  QRGenerator.renderStyle style qr cellSize margin c =
  drawAll (styleOps style qr cellSize margin (fillStyle c)) c.
Proof.
  unfold QRGenerator.renderStyle, styleOps.
  destruct (String.eqb style "dots"); [apply renderDots_drawAll|].
  destruct (String.eqb style "rounded"); [apply renderRounded_drawAll|].
  apply renderSquares_drawAll.
Qed.

(** [renderToCanvas] resets the canvas, clears it, fills the background
    unless it is to stay transparent, and then draws the modules. *)
Lemma renderToCanvas_eq qr (options : QRGenerator.RenderOptions) c :
  let size := QRGenerator.r_size options in
  let margin := QRGenerator.r_margin options in
  QRGenerator.renderToCanvas qr options c =
  {| width := size; height := size;
     fillStyle := QRGenerator.r_foregroundColor options;
     content :=
       ClearRect 0 0 (inject_Z size) (inject_Z size)
       :: (if QRGenerator.r_transparentBackground options then []
           else [FillRect (QRGenerator.r_backgroundColor options)
                   0 0 (inject_Z size) (inject_Z size)])
       ++ styleOps (QRGenerator.r_style options) qr
            (QRGenerator.cellSizeOf qr size margin) margin
            (QRGenerator.r_foregroundColor options) |}.
Proof.
  intros size margin. unfold QRGenerator.renderToCanvas.
  rewrite renderStyle_drawAll. fold size margin.
  destruct (QRGenerator.r_transparentBackground options); reflexivity.
Qed.

Lemma coverCount_app ops ops' px py :
  coverCount (ops ++ ops') px py =
  (coverCount ops px py + coverCount ops' px py)%nat.
Proof. unfold coverCount. by rewrite List.filter_app, length_app. Qed.

Lemma coverCount_cons op ops px py :
  coverCount (op :: ops) px py =
  ((if covers op px py then 1 else 0) + coverCount ops px py)%nat.
Proof. unfold coverCount. simpl. by destruct (covers op px py). Qed.

Lemma paint_app ops ops' px py under :
  paint (ops ++ ops') px py under = paint ops' px py (paint ops px py under).
Proof. unfold paint. apply fold_left_app. Qed.

(** Calls that do not cover a point leave it as it was. *)
Lemma paint_uncovered ops px py under :
  coverCount ops px py = 0%nat -> paint ops px py under = under.
Proof.
  induction ops as [|op ops IH]; intros H; [reflexivity|].
  rewrite coverCount_cons in H.
  destruct (covers op px py) eqn:E; [discriminate|].
  unfold paint. simpl. fold (paint ops px py).
  replace (paintOp op px py under) with under.
  - by apply IH.
  - destruct op; simpl in *; by rewrite E.
Qed.

(** ** The background step of [renderToCanvas] *)

(** C2.  For every render call, the calls on the canvas are: the clear,
    then the fill of the whole surface with the background colour exactly
    when [transparentBackground] is false, then the calls that draw the
    modules.  At every point of the surface that no module call paints,
    the canvas shows zero alpha when [transparentBackground] is true and
    the background colour when it is false. *)
Theorem background_fill_iff_opaque qr (options : QRGenerator.RenderOptions)
    (c : Canvas) :
  let size := QRGenerator.r_size options in
  let margin := QRGenerator.r_margin options in
  let modules :=
    styleOps (QRGenerator.r_style options) qr
      (QRGenerator.cellSizeOf qr size margin) margin
      (QRGenerator.r_foregroundColor options) in
  let rendered := QRGenerator.renderToCanvas qr options c in
  content rendered =
    ClearRect 0 0 (inject_Z size) (inject_Z size)
    :: (if QRGenerator.r_transparentBackground options then []
        else [FillRect (QRGenerator.r_backgroundColor options)
                0 0 (inject_Z size) (inject_Z size)])
    ++ modules /\
  forall px py,
    inRect 0 0 (inject_Z size) (inject_Z size) px py = true ->
    coverCount modules px py = 0%nat ->
    pixelAt rendered px py =
      if QRGenerator.r_transparentBackground options then Transparent
      else Solid (QRGenerator.r_backgroundColor options).
Proof.
  intros size margin modules rendered. subst rendered.
  rewrite renderToCanvas_eq. fold size margin modules. simpl.
  split; [reflexivity|].
  intros px py Hin Hfree. unfold pixelAt. simpl. rewrite Hin.
  change (ClearRect 0 0 (inject_Z size) (inject_Z size) :: ?l)
    with ([ClearRect 0 0 (inject_Z size) (inject_Z size)] ++ l).
  rewrite !paint_app, (paint_uncovered modules) by done.
  destruct (QRGenerator.r_transparentBackground options);
    unfold paint; cbn [fold_left paintOp covers app]; by rewrite ?Hin.
Qed.

Lemma background_fill_iff_opaque_witness :
  pixelAt (QRGenerator.renderToCanvas demoQR (demoRender "squares" false)
             newCanvas) 5%Q 5%Q = Solid white /\
  pixelAt (QRGenerator.renderToCanvas demoQR (demoRender "dots" true)
             newCanvas) 21%Q 21%Q = Transparent.
Proof.
  split.
  - apply (proj2 (background_fill_iff_opaque demoQR
                    (demoRender "squares" false) newCanvas) 5%Q 5%Q);
      reflexivity.
  - apply (proj2 (background_fill_iff_opaque demoQR
                    (demoRender "dots" true) newCanvas) 21%Q 21%Q);
      reflexivity.
Defined.

(** ** Module geometry *)

Lemma in_darkOps qr shape op :
  In op (darkOps qr shape) <->
  exists row col, (row < getModuleCount qr)%nat /\
    (col < getModuleCount qr)%nat /\ isDark qr row col = true /\
    op = shape row col.
Proof.
  unfold darkOps. rewrite List.in_flat_map. split.
  - intros (row & Hrow & Hin). apply List.in_flat_map in Hin.
    destruct Hin as (col & Hcol & Hin).
    apply List.in_seq in Hrow, Hcol.
    destruct (isDark qr row col) eqn:E; simpl in Hin; [|tauto].
    destruct Hin as [<-|[]]. exists row, col. repeat split; [lia|lia|done].
  - intros (row & col & Hrow & Hcol & Hdark & ->).
    exists row. split; [apply List.in_seq; lia|].
    apply List.in_flat_map. exists col. split; [apply List.in_seq; lia|].
    rewrite Hdark. by left.
Qed.

(** Counting over an index range when only the index [k] can contribute. *)
Lemma coverCount_flat_map_single (f : nat -> list DrawOp) (n : nat) (k : Z)
    (px py : Q) :
  (forall x, Z.of_nat x <> k -> coverCount (f x) px py = 0%nat) ->
  coverCount (flat_map f (seq 0 n)) px py =
  if (0 <=? k) && (k <? Z.of_nat n)
  then coverCount (f (Z.to_nat k)) px py else 0%nat.
Proof.
  intros Hother. induction n as [|n IH].
  - change (Z.of_nat 0) with 0.
    destruct (0 <=? k) eqn:E1, (k <? 0) eqn:E2; simpl;
      try reflexivity; lia.
  - rewrite seq_S, flat_map_app, coverCount_app, IH. simpl.
    rewrite app_nil_r.
    destruct (Z.eq_dec (Z.of_nat n) k) as [<-|Hne].
    + rewrite Nat2Z.id.
      destruct (Z.leb_spec 0 (Z.of_nat n)); [|lia].
      destruct (Z.ltb_spec (Z.of_nat n) (Z.of_nat n)); [lia|].
      destruct (Z.ltb_spec (Z.of_nat n) (Z.of_nat (S n))); [|lia].
      reflexivity.
    + rewrite (Hother n Hne), Nat.add_0_r.
      destruct (Z.ltb_spec k (Z.of_nat (S n))),
               (Z.ltb_spec k (Z.of_nat n)); try lia; reflexivity.
Qed.

(** When every shape stays inside the cell of its module, a point is
    painted at most by the shape of the module whose cell it is in. *)
Lemma coverCount_darkOps qr shape cellSize margin px py :
  (forall row col, covers (shape row col) px py = true ->
     moduleIndex cellSize margin px = Z.of_nat col /\
     moduleIndex cellSize margin py = Z.of_nat row) ->
  coverCount (darkOps qr shape) px py =
  if darkAt qr cellSize margin px py
  then (if covers (shape (Z.to_nat (moduleIndex cellSize margin py))
                     (Z.to_nat (moduleIndex cellSize margin px))) px py
        then 1%nat else 0%nat)
  else 0%nat.
Proof.
  intros Hcell. unfold darkOps, darkAt. cbv zeta.
  set (C := moduleIndex cellSize margin px) in *.
  set (R := moduleIndex cellSize margin py) in *.
  set (n := getModuleCount qr).
  assert (Hmiss : forall row col, (Z.of_nat col <> C \/ Z.of_nat row <> R) ->
            coverCount (if isDark qr row col then [shape row col] else [])
              px py = 0%nat).
  { intros row col Hne. destruct (isDark qr row col); [|reflexivity].
    rewrite coverCount_cons.
    destruct (covers (shape row col) px py) eqn:E; [|reflexivity].
    apply Hcell in E. lia. }
  rewrite (coverCount_flat_map_single _ n R).
  2:{ intros row Hrow.
      rewrite (coverCount_flat_map_single _ n C).
      - destruct ((0 <=? C) && (C <? Z.of_nat n)); [|reflexivity].
        apply Hmiss. by right.
      - intros col Hcol. apply Hmiss. by left. }
  destruct ((0 <=? R) && (R <? Z.of_nat n)) eqn:ER.
  - rewrite (coverCount_flat_map_single _ n C).
    2:{ intros col Hcol. apply Hmiss. by left. }
    destruct ((0 <=? C) && (C <? Z.of_nat n)) eqn:EC.
    + apply andb_true_iff in ER as [ER1 ER2].
      rewrite ER1, ER2. simpl.
      destruct (isDark qr (Z.to_nat R) (Z.to_nat C)); [|reflexivity].
      rewrite coverCount_cons. unfold coverCount. simpl. lia.
    + reflexivity.
  - apply andb_false_iff in ER.
    destruct ER as [->| ->];
      rewrite ?andb_false_r; reflexivity.
Qed.

(** The square of module [(row, col)] is its cell. *)
Lemma covers_square fg cellSize margin (row col : nat) px py :
  (0 < cellSize)%Q ->
  covers (FillRect fg (inject_Z (Z.of_nat col + margin) * cellSize)
            (inject_Z (Z.of_nat row + margin) * cellSize) cellSize cellSize)
    px py = true <->
  moduleIndex cellSize margin px = Z.of_nat col /\
  moduleIndex cellSize margin py = Z.of_nat row.
Proof.
  intros Hcs. simpl. rewrite inRect_spec. unfold moduleIndex.
  pose proof (cell_of_floor px cellSize (Z.of_nat col + margin) Hcs) as Hx.
  pose proof (cell_of_floor py cellSize (Z.of_nat row + margin) Hcs) as Hy.
  split.
  - intros (H1 & H2 & H3 & H4).
    split; [apply Z.sub_move_r, Hx | apply Z.sub_move_r, Hy]; tauto.
  - intros [H1 H2]. apply Z.sub_move_r in H1, H2.
    apply Hx in H1. apply Hy in H2. tauto.
Qed.

Lemma cellSize_pos qr size margin :
  0 < size -> 0 <= margin -> (0 < getModuleCount qr)%nat ->
  (0 < QRGenerator.cellSizeOf qr size margin)%Q.
Proof.
  intros Hs Hm Hn. unfold QRGenerator.cellSizeOf.
  apply Qlt_shift_div_l.
  - change 0%Q with (inject_Z 0). rewrite <- Zlt_Qlt. lia.
  - rewrite Qmult_0_l. change 0%Q with (inject_Z 0).
    rewrite <- Zlt_Qlt. lia.
Qed.

Lemma darkOps_empty qr shape :
  getModuleCount qr = 0%nat -> darkOps qr shape = [].
Proof. unfold darkOps. intros ->. reflexivity. Qed.

Lemma darkAt_empty qr cellSize margin px py :
  getModuleCount qr = 0%nat -> darkAt qr cellSize margin px py = false.
Proof.
  unfold darkAt. intros ->. cbv zeta. change (Z.of_nat 0) with 0.
  destruct (Z.leb_spec 0 (moduleIndex cellSize margin px)),
           (Z.ltb_spec (moduleIndex cellSize margin px) 0);
    try reflexivity; lia.
Qed.

(** Points of the quiet zone are in no module's cell. *)
Lemma quiet_zone_not_dark qr cellSize margin px py :
  (0 < cellSize)%Q ->
  (px < inject_Z margin * cellSize)%Q \/
  (inject_Z (Z.of_nat (getModuleCount qr) + margin) * cellSize <= px)%Q \/
  (py < inject_Z margin * cellSize)%Q \/
  (inject_Z (Z.of_nat (getModuleCount qr) + margin) * cellSize <= py)%Q ->
  darkAt qr cellSize margin px py = false.
Proof.
  intros Hcs Hq. unfold darkAt, moduleIndex. cbv zeta.
  set (n := Z.of_nat (getModuleCount qr)) in *.
  assert (Hlow : forall p, (p < inject_Z margin * cellSize)%Q ->
            Qfloor (p / cellSize) - margin < 0).
  { intros p Hp. pose proof (Qfloor_le (p / cellSize)) as F.
    assert (A : (p / cellSize < inject_Z margin)%Q)
      by (apply Qlt_shift_div_r; auto).
    assert (B : (inject_Z (Qfloor (p / cellSize)) < inject_Z margin)%Q)
      by lra.
    rewrite <- Zlt_Qlt in B. lia. }
  assert (Hhigh : forall p, (inject_Z (n + margin) * cellSize <= p)%Q ->
            n <= Qfloor (p / cellSize) - margin).
  { intros p Hp.
    assert (A : (inject_Z (n + margin) <= p / cellSize)%Q)
      by (apply Qle_shift_div_l; auto).
    apply Qfloor_resp_le in A. rewrite Qfloor_Z in A. lia. }
  destruct Hq as [H|[H|[H|H]]];
    [apply Hlow in H | apply Hhigh in H | apply Hlow in H | apply Hhigh in H].
  - destruct (Z.leb_spec 0 (Qfloor (px / cellSize) - margin)); [lia|done].
  - destruct (Z.ltb_spec (Qfloor (px / cellSize) - margin) n); [lia|].
    by rewrite andb_false_r.
  - destruct (Z.leb_spec 0 (Qfloor (py / cellSize) - margin)); [lia|].
    by rewrite andb_false_r.
  - destruct (Z.ltb_spec (Qfloor (py / cellSize) - margin) n); [lia|].
    by rewrite andb_false_r.
Qed.

(** ** Squares *)

Lemma renderSquaresDouble_drawAll qr cellSize margin c :
  QRGenerator.renderSquaresDouble qr cellSize margin c =
  drawAll (squaresAt qr (doubleEdge cellSize margin)
             (doubleEdge cellSize margin) (Double.toQ cellSize)
             (fillStyle c)) c.
Proof.
  apply forDarkModules_drawAll. intros row col c' Hc'.
  unfold fillRect. by rewrite Hc'.
Qed.

Lemma flat_map_ext_seq {B : Type} (f g : nat -> list B) (l : list nat) :
  (forall x, In x l -> f x = g x) -> flat_map f l = flat_map g l.
Proof.
  induction l as [|x l IH]; intros Hext; [reflexivity|]. simpl.
  rewrite (Hext x) by (by left). rewrite IH; [reflexivity|].
  intros y Hy. apply Hext. by right.
Qed.

(** Only the shapes of the modules of the matrix are drawn. *)
Lemma darkOps_ext qr (shape shape' : nat -> nat -> DrawOp) :
  (forall row col, (row < getModuleCount qr)%nat ->
     (col < getModuleCount qr)%nat -> shape row col = shape' row col) ->
  darkOps qr shape = darkOps qr shape'.
Proof.
  intros Hext. unfold darkOps.
  apply flat_map_ext_seq. intros row Hrow.
  apply flat_map_ext_seq. intros col Hcol.
  apply List.in_seq in Hrow, Hcol.
  destruct (isDark qr row col); [|reflexivity].
  rewrite Hext by lia. reflexivity.
Qed.

Lemma nearLine_spec cellSize k v :
  nearLine cellSize k v = true <->
  (inject_Z k * cellSize - cellSize * (1 # 1000) <= v)%Q /\
  (v <= inject_Z k * cellSize + cellSize * (1 # 1000))%Q.
Proof.
  unfold nearLine. by rewrite andb_true_iff, !Qle_bool_iff.
Qed.

Lemma edgesNearGrid_spec n cellSize margin X side (i : nat) :
  edgesNearGrid n cellSize margin X side = true -> (i < n)%nat ->
  nearLine cellSize (Z.of_nat i + margin) (X i) = true /\
  nearLine cellSize (Z.of_nat i + margin + 1) (X i + side) = true.
Proof.
  intros Hall Hi. unfold edgesNearGrid in Hall.
  rewrite forallb_forall in Hall.
  specialize (Hall i ltac:(apply List.in_seq; lia)).
  by apply andb_true_iff in Hall.
Qed.

(** The exact edges are on the grid lines. *)
Lemma exactEdge_nearGrid n cellSize margin :
  (0 < cellSize)%Q ->
  edgesNearGrid n cellSize margin (exactEdge cellSize margin) cellSize = true.
Proof.
  intros Hcs. unfold edgesNearGrid. apply forallb_forall. intros i _.
  apply andb_true_iff. unfold exactEdge.
  split; apply nearLine_spec; rewrite ?inject_Z_succ; split; nra.
Qed.

(** A point clear of the grid lines is in a square with edges near the
    lines of a cell exactly when it is in that cell. *)
Lemma covers_squareAt fg cellSize margin (x y side : Q) (row col : nat)
    px py :
  (0 < cellSize)%Q ->
  nearLine cellSize (Z.of_nat col + margin) x = true ->
  nearLine cellSize (Z.of_nat col + margin + 1) (x + side) = true ->
  nearLine cellSize (Z.of_nat row + margin) y = true ->
  nearLine cellSize (Z.of_nat row + margin + 1) (y + side) = true ->
  clearOfGrid cellSize px = true -> clearOfGrid cellSize py = true ->
  covers (FillRect fg x y side side) px py = true <->
  moduleIndex cellSize margin px = Z.of_nat col /\
  moduleIndex cellSize margin py = Z.of_nat row.
Proof.
  intros Hcs Hx0 Hx1 Hy0 Hy1 Hpx Hpy.
  apply nearLine_spec in Hx0, Hx1, Hy0, Hy1.
  assert (Haxis : forall (v side' p : Q) (index : nat),
    (inject_Z (Z.of_nat index + margin) * cellSize -
       cellSize * (1 # 1000) <= v)%Q /\
    (v <= inject_Z (Z.of_nat index + margin) * cellSize +
            cellSize * (1 # 1000))%Q ->
    (inject_Z (Z.of_nat index + margin + 1) * cellSize -
       cellSize * (1 # 1000) <= v + side')%Q /\
    (v + side' <= inject_Z (Z.of_nat index + margin + 1) * cellSize +
                  cellSize * (1 # 1000))%Q ->
    clearOfGrid cellSize p = true ->
    ((v <= p)%Q /\ (p < v + side')%Q <->
     moduleIndex cellSize margin p = Z.of_nat index)).
  { intros v side' p index [Hv0 Hv1] [Hw0 Hw1] Hp.
    unfold clearOfGrid in Hp. cbv zeta in Hp.
    apply andb_true_iff in Hp as [Hp0 Hp1].
    apply Qlt_bool_iff in Hp0, Hp1.
    unfold moduleIndex.
    set (k := Qfloor (p / cellSize)) in *.
    set (a := Z.of_nat index + margin) in *.
    rewrite inject_Z_succ in Hp1, Hw0, Hw1.
    split.
    - intros [H0 H1]. apply Z.sub_move_r.
      destruct (Z.lt_trichotomy k a) as [Hlt|[Heq|Hgt]]; [|exact Heq|].
      + exfalso.
        assert (A : (inject_Z k + 1 <= inject_Z a)%Q)
          by (rewrite <- inject_Z_succ, <- Zle_Qle; lia).
        nra.
      + exfalso.
        assert (A : (inject_Z a + 1 <= inject_Z k)%Q)
          by (rewrite <- inject_Z_succ, <- Zle_Qle; lia).
        nra.
    - intros Hk. apply Z.sub_move_r in Hk. fold a in Hk.
      rewrite Hk in Hp0, Hp1. split; lra. }
  simpl. rewrite inRect_spec.
  rewrite <- (Haxis x side px col Hx0 Hx1 Hpx).
  rewrite <- (Haxis y side py row Hy0 Hy1 Hpy). tauto.
Qed.

(** Squares with edges near the grid lines paint a point clear of the
    grid lines once when it is in the cell of a dark module, and not at
    all otherwise. *)
Lemma coverCount_squaresAt qr cellSize margin X Y side fg px py :
  (0 < cellSize)%Q ->
  edgesNearGrid (getModuleCount qr) cellSize margin X side = true ->
  edgesNearGrid (getModuleCount qr) cellSize margin Y side = true ->
  clearOfGrid cellSize px = true -> clearOfGrid cellSize py = true ->
  coverCount (squaresAt qr X Y side fg) px py =
  if darkAt qr cellSize margin px py then 1%nat else 0%nat.
Proof.
  intros Hcs HX HY Hpx Hpy. unfold squaresAt.
  destruct (Nat.eq_dec (getModuleCount qr) 0%nat) as [Hn|Hn].
  { by rewrite darkOps_empty, darkAt_empty. }
  set (n := getModuleCount qr) in *.
  set (pad := fun (E : nat -> Q) (i : nat) =>
                if (i <? n)%nat then E i
                else (E 0%nat + inject_Z (Z.of_nat i) * cellSize)%Q).
  rewrite (darkOps_ext qr _
             (fun row col => FillRect fg (pad X col) (pad Y row) side side)).
  2:{ intros row col Hrow Hcol. unfold pad. fold n in Hrow, Hcol.
      apply Nat.ltb_lt in Hrow, Hcol. by rewrite Hrow, Hcol. }
  assert (Hnear : forall E : nat -> Q,
    edgesNearGrid n cellSize margin E side = true ->
    forall i : nat,
      nearLine cellSize (Z.of_nat i + margin) (pad E i) = true /\
      nearLine cellSize (Z.of_nat i + margin + 1) (pad E i + side) = true).
  { intros E HE i. unfold pad. destruct (Nat.ltb_spec i n) as [Hi|Hi].
    - by apply (edgesNearGrid_spec n).
    - destruct (edgesNearGrid_spec n _ _ _ _ 0%nat HE ltac:(lia)) as [A B].
      apply nearLine_spec in A, B.
      change (Z.of_nat 0 + margin) with margin in A, B.
      rewrite inject_Z_succ in B.
      split; apply nearLine_spec;
        rewrite ?inject_Z_succ, inject_Z_plus; split; lra. }
  assert (Hcov : forall row col,
    covers (FillRect fg (pad X col) (pad Y row) side side) px py = true <->
    moduleIndex cellSize margin px = Z.of_nat col /\
    moduleIndex cellSize margin py = Z.of_nat row).
  { intros row col.
    destruct (Hnear X HX col) as [A B]. destruct (Hnear Y HY row) as [C D].
    by apply covers_squareAt. }
  rewrite (coverCount_darkOps _ _ cellSize margin)
    by (intros row col; apply Hcov).
  destruct (darkAt qr cellSize margin px py) eqn:E; [|reflexivity].
  unfold darkAt in E. rewrite !andb_true_iff in E.
  destruct E as ((((E1 & E2) & E3) & E4) & E5).
  match goal with |- (if ?b then _ else _) = _ => replace b with true end;
    [reflexivity|].
  symmetry. apply Hcov. lia.
Qed.

(** C3, as amended.  In Squares style, with [cellSize = size /
    (moduleCount + 2 * margin)], the module calls follow the background
    calls and are exactly one filled square of side [cellSize] at
    [((col + margin) * cellSize, (row + margin) * cellSize)] per dark
    module [(row, col)].  The squares cover the scaled dark cells up to
    the rounding of their coordinates: whenever the edges of the squares
    are within a thousandth of a cell of the grid lines, as they are when
    computed exactly and as the doubles of the code are (see the example
    and [doubleEdges_nearGrid] below), every point farther than that
    from the grid lines is painted by exactly one square when it lies in
    the cell of a dark module and by none otherwise; no such point of
    the quiet zone is painted. *)
Theorem squares_tile_dark_cells qr (options : QRGenerator.RenderOptions)
    (c : Canvas) :
  QRGenerator.r_style options = "squares"%string ->
  let size := QRGenerator.r_size options in
  let margin := QRGenerator.r_margin options in
  let fg := QRGenerator.r_foregroundColor options in
  let n := getModuleCount qr in
  let cellSize := (inject_Z size / inject_Z (Z.of_nat n + 2 * margin))%Q in
  let squares := squareOps qr cellSize margin fg in
  (exists background,
     content (QRGenerator.renderToCanvas qr options c) =
       background ++ squares /\
     forall op, In op background ->
       covers op = inRect 0 0 (inject_Z size) (inject_Z size)) /\
  (forall op, In op squares <->
     exists row col, (row < n)%nat /\ (col < n)%nat /\
       isDark qr row col = true /\
       op = FillRect fg (inject_Z (Z.of_nat col + margin) * cellSize)
              (inject_Z (Z.of_nat row + margin) * cellSize)
              cellSize cellSize) /\
  squares =
    squaresAt qr (exactEdge cellSize margin) (exactEdge cellSize margin)
      cellSize fg /\
  (0 < size -> 0 <= margin ->
   edgesNearGrid n cellSize margin (exactEdge cellSize margin) cellSize =
     true /\
   forall (X Y : nat -> Q) (side : Q),
     edgesNearGrid n cellSize margin X side = true ->
     edgesNearGrid n cellSize margin Y side = true ->
     forall px py,
       clearOfGrid cellSize px = true -> clearOfGrid cellSize py = true ->
       coverCount (squaresAt qr X Y side fg) px py =
         (if darkAt qr cellSize margin px py then 1%nat else 0%nat) /\
       ((px < inject_Z margin * cellSize)%Q \/
        (inject_Z (Z.of_nat n + margin) * cellSize <= px)%Q \/
        (py < inject_Z margin * cellSize)%Q \/
        (inject_Z (Z.of_nat n + margin) * cellSize <= py)%Q ->
        coverCount (squaresAt qr X Y side fg) px py = 0%nat)).
Proof.
  intros Hstyle size margin fg n cellSize squares.
  assert (Ecs : cellSize = QRGenerator.cellSizeOf qr size margin).
  { unfold cellSize, QRGenerator.cellSizeOf. fold n.
    by rewrite (Z.mul_comm 2 margin). }
  split; [|split; [|split]].
  - rewrite renderToCanvas_eq. fold size margin fg. rewrite Hstyle, <- Ecs.
    simpl content. change (styleOps "squares" qr cellSize margin fg)
      with squares.
    exists (ClearRect 0 0 (inject_Z size) (inject_Z size)
            :: (if QRGenerator.r_transparentBackground options then []
                else [FillRect (QRGenerator.r_backgroundColor options)
                        0 0 (inject_Z size) (inject_Z size)])).
    split; [by rewrite <- app_comm_cons|].
    intros op Hin.
    destruct (QRGenerator.r_transparentBackground options);
      simpl in Hin; intuition (subst; reflexivity).
  - intros op. apply in_darkOps.
  - reflexivity.
  - intros Hsize Hmargin.
    destruct (Nat.eq_dec n 0%nat) as [Hn|Hn].
    { unfold n in Hn. split; [unfold n; by rewrite Hn|].
      intros X Y side _ _ px py _ _. unfold squaresAt.
      rewrite darkOps_empty, darkAt_empty by exact Hn. by split. }
    assert (Hcs : (0 < cellSize)%Q)
      by (rewrite Ecs; apply cellSize_pos; [done|done|fold n; lia]).
    split; [by apply exactEdge_nearGrid|].
    intros X Y side HX HY px py Hpx Hpy.
    pose proof (coverCount_squaresAt qr cellSize margin X Y side fg px py
                  Hcs HX HY Hpx Hpy) as Hcount.
    split; [exact Hcount|].
    intros Hq. rewrite Hcount.
    by rewrite quiet_zone_not_dark.
Qed.

Lemma squares_tile_dark_cells_witness :
  coverCount
    (content (QRGenerator.renderSquaresDouble finderRowQR finderCellSize 4
                newCanvas)) 80%Q 80%Q = 1%nat /\
  coverCount
    (content (QRGenerator.renderSquaresDouble finderRowQR finderCellSize 4
                newCanvas)) 80%Q 100%Q = 0%nat /\
  coverCount
    (content (QRGenerator.renderSquaresDouble finderRowQR finderCellSize 4
                newCanvas)) 60%Q 80%Q = 0%nat.
Proof.
  pose proof (squares_tile_dark_cells finderRowQR finderRender newCanvas
                eq_refl) as (_ & _ & _ & Htile).
  destruct (Htile ltac:(simpl; lia) ltac:(simpl; lia)) as [_ Hnear].
  rewrite renderSquaresDouble_drawAll.
  assert (Hedges :
    edgesNearGrid 21 (inject_Z 512 / inject_Z (Z.of_nat 21 + 2 * 4)) 4
      (doubleEdge finderCellSize 4) (Double.toQ finderCellSize) = true)
    by (vm_compute; reflexivity).
  split; [|split].
  - exact (proj1 (Hnear _ _ _ Hedges Hedges 80%Q 80%Q eq_refl eq_refl)).
  - exact (proj1 (Hnear _ _ _ Hedges Hedges 80%Q 100%Q eq_refl eq_refl)).
  - apply (proj2 (Hnear _ _ _ Hedges Hedges 60%Q 80%Q eq_refl eq_refl)).
    left. reflexivity.
Defined.

(** C3, a counterexample to the exact tiling.  A 512-pixel code of 21
    modules with the quiet zone of 4: in the doubles of the code
    [cellSize] is the double nearest to 512/29, the square of column 1
    begins at 5 * [cellSize] and so ends at 105.93103448275863, while the
    square of column 2 begins at 6 * [cellSize], which is
    105.93103448275862.  The modules (0, 1) and (0, 2) are both dark:
    their squares overlap, and a point of the strip between the two
    edges is painted twice. *)
Lemma squares_overlap_in_doubles :
  Double.ltb (QRGenerator.cellOriginDouble 2 4 finderCellSize)
    (Double.add (QRGenerator.cellOriginDouble 1 4 finderCellSize)
       finderCellSize) = true /\
  isDark finderRowQR 0 1 = true /\ isDark finderRowQR 0 2 = true /\
  coverCount
    (content (QRGenerator.renderSquaresDouble finderRowQR finderCellSize 4
                newCanvas))
    (doubleEdge finderCellSize 4 2) 80%Q = 2%nat.
Proof. vm_compute. repeat split. Qed.

(** In the doubles of the code the edges of the squares are near the
    grid lines, as the amended statement asks: for the sizes 256, 512,
    1024 and 2048, the quiet zone of 4 modules and the module counts of
    the versions 1 to 40. *)
Lemma doubleEdges_nearGrid (qr : QRCode) (size : Z) (version : nat) :
  In size [256; 512; 1024; 2048] -> (1 <= version <= 40)%nat ->
  getModuleCount qr = (17 + 4 * version)%nat ->
  edgesNearGrid (getModuleCount qr) (QRGenerator.cellSizeOf qr size 4) 4
    (doubleEdge (QRGenerator.cellSizeDouble qr size 4) 4)
    (Double.toQ (QRGenerator.cellSizeDouble qr size 4)) = true.
Proof.
  intros Hsize Hversion Hn.
  unfold QRGenerator.cellSizeOf, QRGenerator.cellSizeDouble. rewrite Hn.
  set (check := fun (size : Z) (version : nat) =>
    let n := (17 + 4 * version)%nat in
    edgesNearGrid n (inject_Z size / inject_Z (Z.of_nat n + 4 * 2)) 4
      (doubleEdge
         (Double.div (Double.ofZ size) (Double.ofZ (Z.of_nat n + 4 * 2))) 4)
      (Double.toQ
         (Double.div (Double.ofZ size) (Double.ofZ (Z.of_nat n + 4 * 2))))).
  change (check size version = true).
  assert (Hall : forallb (fun s => forallb (check s) (seq 1 40))
                   [256; 512; 1024; 2048] = true)
    by (vm_compute; reflexivity).
  rewrite forallb_forall in Hall. specialize (Hall size Hsize).
  rewrite forallb_forall in Hall. apply Hall. apply List.in_seq. lia.
Qed.

(** ** Dots *)

(** The dot of module [(row, col)] lies inside its cell. *)
Lemma covers_dot fg cellSize margin (row col : nat) px py :
  (0 < cellSize)%Q ->
  covers (FillCircle fg
            ((inject_Z (Z.of_nat col + margin) + (1 # 2)) * cellSize)
            ((inject_Z (Z.of_nat row + margin) + (1 # 2)) * cellSize)
            (cellSize * (45 # 100))) px py = true ->
  moduleIndex cellSize margin px = Z.of_nat col /\
  moduleIndex cellSize margin py = Z.of_nat row.
Proof.
  intros Hcs H. simpl in H. unfold inCircle in H.
  apply Qle_bool_iff in H. apply sq_bound in H; [|nra].
  destruct H as [[Hx1 Hx2] [Hy1 Hy2]].
  unfold moduleIndex.
  split; apply Z.sub_move_r, cell_of_floor; try done; split; nra.
Qed.

(** Two dots of different modules have their centres at least one cell
    apart along an axis. *)
Lemma dot_centres_apart cellSize margin (row col row' col' : nat) :
  (0 < cellSize)%Q -> (row, col) <> (row', col') ->
  let cx := ((inject_Z (Z.of_nat col + margin) + (1 # 2)) * cellSize)%Q in
  let cx' := ((inject_Z (Z.of_nat col' + margin) + (1 # 2)) * cellSize)%Q in
  let cy := ((inject_Z (Z.of_nat row + margin) + (1 # 2)) * cellSize)%Q in
  let cy' := ((inject_Z (Z.of_nat row' + margin) + (1 # 2)) * cellSize)%Q in
  (cellSize <= cx - cx')%Q \/ (cellSize <= cx' - cx)%Q \/
  (cellSize <= cy - cy')%Q \/ (cellSize <= cy' - cy)%Q.
Proof.
  intros Hcs Hne. cbv zeta.
  assert (Hstep : forall a b : nat, (a < b)%nat ->
            (inject_Z (Z.of_nat a + margin) + 1 <=
             inject_Z (Z.of_nat b + margin))%Q).
  { intros a b Hab. rewrite <- inject_Z_succ, <- Zle_Qle. lia. }
  destruct (Nat.lt_trichotomy col col') as [H|[H|H]].
  - right; left. apply Hstep in H. nra.
  - destruct (Nat.lt_trichotomy row row') as [H'|[H'|H']].
    + right; right; right. apply Hstep in H'. nra.
    + congruence.
    + right; right; left. apply Hstep in H'. nra.
  - left. apply Hstep in H. nra.
Qed.

(** C4.  In Dots style the module calls are exactly one filled circle
    per dark module [(row, col)], centred at
    [((col + margin + 0.5) * cellSize, (row + margin + 0.5) * cellSize)]
    with radius [0.45 * cellSize], whatever the size of the cells.  For
    [cellSize >= 10], the centres of the dots of two different cells are
    at least [cellSize] apart along an axis while two radii make
    [0.9 * cellSize], no point belongs to the dots of two different
    cells, and no point is painted by more than one dot. *)
Theorem dots_centred_and_disjoint qr (options : QRGenerator.RenderOptions)
    (c : Canvas) :
  QRGenerator.r_style options = "dots"%string ->
  let margin := QRGenerator.r_margin options in
  let fg := QRGenerator.r_foregroundColor options in
  let n := getModuleCount qr in
  let cellSize :=
    QRGenerator.cellSizeOf qr (QRGenerator.r_size options) margin in
  let radius := (cellSize * (45 # 100))%Q in
  let centre := fun index : nat =>
    ((inject_Z (Z.of_nat index + margin) + (1 # 2)) * cellSize)%Q in
  let dots := dotOps qr cellSize margin fg in
  (exists background,
     content (QRGenerator.renderToCanvas qr options c) =
       background ++ dots) /\
  (forall op, In op dots <->
     exists row col, (row < n)%nat /\ (col < n)%nat /\
       isDark qr row col = true /\
       op = FillCircle fg (centre col) (centre row) radius) /\
  ((10 <= cellSize)%Q ->
   (forall row col row' col' : nat, (row, col) <> (row', col') ->
      ((cellSize <= centre col - centre col')%Q \/
       (cellSize <= centre col' - centre col)%Q \/
       (cellSize <= centre row - centre row')%Q \/
       (cellSize <= centre row' - centre row)%Q) /\
      (radius + radius == (9 # 10) * cellSize)%Q /\
      forall px py,
        ~ (inCircle (centre col) (centre row) radius px py = true /\
           inCircle (centre col') (centre row') radius px py = true)) /\
   (forall px py, (coverCount dots px py <= 1)%nat)).
Proof.
  intros Hstyle margin fg n cellSize radius centre dots.
  split; [|split].
  - rewrite renderToCanvas_eq. fold margin fg cellSize. rewrite Hstyle.
    simpl content. change (styleOps "dots" qr cellSize margin fg) with dots.
    eexists. by rewrite app_comm_cons.
  - intros op. apply in_darkOps.
  - intros Hcs. assert (Hpos : (0 < cellSize)%Q) by lra. split.
    + intros row col row' col' Hne. split; [|split].
      * by apply dot_centres_apart.
      * unfold radius. ring.
      * intros px py [H1 H2].
        apply (covers_dot fg cellSize margin row col px py Hpos) in H1.
        apply (covers_dot fg cellSize margin row' col' px py Hpos) in H2.
        destruct H1 as [H1 H1'], H2 as [H2 H2'].
        apply Hne. f_equal; lia.
    + intros px py. unfold dots, dotOps.
      rewrite (coverCount_darkOps _ _ cellSize margin).
      * repeat match goal with |- context [if ?b then _ else _] =>
          destruct b end; lia.
      * intros row col Hcov. by apply (covers_dot fg) in Hcov.
Qed.

Lemma dots_centred_and_disjoint_witness :
  (10 <= QRGenerator.cellSizeOf demoQR 80 1)%Q /\
  (coverCount (dotOps demoQR (QRGenerator.cellSizeOf demoQR 80 1) 1 black)
     30%Q 30%Q <= 1)%nat.
Proof.
  assert (H : (10 <= QRGenerator.cellSizeOf demoQR 80 1)%Q)
    by (apply Qle_bool_iff; reflexivity).
  split; [exact H|].
  exact (proj2 (proj2 (proj2
    (dots_centred_and_disjoint demoQR (demoRender "dots" false) newCanvas
       eq_refl)) H) 30%Q 30%Q).
Defined.

(** * The capacity probe and [generate] *)

Lemma set_encoderCalls_nil w :
  set_encoderCalls (encoderCalls w ++ []) w = w.
Proof. destruct w. unfold set_encoderCalls. simpl. by rewrite app_nil_r. Qed.

Lemma probes_S first count ec text :
  probes first (S count) ec text =
  (first, ec, text) :: probes (first + 1) count ec text.
Proof.
  unfold probes. simpl. rewrite Z.add_0_r. f_equal.
  rewrite <- seq_shift, map_map. apply map_ext.
  intros i. do 2 f_equal. lia.
Qed.

Lemma accepts_true win t ec text :
  accepts win t ec text = true <-> exists qr, qrcode win t ec text = inr qr.
Proof.
  unfold accepts. destruct (qrcode win t ec text); split;
    try done; [intros [? ?]; done | eauto].
Qed.

(** The probe always returns.  It makes [m] encoder calls, for
    consecutive type numbers from [t] on, and returns either the first
    accepted type number or, when all [n] were rejected, 10; neither
    depends on the world it runs in. *)
Lemma probeFrom_run win text ec (n : nat) :
  forall (t : Z),
  exists (r : Z) (m : nat),
    (forall w : World,
       QRGenerator.probeFrom win n t text ec w =
         (set_encoderCalls (encoderCalls w ++ probes t m ec text) w,
          Return r)) /\
    ((t <= r < t + Z.of_nat n /\ accepts win r ec text = true /\
      (forall j, t <= j < r -> accepts win j ec text = false) /\
      Z.of_nat m = r - t + 1) \/
     ((forall j, t <= j < t + Z.of_nat n -> accepts win j ec text = false) /\
      r = 10 /\ m = n)).
Proof.
  induction n as [|n IH]; intros t.
  - exists 10, 0%nat. split.
    + intros w. simpl. unfold mret, M_ret. by rewrite set_encoderCalls_nil.
    + right. repeat split. intros j Hj. lia.
  - destruct (qrcode win t ec text) as [msg|qr] eqn:E.
    + destruct (IH (t + 1)) as (r & m & Hrun & Hres).
      exists r, (S m). split.
      * intros w. cbn [QRGenerator.probeFrom].
        unfold try_catch, mbind, M_bind. unfold QRGenerator.encode at 1.
        rewrite E, Hrun. f_equal. unfold set_encoderCalls. simpl.
        by rewrite probes_S, <- app_assoc.
      * assert (Ht : accepts win t ec text = false)
          by (unfold accepts; by rewrite E).
        destruct Hres as [(Hr & Hacc & Hmin & Hm)|(Hall & -> & ->)].
        -- left. repeat split; [lia|lia|done| |lia].
           intros j Hj. destruct (Z.eq_dec j t) as [->|Hne]; [done|].
           apply Hmin. lia.
        -- right. repeat split.
           intros j Hj. destruct (Z.eq_dec j t) as [->|Hne]; [done|].
           apply Hall. lia.
    + exists t, 1%nat. split.
      * intros w. cbn [QRGenerator.probeFrom].
        unfold try_catch, mbind, M_bind. unfold QRGenerator.encode at 1.
        rewrite E. unfold mret, M_ret. do 2 f_equal. unfold probes. simpl.
        by rewrite Z.add_0_r.
      * left. repeat split; [lia|lia| |intros j Hj; lia|lia].
        unfold accepts. by rewrite E.
Qed.

(** What [generate] does once the text is known to be non-empty. *)
Lemma generate_nonempty win self options text w :
  QRGenerator.text options = Some text -> text <> ""%string ->
  QRGenerator.generate win self options w =
  let ec := default "H"%string (QRGenerator.errorCorrection options) in
  match QRGenerator.calculateTypeNumber win text ec w with
  | (w1, Return typeNumber) =>
      let w2 :=
        set_encoderCalls (encoderCalls w1 ++ [(typeNumber, ec, text)]) w1 in
      match qrcode win typeNumber ec text with
      | inr qr =>
          (set_canvases
             (<[QRGenerator.canvas self :=
                  QRGenerator.renderToCanvas qr (renderOptionsOf options)
                    (canvasOf w2 (QRGenerator.canvas self))]> (canvases w2))
             w2,
           Return (QRGenerator.canvas self))
      | inl msg => (w2, Throw (ThrownString msg))
      end
  | (w1, Throw e) => (w1, Throw e)
  end.
Proof.
  intros Htext Hne. unfold QRGenerator.generate. rewrite Htext.
  destruct text as [|ch rest]; [done|]. cbv zeta.
  unfold mbind, M_bind at 1.
  destruct (QRGenerator.calculateTypeNumber _ _ _ w) as [w1 [t|e]];
    [|reflexivity].
  unfold mbind, M_bind, QRGenerator.encode.
  destruct (qrcode win t _ _); reflexivity.
Qed.

(** C1.  For every non-empty text and level, [calculateTypeNumber]
    returns; when some type number in 1..40 is accepted by the encoder it
    returns the smallest such one, having probed 1, 2, ... up to it in
    this order; when none is accepted it returns 10 after probing all 40.
    [generate] then runs the encoder once more with exactly this type
    number and renders the matrix it yields. *)
Theorem calculateTypeNumber_minimal win self options (text : string)
    (w : World) :
  QRGenerator.text options = Some text ->
  text <> ""%string ->
  let ec := default "H"%string (QRGenerator.errorCorrection options) in
  exists (typeNumber : Z) (w1 : World),
    QRGenerator.calculateTypeNumber win text ec w =
      (w1, Return typeNumber) /\
    ((exists k, 1 <= k <= 40 /\ accepts win k ec text = true) ->
       1 <= typeNumber <= 40 /\
       accepts win typeNumber ec text = true /\
       (forall j, 1 <= j < typeNumber -> accepts win j ec text = false) /\
       w1 = set_encoderCalls
              (encoderCalls w ++ probes 1 (Z.to_nat typeNumber) ec text) w) /\
    ((forall k, 1 <= k <= 40 -> accepts win k ec text = false) ->
       typeNumber = 10 /\
       w1 = set_encoderCalls (encoderCalls w ++ probes 1 40 ec text) w) /\
    let w2 :=
      set_encoderCalls (encoderCalls w1 ++ [(typeNumber, ec, text)]) w1 in
    QRGenerator.generate win self options w =
      match qrcode win typeNumber ec text with
      | inr qr =>
          (set_canvases
             (<[QRGenerator.canvas self :=
                  QRGenerator.renderToCanvas qr (renderOptionsOf options)
                    (canvasOf w2 (QRGenerator.canvas self))]> (canvases w2))
             w2,
           Return (QRGenerator.canvas self))
      | inl msg => (w2, Throw (ThrownString msg))
      end.
Proof.
  intros Htext Hne ec.
  destruct (probeFrom_run win text ec 40 1) as (r & m & Hrun & Hres).
  specialize (Hrun w).
  exists r, (set_encoderCalls (encoderCalls w ++ probes 1 m ec text) w).
  split; [exact Hrun|]. split; [|split].
  - intros (k & Hk & Hacc).
    destruct Hres as [(Hr & Hracc & Hmin & Hm)|(Hall & _ & _)].
    + repeat split; [lia|lia|done|done|].
      replace (Z.to_nat r) with m by lia. reflexivity.
    + rewrite Hall in Hacc by lia. discriminate.
  - intros Hnone.
    destruct Hres as [(Hr & Hracc & Hmin & Hm)|(Hall & -> & ->)].
    + rewrite Hnone in Hracc by lia. discriminate.
    + done.
  - rewrite (generate_nonempty win self options text w Htext Hne).
    fold ec. unfold QRGenerator.calculateTypeNumber in Hrun |- *.
    rewrite Hrun. reflexivity.
Qed.

Lemma calculateTypeNumber_minimal_witness :
  exists w1,
    QRGenerator.calculateTypeNumber demoWindow "https://example.com" "H" 
      (demoWorld None false) = (w1, Return 7).
Proof.
  destruct (calculateTypeNumber_minimal demoWindow (QRGenerator.mk 0)
              (demoOptions "https://example.com") "https://example.com"
              (demoWorld None false) eq_refl ltac:(discriminate))
    as (t & w1 & Hrun & Hsome & _).
  exists w1.
  assert (Hex : exists k, 1 <= k <= 40 /\
            accepts demoWindow k "H" "https://example.com" = true)
    by (exists 7; split; [lia|reflexivity]).
  destruct (Hsome Hex) as (_ & Hacc & Hmin & _).
  replace 7 with t; [exact Hrun|].
  destruct (Z.lt_trichotomy t 7) as [Hlt|[Heq|Hgt]]; [|exact Heq|].
  - exfalso. clear Hrun Hsome Hmin.
    assert (Hcap : 19 <= 3 * t).
    { cbv [accepts demoWindow qrcode demoEncoder] in Hacc.
      change (Z.of_nat (String.length "https://example.com")) with 19
        in Hacc.
      destruct (Z.leb_spec 19 (3 * t)); [done|discriminate]. }
    lia.
  - exfalso. specialize (Hmin 7 ltac:(lia)). discriminate.
Defined.

(** C7.  Empty or missing content makes [generate] throw its own
    ['Text is required to generate QR code'] error and leaves the world
    as it was: no encoder call was made.  Content that the encoder
    rejects at every type number 1..40 makes [generate] throw what the
    encoder throws at the fall-back type number 10; that exception comes
    from the library (it is a bare string) and so differs from the error
    for missing text, and it is thrown before anything is rendered: no
    canvas has changed. *)
Theorem generate_fails_fast win self options (w : World) :
  (truthy (QRGenerator.text options) = false ->
   QRGenerator.generate win self options w =
     (w, Throw (Error "Text is required to generate QR code"))) /\
  (forall text,
     QRGenerator.text options = Some text -> text <> ""%string ->
     let ec := default "H"%string (QRGenerator.errorCorrection options) in
     (forall k, 1 <= k <= 40 -> accepts win k ec text = false) ->
     exists msg w',
       qrcode win 10 ec text = inl msg /\
       QRGenerator.generate win self options w =
         (w', Throw (ThrownString msg)) /\
       ThrownString msg <> Error "Text is required to generate QR code" /\
       canvases w' = canvases w /\
       ui w' = ui w /\
       encoderCalls w' =
         encoderCalls w ++ probes 1 40 ec text ++ [(10, ec, text)]).
Proof.
  split.
  - intros Hfalsy. unfold QRGenerator.generate.
    destruct (QRGenerator.text options) as [[|ch rest]|];
      [reflexivity|discriminate|reflexivity].
  - intros text Htext Hne ec Hnone.
    destruct (probeFrom_run win text ec 40 1) as (t & m & Hrun & Hres).
    destruct Hres as [(Hr & Hacc & _)|(_ & -> & ->)].
    { rewrite Hnone in Hacc by lia. discriminate. }
    pose proof (Hnone 10 ltac:(lia)) as H10. unfold accepts in H10.
    destruct (qrcode win 10 ec text) as [msg|qr] eqn:E; [|discriminate].
    exists msg. eexists. split; [reflexivity|]. split.
    { rewrite (generate_nonempty win self options text w Htext Hne).
      fold ec. unfold QRGenerator.calculateTypeNumber.
      rewrite Hrun, E. reflexivity. }
    split; [discriminate|]. simpl. by rewrite <- app_assoc.
Qed.

Lemma generate_fails_fast_witness :
  QRGenerator.generate demoWindow (QRGenerator.mk 0) (demoOptions "")
    (demoWorld None false) =
    (demoWorld None false,
     Throw (Error "Text is required to generate QR code")) /\
  exists w',
    QRGenerator.generate demoWindow (QRGenerator.mk 0)
      (demoOptions (longText 121)) (demoWorld None false) =
      (w', Throw (ThrownString "code length overflow")) /\
    canvases w' = canvases (demoWorld None false).
Proof.
  split.
  - apply (proj1 (generate_fails_fast demoWindow (QRGenerator.mk 0)
                    (demoOptions "") (demoWorld None false))).
    reflexivity.
  - destruct (proj2 (generate_fails_fast demoWindow (QRGenerator.mk 0)
                       (demoOptions (longText 121)) (demoWorld None false))
                (longText 121) eq_refl ltac:(discriminate))
      as (msg & w' & Hten & Hgen & _ & Hcanvases & _).
    + intros k Hk. cbv [accepts demoWindow qrcode demoEncoder].
      change (Z.of_nat (String.length (longText 121))) with 121.
      destruct (Z.leb_spec 121 (3 * k)); [lia|reflexivity].
    + exists w'. split; [|exact Hcanvases].
      rewrite Hgen. do 2 f_equal.
      cbv in Hten. by injection Hten as <-.
Defined.

(** * The logo compositor *)

(** Division by the literal 2, written as a product for [lra]. *)
Ltac halves :=
  unfold Qdiv in *; change (/ 2)%Q with (1 # 2)%Q in *.

Lemma Qdiv_gt_1 (a b : Q) : (0 < b)%Q -> (1 < a / b)%Q <-> (b < a)%Q.
Proof.
  intros Hb. assert (E : (a == (a / b) * b)%Q) by (field; lra).
  split; intros H.
  - rewrite E. nra.
  - apply Qlt_shift_div_l; [done|lra].
Qed.

Lemma Qdiv_lt_1 (a b : Q) : (0 < b)%Q -> (a / b < 1)%Q <-> (a < b)%Q.
Proof.
  intros Hb. assert (E : (a == (a / b) * b)%Q) by (field; lra).
  split; intros H.
  - rewrite E. nra.
  - apply Qlt_shift_div_r; [done|lra].
Qed.

(** C8.  [drawLogo] draws the whole image into one rectangle
    [(dx, dy, dw, dh)].  For an image with positive dimensions and a box
    of side [maxSize] at [(x, y)]: both dimensions are scaled by the same
    factor [maxSize / max(width, height)], so the longer one becomes
    exactly [maxSize] and a 2:1 landscape image gets [dh = 0.5 * dw]; the
    rectangle is centred in the box and lies inside it. *)
Theorem drawLogo_preserves_aspect self image (x y maxSize : Q)
    (ctx : option nat) (w : World) :
  0 < img_width image -> 0 < img_height image -> (0 <= maxSize)%Q ->
  let iw := inject_Z (img_width image) in
  let ih := inject_Z (img_height image) in
  let factor :=
    (maxSize / inject_Z (Z.max (img_width image) (img_height image)))%Q in
  let target := default (ImageProcessor.canvas self) ctx in
  exists dx dy dw dh,
    ImageProcessor.drawLogo self image x y maxSize ctx w =
      (set_canvases
         (<[target := draw (DrawImage image dx dy dw dh) (canvasOf w target)]>
            (canvases w)) w,
       Return tt) /\
    (dw == factor * iw)%Q /\ (dh == factor * ih)%Q /\
    (img_height image <= img_width image -> dw = maxSize) /\
    (img_width image <= img_height image -> dh = maxSize) /\
    (img_width image = 2 * img_height image -> (dh == (1 # 2) * dw)%Q) /\
    (dx - x == (x + maxSize) - (dx + dw))%Q /\
    (dy - y == (y + maxSize) - (dy + dh))%Q /\
    (x <= dx)%Q /\ (dx + dw <= x + maxSize)%Q /\
    (y <= dy)%Q /\ (dy + dh <= y + maxSize)%Q.
Proof.
  intros Hw Hh Hmax iw ih factor target.
  assert (Hiw : (0 < iw)%Q)
    by (unfold iw; change 0%Q with (inject_Z 0); by rewrite <- Zlt_Qlt).
  assert (Hih : (0 < ih)%Q)
    by (unfold ih; change 0%Q with (inject_Z 0); by rewrite <- Zlt_Qlt).
  assert (H2Q : img_width image = 2 * img_height image ->
                (iw == 2 * ih)%Q).
  { intros H2. unfold iw, ih. by rewrite H2, inject_Z_mult. }
  unfold ImageProcessor.drawLogo, ImageProcessor.logoRect. fold iw ih target.
  destruct (Qlt_bool 1 (iw / ih)) eqn:E1;
    [|destruct (Qlt_bool (iw / ih) 1) eqn:E2].
  - (* landscape *)
    apply Qlt_bool_iff in E1. apply (Qdiv_gt_1 iw ih Hih) in E1.
    assert (Hlt : img_height image < img_width image)
      by (rewrite Zlt_Qlt; exact E1).
    assert (Ef : (factor == maxSize / iw)%Q)
      by (unfold factor; by rewrite Z.max_l by lia).
    assert (Eh : (maxSize / (iw / ih) == maxSize / iw * ih)%Q)
      by (field; split; lra).
    assert (Ew : (maxSize == maxSize / iw * iw)%Q) by (field; lra).
    assert (Hq : (0 <= maxSize / iw)%Q)
      by (apply Qle_shift_div_l; [done|lra]).
    exists (x + (maxSize - maxSize) / 2)%Q,
           (y + (maxSize - maxSize / (iw / ih)) / 2)%Q,
           maxSize, (maxSize / (iw / ih))%Q.
    split; [reflexivity|].
    set (dh := (maxSize / (iw / ih))%Q) in *.
    set (q := (maxSize / iw)%Q) in *.
    clearbody dh q factor iw ih. halves.
    assert (Hle : (dh <= maxSize)%Q) by nra.
    assert (Hge : (0 <= dh)%Q) by nra.
    repeat split;
      try (intros; exfalso; lia); try lra; try (intros; nra).
    intros H2. apply H2Q in H2. nra.
  - (* portrait *)
    apply Qlt_bool_iff in E2. apply (Qdiv_lt_1 iw ih Hih) in E2.
    assert (Hlt : img_width image < img_height image)
      by (rewrite Zlt_Qlt; exact E2).
    assert (Ef : (factor == maxSize / ih)%Q)
      by (unfold factor; by rewrite Z.max_r by lia).
    assert (Ewd : (maxSize * (iw / ih) == maxSize / ih * iw)%Q)
      by (field; lra).
    assert (Eh : (maxSize == maxSize / ih * ih)%Q) by (field; lra).
    assert (Hq : (0 <= maxSize / ih)%Q)
      by (apply Qle_shift_div_l; [done|lra]).
    exists (x + (maxSize - maxSize * (iw / ih)) / 2)%Q,
           (y + (maxSize - maxSize) / 2)%Q,
           (maxSize * (iw / ih))%Q, maxSize.
    split; [reflexivity|].
    set (dw := (maxSize * (iw / ih))%Q) in *.
    set (q := (maxSize / ih)%Q) in *.
    clearbody dw q factor iw ih. halves.
    assert (Hle : (dw <= maxSize)%Q) by nra.
    assert (Hge : (0 <= dw)%Q) by nra.
    repeat split;
      try (intros; exfalso; lia); try lra; try (intros; nra).
  - (* square *)
    assert (Heq : img_width image = img_height image).
    { destruct (Z.lt_trichotomy (img_width image) (img_height image))
        as [H|[H|H]]; [|done|].
      - rewrite Zlt_Qlt in H. fold iw ih in H.
        apply (Qdiv_lt_1 iw ih Hih) in H. apply Qlt_bool_iff in H.
        congruence.
      - rewrite Zlt_Qlt in H. fold iw ih in H.
        apply (Qdiv_gt_1 iw ih Hih) in H. apply Qlt_bool_iff in H.
        congruence. }
    assert (Ef : (factor == maxSize / iw)%Q)
      by (unfold factor; by rewrite Z.max_l by lia).
    assert (Ew : (maxSize == maxSize / iw * iw)%Q) by (field; lra).
    assert (Eih : (ih == iw)%Q) by (unfold ih, iw; by rewrite Heq).
    exists (x + (maxSize - maxSize) / 2)%Q, (y + (maxSize - maxSize) / 2)%Q,
           maxSize, maxSize.
    split; [reflexivity|].
    set (q := (maxSize / iw)%Q) in *.
    clearbody q factor iw ih. halves.
    repeat split;
      try (intros; exfalso; lia); try lra; try (intros; nra).
Qed.

Lemma drawLogo_preserves_aspect_witness :
  exists dx dy dw dh,
    ImageProcessor.drawLogo (ImageProcessor.mk 1)
      {| img_width := 200; img_height := 100; img_src := "logo.png" |}
      96%Q 96%Q 64%Q None (demoWorld None false) =
      (set_canvases
         (<[1%nat := draw (DrawImage
                       {| img_width := 200; img_height := 100;
                          img_src := "logo.png" |} dx dy dw dh)
                      (canvasOf (demoWorld None false) 1%nat)]>
            (canvases (demoWorld None false))) (demoWorld None false),
       Return tt) /\
    dw = 64%Q /\ (dh == 32)%Q /\ (dx == 96)%Q /\ (dy == 112)%Q.
Proof.
  destruct (drawLogo_preserves_aspect (ImageProcessor.mk 1)
              {| img_width := 200; img_height := 100; img_src := "logo.png" |}
              96%Q 96%Q 64%Q None (demoWorld None false)
              ltac:(simpl; lia) ltac:(simpl; lia) ltac:(lra))
    as (dx & dy & dw & dh & Hrun & _ & _ & Hw & _ & Hhalf & Hcx & Hcy & _).
  exists dx, dy, dw, dh.
  specialize (Hw ltac:(simpl; lia)). specialize (Hhalf eq_refl).
  subst dw. repeat split; [exact Hrun|lra|lra|lra].
Defined.

(** * Sequencing *)

Lemma bind_run {A B : Type} (m : M A) (k : A -> M B) (w w1 : World) (a : A) :
  m w = (w1, Return a) -> (m ≫= k) w = k a w1.
Proof. intros H. unfold mbind, M_bind. by rewrite H. Qed.

Lemma bind_throw {A B : Type} (m : M A) (k : A -> M B) (w w1 : World)
    (e : Exn) :
  m w = (w1, Throw e) -> (m ≫= k) w = (w1, Throw e).
Proof. intros H. unfold mbind, M_bind. by rewrite H. Qed.

(** * The canvas heap *)

Lemma set_canvases_id w : set_canvases (canvases w) w = w.
Proof. by destruct w. Qed.

Lemma set_encoderCalls_id w : set_encoderCalls (encoderCalls w) w = w.
Proof. by destruct w. Qed.

Lemma canvasOf_insert_eq h id c w :
  canvasOf (set_canvases (<[id := c]> h) w) id = c.
Proof. unfold canvasOf. simpl. by rewrite lookup_insert_eq. Qed.

Lemma canvasOf_insert_ne h id id' c w :
  id <> id' ->
  canvasOf (set_canvases (<[id := c]> h) w) id' =
  default newCanvas (h !! id').
Proof. intros Hne. unfold canvasOf. simpl. by rewrite lookup_insert_ne. Qed.

(** Drawing on a canvas that was just stored replaces what was stored. *)
Lemma onCanvas_insert h id c f w :
  onCanvas id f (set_canvases (<[id := c]> h) w) =
  (set_canvases (<[id := f c]> h) w, Return tt).
Proof.
  unfold onCanvas. rewrite canvasOf_insert_eq. simpl.
  unfold set_canvases. simpl. by rewrite insert_insert_eq.
Qed.

Lemma fresh_not_existing (h : gmap nat Canvas) id :
  is_Some (h !! id) -> id <> fresh (dom h).
Proof.
  intros Hsome ->. apply elem_of_dom in Hsome.
  by apply (is_fresh (dom h)).
Qed.

Lemma fresh_lookup (h : gmap nat Canvas) : h !! fresh (dom h) = None.
Proof. apply not_elem_of_dom, is_fresh. Qed.

Lemma drawLogoBackground_insert self x y size padding bg patternStyle
    h out c w :
  ImageProcessor.drawLogoBackground self x y size padding bg patternStyle
    (Some out) (set_canvases (<[out := c]> h) w) =
  (set_canvases
     (<[out := draw (logoBackgroundOp x y size padding bg patternStyle)
                 (set_fillStyle bg c)]> h) w,
   Return tt).
Proof.
  unfold ImageProcessor.drawLogoBackground, logoBackgroundOp.
  cbn [default]. unfold mbind, M_bind. rewrite onCanvas_insert.
  destruct (String.eqb patternStyle "dots");
    [|destruct (String.eqb patternStyle "rounded")];
    by rewrite onCanvas_insert.
Qed.

Lemma drawLogo_insert self img x y maxSize h out c w :
  ImageProcessor.drawLogo self img x y maxSize (Some out)
    (set_canvases (<[out := c]> h) w) =
  (set_canvases
     (<[out := let '(dx, dy, dw, dh) :=
                 ImageProcessor.logoRect img x y maxSize in
               draw (DrawImage img dx dy dw dh) c]> h) w,
   Return tt).
Proof.
  unfold ImageProcessor.drawLogo. cbn [default].
  destruct (ImageProcessor.logoRect img x y maxSize) as [[[dx dy] dw] dh].
  by rewrite onCanvas_insert.
Qed.

(** [addLogoOverlay] on an existing base and a non-empty source: the
    output is a canvas that did not exist before; it holds the overlay
    when the logo loads and the bare copy when it does not. *)
Lemma addLogoOverlay_run win self base logoSrc options w :
  is_Some (canvases w !! base) -> logoSrc <> ""%string ->
  let out := fresh (dom (canvases w)) in
  ImageProcessor.addLogoOverlay win self (Some base) (Some logoSrc) options w =
  match Image_load win logoSrc with
  | Some img =>
      (set_canvases
         (<[out := overlayOf (canvasOf w base) img options]> (canvases w)) w,
       Return out)
  | None =>
      (set_canvases (<[out := copyOf (canvasOf w base)]> (canvases w)) w,
       Throw (Error "Failed to load image: [object Event]"))
  end.
Proof.
  intros Hbase Hsrc out.
  assert (Hne : out <> base).
  { intros Heq. apply (fresh_not_existing _ _ Hbase). by rewrite <- Heq. }
  unfold ImageProcessor.addLogoOverlay.
  replace (truthy (Some logoSrc)) with true
    by (destruct logoSrc; [done|reflexivity]).
  unfold mbind, M_bind. unfold createCanvas at 1. fold out.
  unfold getCanvas.
  rewrite !canvasOf_insert_ne by done.
  change (default newCanvas (canvases w !! base)) with (canvasOf w base).
  rewrite onCanvas_insert.
  rewrite !canvasOf_insert_ne by done.
  change (default newCanvas (canvases w !! base)) with (canvasOf w base).
  rewrite onCanvas_insert.
  rewrite !canvasOf_insert_ne by done.
  change (default newCanvas (canvases w !! base)) with (canvasOf w base).
  rewrite onCanvas_insert.
  unfold ImageProcessor.loadImage.
  destruct (Image_load win logoSrc) as [img|]; [|reflexivity].
  unfold mret, M_ret.
  rewrite !canvasOf_insert_ne by done.
  change (default newCanvas (canvases w !! base)) with (canvasOf w base).
  rewrite drawLogoBackground_insert, drawLogo_insert.
  unfold overlayOf.
  destruct (ImageProcessor.logoRect _ _ _ _) as [[[dx dy] dw] dh].
  reflexivity.
Qed.

(** C9.  [addLogoOverlay] leaves every canvas that existed before the
    call as it was, the base among them, whether it returns or throws.
    When it returns, the canvas returned did not exist before (so it is
    not the base) and has the width and height of the base.  It returns
    whenever the logo source is non-empty and loads. *)
Theorem addLogoOverlay_keeps_base win self (base : nat)
    (logoSrc : option string) options (w w' : World) (outcome : Outcome nat) :
  is_Some (canvases w !! base) ->
  ImageProcessor.addLogoOverlay win self (Some base) logoSrc options w =
    (w', outcome) ->
  canvases w' !! base = canvases w !! base /\
  (forall id, is_Some (canvases w !! id) ->
     canvases w' !! id = canvases w !! id) /\
  (forall out, outcome = Return out ->
     out <> base /\ canvases w !! out = None /\
     width (canvasOf w' out) = width (canvasOf w base) /\
     height (canvasOf w' out) = height (canvasOf w base)) /\
  (forall src img, logoSrc = Some src -> src <> ""%string ->
     Image_load win src = Some img -> exists out, outcome = Return out).
Proof.
  intros Hbase Hrun.
  assert (Hfresh : forall id, is_Some (canvases w !! id) ->
            id <> fresh (dom (canvases w)))
    by (intros id; apply fresh_not_existing).
  destruct logoSrc as [src|].
  - destruct (String.eqb_spec src "") as [->|Hsrc].
    + injection Hrun as <- <-.
      repeat split; intros; try done; congruence.
    + rewrite (addLogoOverlay_run win self base src options w Hbase Hsrc)
        in Hrun.
      destruct (Image_load win src) as [img|] eqn:Himg;
        injection Hrun as <- <-; simpl.
      * split; [|split; [|split]].
        -- rewrite lookup_insert_ne; [done|]. intros E. by apply (Hfresh base).
        -- intros id Hid. rewrite lookup_insert_ne; [done|].
           intros E. by apply (Hfresh id).
        -- intros out [= <-]. split; [|split].
           ++ intros E. by apply (Hfresh base).
           ++ apply fresh_lookup.
           ++ rewrite canvasOf_insert_eq. unfold overlayOf.
              destruct (ImageProcessor.logoRect _ _ _ _) as [[[dx dy] dw] dh].
              done.
        -- eauto.
      * split; [|split; [|split]].
        -- rewrite lookup_insert_ne; [done|]. intros E. by apply (Hfresh base).
        -- intros id Hid. rewrite lookup_insert_ne; [done|].
           intros E. by apply (Hfresh id).
        -- intros out [=].
        -- intros src' img [= <-] _ Himg'. congruence.
  - injection Hrun as <- <-. repeat split; intros; try done; congruence.
Qed.

Lemma addLogoOverlay_keeps_base_witness :
  exists w' out,
    ImageProcessor.addLogoOverlay demoWindow (ImageProcessor.mk 1)
      (Some 0%nat) (Some "logo.png"%string)
      (QRCodeApp.overlayOptions (demoOptions "hi")) (demoWorld None false) =
      (w', Return out) /\
    out <> 0%nat /\
    canvases w' !! 0%nat = canvases (demoWorld None false) !! 0%nat /\
    width (canvasOf w' out) = 300.
Proof.
  destruct (ImageProcessor.addLogoOverlay demoWindow (ImageProcessor.mk 1)
              (Some 0%nat) (Some "logo.png"%string)
              (QRCodeApp.overlayOptions (demoOptions "hi"))
              (demoWorld None false)) as [w' outcome] eqn:Hrun.
  assert (Hbase : is_Some (canvases (demoWorld None false) !! 0%nat))
    by (eexists; reflexivity).
  destruct (addLogoOverlay_keeps_base _ _ _ _ _ _ _ _ Hbase Hrun)
    as (Hkeep & _ & Hout & Hreturns).
  destruct (Hreturns "logo.png"%string _ eq_refl ltac:(discriminate) eq_refl)
    as [out ->].
  exists w', out. destruct (Hout out eq_refl) as (Hne & _ & Hw & _).
  repeat split; done.
Defined.

(** * Re-encoding *)

(** [addFrames] appends one frame per canvas: a copy of the canvas as it
    is in the heap, with the delay at the same index, or 100 in place of
    a missing or zero delay. *)
Lemma addFrames_run (canvases0 : list nat) (delays : list Z) :
  forall (index : nat) (w : World),
  exists added,
    ImageProcessor.addFrames canvases0 delays index w =
      (set_gifFrames (gifFrames w ++ added) w, Return tt) /\
    length added = length canvases0 /\
    forall (i : nat) (c : nat), canvases0 !! i = Some c ->
      added !! i =
        Some (canvasOf w c, or_default (delays !! (index + i)%nat) 100).
Proof.
  induction canvases0 as [|c rest IH]; intros index w.
  - exists []. split; [|split; [done|intros i c H; by destruct i]].
    simpl. unfold mret, M_ret. destruct w. unfold set_gifFrames. simpl.
    by rewrite app_nil_r.
  - cbn [ImageProcessor.addFrames]. unfold mbind, M_bind.
    unfold ImageProcessor.addFrame at 1.
    destruct (IH (S index)
                (set_gifFrames
                   (gifFrames w ++
                      [(canvasOf w c, or_default (delays !! index) 100)]) w))
      as (added & Hrun & Hlen & Hlookup).
    exists ((canvasOf w c, or_default (delays !! index) 100) :: added).
    split; [|split].
    + rewrite Hrun. unfold set_gifFrames. simpl.
      by rewrite <- app_assoc.
    + simpl. by rewrite Hlen.
    + intros i c' Hi. destruct i as [|i]; simpl in Hi |- *.
      * injection Hi as <-. by rewrite Nat.add_0_r.
      * rewrite (Hlookup i c' Hi).
        by replace (S index + i)%nat with (index + S i)%nat by lia.
Qed.

Lemma reportProgress_gifFrames (callback : option (Q -> M unit))
    (progress : list Q) :
  (forall f, callback = Some f ->
     forall p w, gifFrames (f p w).1 = gifFrames w) ->
  forall w, gifFrames (ImageProcessor.reportProgress callback progress w).1 =
            gifFrames w.
Proof.
  intros Hcb. induction progress as [|p rest IH]; intros w; [reflexivity|].
  cbn [ImageProcessor.reportProgress]. unfold mbind, M_bind.
  destruct callback as [f|].
  - pose proof (Hcb f eq_refl p w) as Hf.
    destruct (f p w) as [w1 [[]|e]]; simpl in Hf |- *; [|done].
    by rewrite IH.
  - unfold mret, M_ret at 1. apply IH.
Qed.

(** The frames the encoder holds once [createAnimatedGIF] is done. *)
Lemma createAnimatedGIF_frames win render (canvases0 : list nat)
    (delays : list Z) (callback : option (Q -> M unit)) (w : World) :
  GIF win = Some render -> canvases0 <> [] ->
  (forall f, callback = Some f ->
     forall p w0, gifFrames (f p w0).1 = gifFrames w0) ->
  let w' := (ImageProcessor.createAnimatedGIF win canvases0 delays callback
               w).1 in
  length (gifFrames w') = length canvases0 /\
  forall (i : nat) (c : nat), canvases0 !! i = Some c ->
    gifFrames w' !! i = Some (canvasOf w c, or_default (delays !! i) 100).
Proof.
  intros HGIF Hne Hcb. cbv zeta.
  unfold ImageProcessor.createAnimatedGIF. rewrite HGIF.
  destruct (length canvases0 =? 0)%nat eqn:Elen.
  { apply Nat.eqb_eq in Elen. by destruct canvases0. }
  destruct (addFrames_run canvases0 delays 0 (set_gifFrames [] w))
    as (added & Hrun & Hlen & Hlookup).
  erewrite bind_run by reflexivity.
  rewrite (bind_run _ _ _ _ _ Hrun).
  erewrite bind_run by reflexivity.
  cbn [gifFrames set_gifFrames app].
  assert (Hdone : forall w1 : World,
            gifFrames w1 = added ->
            length (gifFrames w1) = length canvases0 /\
            forall (i : nat) (c : nat), canvases0 !! i = Some c ->
              gifFrames w1 !! i =
                Some (canvasOf w c, or_default (delays !! i) 100)).
  { intros w1 ->. split; [done|]. intros i c Hi.
    by rewrite (Hlookup i c Hi). }
  set (w0 := set_gifFrames _ (set_gifFrames [] w)).
  assert (Hw0 : gifFrames w0 = added) by reflexivity.
  change ([] ++ added) with added.
  destruct (render added) as [progress blob|progress error|error].
  - unfold mbind, M_bind.
    pose proof (reportProgress_gifFrames callback progress Hcb w0) as Hp.
    destruct (ImageProcessor.reportProgress callback progress w0)
      as [w1 [[]|e]]; apply Hdone; simpl in Hp |- *; congruence.
  - unfold mbind, M_bind.
    pose proof (reportProgress_gifFrames callback progress Hcb w0) as Hp.
    destruct (ImageProcessor.reportProgress callback progress w0)
      as [w1 [[]|e]]; apply Hdone; simpl in Hp |- *; congruence.
  - by apply Hdone.
Qed.

(** C10.  In [createAnimatedGIF], with the encoder present and at least
    one canvas, the encoder receives one frame per canvas, in order.  A
    frame whose supplied delay is missing or 0 is added with delay 100,
    which for a supplied 0 differs from the supplied value; a frame with
    a non-zero delay is added with that delay. *)
Theorem createAnimatedGIF_default_delay win render (canvases0 : list nat)
    (delays : list Z) (callback : option (Q -> M unit)) (w : World) :
  GIF win = Some render -> canvases0 <> [] ->
  (forall f, callback = Some f ->
     forall p w0, gifFrames (f p w0).1 = gifFrames w0) ->
  let w' := (ImageProcessor.createAnimatedGIF win canvases0 delays callback
               w).1 in
  length (gifFrames w') = length canvases0 /\
  forall (i : nat) (c : nat), canvases0 !! i = Some c ->
    exists d,
      gifFrames w' !! i = Some (canvasOf w c, d) /\
      (delays !! i = None -> d = 100) /\
      (delays !! i = Some 0 -> d = 100 /\ Some d <> delays !! i) /\
      (forall v, delays !! i = Some v -> v <> 0 -> d = v).
Proof.
  intros HGIF Hne Hcb w'.
  destruct (createAnimatedGIF_frames win render canvases0 delays callback w
              HGIF Hne Hcb) as [Hlen Hframes].
  split; [exact Hlen|]. intros i c Hi.
  exists (or_default (delays !! i) 100). split; [by apply Hframes|].
  split; [|split].
  - by intros ->.
  - intros ->. split; [reflexivity|discriminate].
  - intros v -> Hv. simpl. destruct (Z.eqb_spec v 0); [done|reflexivity].
Qed.

Lemma createAnimatedGIF_default_delay_witness :
  map snd (gifFrames
    (ImageProcessor.createAnimatedGIF demoWindow [0%nat; 1%nat; 0%nat]
       [0; 150] None (demoWorld None false)).1) = [100; 150; 100].
Proof.
  assert (Hcb : forall f : Q -> M unit, @None (Q -> M unit) = Some f ->
            forall p w0, gifFrames (f p w0).1 = gifFrames w0)
    by (intros f Hf; discriminate Hf).
  destruct (createAnimatedGIF_default_delay demoWindow _
              [0%nat; 1%nat; 0%nat] [0; 150] None (demoWorld None false)
              eq_refl ltac:(discriminate) Hcb) as [Hlen Hframes].
  destruct (Hframes 0%nat 0%nat eq_refl) as (d0 & H0 & _ & Hzero & _).
  destruct (Hframes 1%nat 1%nat eq_refl) as (d1 & H1 & _ & _ & Hkeep).
  destruct (Hframes 2%nat 0%nat eq_refl) as (d2 & H2 & Hnone & _).
  destruct (Hzero eq_refl) as [-> _].
  rewrite (Hkeep 150 eq_refl ltac:(lia)) in H1.
  rewrite (Hnone eq_refl) in H2.
  destruct (gifFrames _) as [|f0 [|f1 [|f2 [|f3 l]]]]; try discriminate.
  injection H0 as ->. injection H1 as ->. injection H2 as ->.
  reflexivity.
Defined.

(** * [generate] on any page *)

Lemma renderToCanvas_blank qr options c :
  QRGenerator.renderToCanvas qr options c =
  QRGenerator.renderToCanvas qr options newCanvas.
Proof. by rewrite !renderToCanvas_eq. Qed.

(** Whether [generate] throws or returns, and the canvas it renders, do
    not depend on the page: it either throws the same exception
    everywhere, having touched no canvas, or it returns its own canvas
    everywhere, holding the same picture. *)
Lemma generate_uniform win self config :
  (exists e, forall w, exists calls,
     QRGenerator.generate win self config w =
       (set_encoderCalls calls w, Throw e)) \/
  (exists qr, forall w, exists calls,
     QRGenerator.generate win self config w =
       (set_canvases
          (<[QRGenerator.canvas self :=
               QRGenerator.renderToCanvas qr (renderOptionsOf config)
                 newCanvas]> (canvases w))
          (set_encoderCalls calls w),
        Return (QRGenerator.canvas self))).
Proof.
  destruct (QRGenerator.text config) as [text|] eqn:Htext.
  2:{ left. eexists. intros w. exists (encoderCalls w).
      unfold QRGenerator.generate. rewrite Htext.
      by rewrite set_encoderCalls_id. }
  destruct (String.eqb_spec text "") as [->|Hne].
  { left. eexists. intros w. exists (encoderCalls w).
    unfold QRGenerator.generate. rewrite Htext.
    by rewrite set_encoderCalls_id. }
  set (ec := default "H"%string (QRGenerator.errorCorrection config)).
  destruct (probeFrom_run win text ec 40 1) as (t & m & Hrun & _).
  destruct (qrcode win t ec text) as [msg|qr] eqn:E.
  - left. exists (ThrownString msg). intros w. eexists.
    rewrite (generate_nonempty win self config text w Htext Hne).
    fold ec. unfold QRGenerator.calculateTypeNumber. rewrite Hrun, E.
    reflexivity.
  - right. exists qr. intros w. eexists.
    rewrite (generate_nonempty win self config text w Htext Hne).
    fold ec. unfold QRGenerator.calculateTypeNumber. rewrite Hrun, E.
    cbv zeta. rewrite renderToCanvas_blank. reflexivity.
Qed.

(** [generate] for a text the encoder takes: the matrix rendered is the
    one the encoder yields at the smallest type number that takes it. *)
Lemma generate_accepted win self config text :
  QRGenerator.text config = Some text -> text <> ""%string ->
  let ec := default "H"%string (QRGenerator.errorCorrection config) in
  (exists k, 1 <= k <= 40 /\ accepts win k ec text = true) ->
  exists t qr,
    1 <= t <= 40 /\ qrcode win t ec text = inr qr /\
    (forall j, 1 <= j < t -> accepts win j ec text = false) /\
    forall w, exists calls,
      QRGenerator.generate win self config w =
        (set_canvases
           (<[QRGenerator.canvas self :=
                QRGenerator.renderToCanvas qr (renderOptionsOf config)
                  newCanvas]> (canvases w))
           (set_encoderCalls calls w),
         Return (QRGenerator.canvas self)).
Proof.
  intros Htext Hne ec (k & Hk & Hacc).
  destruct (probeFrom_run win text ec 40 1) as (t & m & Hrun & Hres).
  destruct Hres as [(Hr & Ht & Hmin & _)|(Hall & _)].
  2:{ rewrite Hall in Hacc by lia. discriminate. }
  apply accepts_true in Ht as [qr E].
  exists t, qr. split; [lia|]. split; [exact E|]. split; [exact Hmin|].
  intros w. eexists.
  rewrite (generate_nonempty win self config text w Htext Hne).
  fold ec. unfold QRGenerator.calculateTypeNumber. rewrite Hrun, E.
  cbv zeta. rewrite renderToCanvas_blank. reflexivity.
Qed.

(** * The animated path: failure *)

(** A missing decode or encode library makes the animated path throw at
    once. *)
Lemma animatedPath_library_missing win self config w :
  gifuct win = None \/ GIF win = None ->
  exists msg,
    QRCodeApp.animatedPath win self config w = (w, Throw (Error msg)).
Proof.
  intros Hmissing. unfold QRCodeApp.animatedPath. eexists.
  destruct Hmissing as [-> | ->]; [reflexivity|].
  destruct (gifuct win); reflexivity.
Qed.

(** An encoder run that ends in ['error'] makes [createAnimatedGIF]
    throw, unless the progress listener threw first. *)
Lemma createAnimatedGIF_error_event win render canvases0 delays callback w :
  GIF win = Some render -> canvases0 <> [] ->
  (forall frames, exists progress error,
     render frames = ErrorEvent progress error) ->
  exists w' e,
    ImageProcessor.createAnimatedGIF win canvases0 delays callback w =
      (w', Throw e).
Proof.
  intros HGIF Hne Herr. unfold ImageProcessor.createAnimatedGIF.
  rewrite HGIF.
  destruct (length canvases0 =? 0)%nat eqn:Elen.
  { apply Nat.eqb_eq in Elen. by destruct canvases0. }
  destruct (addFrames_run canvases0 delays 0 (set_gifFrames [] w))
    as (added & Hrun & _).
  erewrite bind_run by reflexivity.
  rewrite (bind_run _ _ _ _ _ Hrun).
  erewrite bind_run by reflexivity.
  match goal with |- context [render ?l] =>
    destruct (Herr l) as (progress & error & ->) end.
  unfold mbind, M_bind.
  destruct (ImageProcessor.reportProgress callback progress _)
    as [w1 [[]|e]]; eauto.
Qed.

(** * The animated path: decoding *)

Lemma or_default_nonzero (v : option Z) : or_default v 100 <> 0.
Proof.
  unfold or_default. destruct v as [n|]; [|done].
  destruct (Z.eqb_spec n 0); done.
Qed.

Lemma or_default_keep (d : Z) : d <> 0 -> or_default (Some d) 100 = d.
Proof. intros Hd. simpl. destruct (Z.eqb_spec d 0); done. Qed.

(** The loop of [parseGIF] touches nothing; when it returns, it has
    appended one frame per decoded frame, in order, each with the
    decoded delay or 100 in place of a missing or zero one. *)
Lemma processFrames_run win (frames : list GifFrame) :
  forall acc : list ImageProcessor.Frame,
  exists outcome,
    (forall w, ImageProcessor.processFrames win frames acc w = (w, outcome)) /\
    forall fs, outcome = Return fs ->
      exists news, fs = acc ++ news /\ length news = length frames /\
        map ImageProcessor.delay news =
          map (fun raw => or_default (raw_delay raw) 100) frames.
Proof.
  induction frames as [|frame rest IH]; intros acc.
  - exists (Return acc). split; [done|].
    intros fs [= <-]. exists []. by rewrite app_nil_r.
  - cbn [ImageProcessor.processFrames].
    destruct (ImageData_new win (raw_patch frame)
                (dims_width (raw_dims frame)) (dims_height (raw_dims frame)))
      as [msg|d] eqn:E.
    + exists (Throw (LibraryError msg)). split; [|done].
      intros w. unfold mbind, M_bind, lift. by rewrite ?E.
    + destruct (IH (acc ++
                  [{| ImageProcessor.imageData := d;
                      ImageProcessor.delay :=
                        or_default (raw_delay frame) 100;
                      ImageProcessor.dims := raw_dims frame |}]))
        as (outcome & Hrun & Hres).
      exists outcome. split.
      * intros w. unfold mbind, M_bind, lift. rewrite ?E. apply Hrun.
      * intros fs Hfs. destruct (Hres fs Hfs) as (news & -> & Hlen & Hdel).
        eexists (_ :: news). split; [by rewrite <- app_assoc|].
        split; simpl; congruence.
Qed.

Lemma delays_nonzero (news : list ImageProcessor.Frame)
    (frames : list GifFrame) :
  map ImageProcessor.delay news =
    map (fun raw => or_default (raw_delay raw) 100) frames ->
  Forall (fun f => ImageProcessor.delay f <> 0) news.
Proof.
  revert frames. induction news as [|f news IH]; intros frames H; [done|].
  destruct frames as [|raw frames]; [discriminate|].
  injection H as Hd Hrest. constructor.
  - rewrite Hd. apply or_default_nonzero.
  - by apply (IH frames).
Qed.

(** [parseGIF] touches nothing, and its outcome depends on the data URL
    and the collaborators only.  The frames it returns are at least one,
    one per frame the library decoded and in the same order, and each
    carries the library's delay, or 100 where that is missing or 0; so
    all carry a non-zero delay. *)
Lemma parseGIF_run win (dataURL : option string) :
  exists outcome,
    (forall w, ImageProcessor.parseGIF win dataURL w = (w, outcome)) /\
    forall fs, outcome = Return fs ->
      fs <> [] /\ Forall (fun f => ImageProcessor.delay f <> 0) fs /\
      exists decode bytes raw,
        gifuct win = Some decode /\ decode bytes = inr raw /\
        map ImageProcessor.delay fs =
          map (fun r => or_default (raw_delay r) 100) raw.
Proof.
  set (P := fun fs : list ImageProcessor.Frame =>
    fs <> [] /\ Forall (fun f => ImageProcessor.delay f <> 0) fs /\
    exists decode bytes raw,
      gifuct win = Some decode /\ decode bytes = inr raw /\
      map ImageProcessor.delay fs =
        map (fun r => or_default (raw_delay r) 100) raw).
  assert (Hwrap : forall (body : M (list ImageProcessor.Frame)) o,
    (forall w, body w = (w, o)) ->
    (forall fs, o = Return fs -> P fs) ->
    exists outcome,
      (forall w, try_catch body
         (fun error => throw (Error ("Failed to parse GIF file: " ++
                                     message error)%string)) w =
         (w, outcome)) /\
      forall fs, outcome = Return fs -> P fs).
  { intros body o Hbody Hres. destruct o as [fs|e].
    - exists (Return fs). split; [|done].
      intros w. unfold try_catch. by rewrite Hbody.
    - exists (Throw (Error ("Failed to parse GIF file: " ++
                            message e)%string)).
      split; [|done].
      intros w. unfold try_catch. rewrite Hbody. reflexivity. }
  unfold ImageProcessor.parseGIF.
  destruct (gifuct win) as [decode|] eqn:Hgifuct;
    [|eapply Hwrap; [intros w; reflexivity|done]].
  destruct dataURL as [url|];
    [|eapply Hwrap; [intros w; reflexivity|done]].
  destruct (truthy (split "," url !! 1%nat));
    [|eapply Hwrap; [intros w; reflexivity|done]].
  destruct (atob win (default ""%string (split "," url !! 1%nat)))
    as [msg|bytes] eqn:Eatob.
  { apply (Hwrap _ (Throw (LibraryError msg))); [|done].
    intros w. unfold mbind, M_bind, lift. by rewrite ?Eatob. }
  destruct (decode bytes) as [msg|frames] eqn:Edecode.
  { apply (Hwrap _ (Throw (LibraryError msg))); [|done].
    intros w. unfold mbind, M_bind, lift. by rewrite ?Eatob, ?Edecode. }
  destruct (length frames =? 0)%nat eqn:Elen.
  { apply (Hwrap _ (Throw (Error "No frames found in GIF"))); [|done].
    intros w. unfold mbind, M_bind, lift.
    by rewrite ?Eatob, ?Edecode, ?Elen. }
  destruct (processFrames_run win frames []) as (o & Hrun & Hres).
  apply (Hwrap _ o).
  - intros w. unfold mbind, M_bind, lift.
    rewrite ?Eatob, ?Edecode, ?Elen. apply Hrun.
  - intros fs Hfs. destruct (Hres fs Hfs) as (news & -> & Hlen & Hdel).
    simpl. split; [|split].
    + intros ->. apply Nat.eqb_neq in Elen. simpl in Hlen. lia.
    + by apply (delays_nonzero news frames).
    + by exists decode, bytes, frames.
Qed.

(** * The animated path: the frame loop *)

Lemma imageDataToCanvas_run (d : ImageData) (w : World) :
  ImageProcessor.imageDataToCanvas d w =
  (set_canvases (<[fresh (dom (canvases w)) := frameCanvasOf d]> (canvases w))
     w,
   Return (fresh (dom (canvases w)))).
Proof.
  unfold ImageProcessor.imageDataToCanvas.
  erewrite bind_run by reflexivity.
  erewrite bind_run by apply onCanvas_insert.
  erewrite bind_run by apply onCanvas_insert.
  erewrite bind_run by apply onCanvas_insert.
  reflexivity.
Qed.

Section FrameLoop.

Variable win : Window.
Variable self : QRCodeApp.t.
Variable config : QRGenerator.Options.
Variable qr : QRCode.

Let g : nat := QRGenerator.canvas (QRCodeApp.qrGenerator self).
Let base : Canvas :=
  QRGenerator.renderToCanvas qr (renderOptionsOf config) newCanvas.

Hypothesis generate_returns : forall w, exists calls,
  QRGenerator.generate win (QRCodeApp.qrGenerator self) config w =
    (set_canvases (<[g := base]> (canvases w)) (set_encoderCalls calls w),
     Return g).

(** One iteration allocates the canvas it returns, composites the frame
    on it, and changes no other canvas that existed, the generator's
    apart. *)
Lemma processFrame_run (frame : ImageProcessor.Frame) (i total : nat)
    (w w' : World) (out : nat) :
  is_Some (canvases w !! g) ->
  QRCodeApp.processFrame win self config frame i total w = (w', Return out) ->
  canvases w !! out = None /\
  is_Some (canvases w' !! g) /\
  (forall id, is_Some (canvases w !! id) -> id <> g ->
     canvases w' !! id = canvases w !! id) /\
  gifFrames w' = gifFrames w /\
  compositeOf win g base (QRCodeApp.overlayOptions config) w' out frame.
Proof.
  intros Hg Hrun. unfold QRCodeApp.processFrame in Hrun.
  erewrite bind_run in Hrun by reflexivity.
  match type of Hrun with mbind _ _ ?w1 = _ =>
    destruct (generate_returns w1) as [calls Hgen] end.
  rewrite (bind_run _ _ _ _ _ Hgen) in Hrun.
  rewrite (bind_run _ _ _ _ _ (imageDataToCanvas_run _ _)) in Hrun.
  erewrite bind_run in Hrun
    by (unfold getCanvas; rewrite canvasOf_insert_eq; reflexivity).
  cbn [canvases set_canvases set_encoderCalls set_ui] in Hrun.
  set (h1 := <[g := base]> (canvases w)) in *.
  set (f := fresh (dom h1)) in *.
  set (url := toDataURL win
                (frameCanvasOf (ImageProcessor.imageData frame))) in *.
  assert (Hfg : f <> g).
  { intros E. apply (fresh_not_existing h1 g); [|done].
    unfold h1. rewrite lookup_insert_eq. eauto. }
  assert (Hh1 : forall id, is_Some (canvases w !! id) -> is_Some (h1 !! id)).
  { intros id Hid. unfold h1.
    destruct (decide (g = id)) as [->|Hne];
      [rewrite lookup_insert_eq; eauto | by rewrite lookup_insert_ne]. }
  destruct (String.eqb_spec url "") as [Eurl|Hurl].
  { rewrite Eurl in Hrun. discriminate Hrun. }
  match type of Hrun with
    ImageProcessor.addLogoOverlay _ _ _ _ _ ?w3 = _ =>
      assert (Hg3 : is_Some (canvases w3 !! g))
  end.
  { simpl. rewrite lookup_insert_ne by done. unfold h1.
    rewrite lookup_insert_eq. eauto. }
  rewrite (addLogoOverlay_run _ _ _ _ _ _ Hg3 Hurl) in Hrun.
  cbn [canvases set_canvases] in Hrun.
  set (h2 := <[f := frameCanvasOf (ImageProcessor.imageData frame)]> h1) in *.
  destruct (Image_load win url) as [img|] eqn:Himg; [|discriminate Hrun].
  injection Hrun as <- <-. cbn [canvases set_canvases].
  assert (Hh2 : forall id, is_Some (h1 !! id) -> is_Some (h2 !! id)).
  { intros id Hid. unfold h2.
    destruct (decide (f = id)) as [->|Hne];
      [rewrite lookup_insert_eq; eauto | by rewrite lookup_insert_ne]. }
  assert (Hout : forall id, is_Some (canvases w !! id) ->
            id <> fresh (dom h2) /\ id <> f).
  { intros id Hid. split.
    - apply fresh_not_existing. auto.
    - apply fresh_not_existing. auto. }
  assert (Hgout : g <> fresh (dom h2)) by (apply (Hout g Hg)).
  split; [|split; [|split; [|split; [|split]]]].
  - destruct (canvases w !! fresh (dom h2)) eqn:E; [|done].
    destruct (Hout (fresh (dom h2))) as [Hc _]; [rewrite E; eauto|].
    by exfalso.
  - rewrite lookup_insert_ne by done. apply Hh2. unfold h1.
    rewrite lookup_insert_eq. eauto.
  - intros id Hid Hne. destruct (Hout id Hid) as [H1 H2].
    rewrite lookup_insert_ne by done. unfold h2.
    rewrite lookup_insert_ne by done. unfold h1.
    by rewrite lookup_insert_ne.
  - reflexivity.
  - done.
  - exists img. split; [done|]. cbn [canvases set_canvases].
    rewrite lookup_insert_eq. do 2 f_equal.
    unfold canvasOf. simpl. fold h2. unfold h2.
    rewrite lookup_insert_ne by done. unfold h1.
    by rewrite lookup_insert_eq.
Qed.

(** The loop returns the canvases and delays it was given followed by
    one canvas and one delay per frame, in the order of the frames; when
    it ends every one of these canvases still shows the composite of its
    frame. *)
Lemma frameLoop_run (remaining : list ImageProcessor.Frame) :
  forall (i total : nat) (cs : list nat) (ds : list Z) (w w' : World)
         (cs' : list nat) (ds' : list Z),
  is_Some (canvases w !! g) ->
  QRCodeApp.frameLoop win self config remaining i total cs ds w =
    (w', Return (cs', ds')) ->
  exists news,
    cs' = cs ++ news /\
    ds' = ds ++ map ImageProcessor.delay remaining /\
    is_Some (canvases w' !! g) /\
    (forall id, is_Some (canvases w !! id) -> id <> g ->
       canvases w' !! id = canvases w !! id) /\
    gifFrames w' = gifFrames w /\
    Forall2 (compositeOf win g base (QRCodeApp.overlayOptions config) w')
      news remaining.
Proof.
  induction remaining as [|frame rest IH];
    intros i total cs ds w w' cs' ds' Hg Hrun.
  - injection Hrun as <- <- <-. exists [].
    rewrite !app_nil_r. repeat split; done.
  - cbn [QRCodeApp.frameLoop] in Hrun.
    destruct (QRCodeApp.processFrame win self config frame i total w)
      as [w1 [out|e]] eqn:Hstep.
    2:{ rewrite (bind_throw _ _ _ _ _ Hstep) in Hrun. discriminate. }
    rewrite (bind_run _ _ _ _ _ Hstep) in Hrun.
    destruct (processFrame_run frame i total w w1 out Hg Hstep)
      as (Hnew & Hg1 & Hkeep1 & Hgif & Hne & Hcomp).
    destruct (IH _ _ _ _ _ _ _ _ Hg1 Hrun)
      as (news & -> & -> & Hg' & Hkeep & Hgif' & Hall).
    exists (out :: news). rewrite <- !app_assoc. simpl.
    split; [done|]. split; [done|]. split; [done|]. split; [|split].
    + intros id Hid Hidg. rewrite Hkeep; [by apply Hkeep1| |done].
      rewrite Hkeep1 by done. done.
    + congruence.
    + constructor; [|done].
      split; [done|]. destruct Hcomp as (img & Himg & Hout).
      exists img. split; [done|].
      rewrite Hkeep; [done| |done]. rewrite Hout. eauto.
Qed.

End FrameLoop.

(** * The animated path: success *)

Lemma lookup_map {A B : Type} (f : A -> B) (l : list A) (i : nat) :
  map f l !! i = option_map f (l !! i).
Proof.
  revert i. induction l as [|x l IH]; intros [|i]; simpl; done.
Qed.

(** When [generate] throws, the first iteration of the loop throws. *)
Lemma frameLoop_generate_throws win self config e frame rest i total cs ds w :
  (forall w0, exists calls,
     QRGenerator.generate win (QRCodeApp.qrGenerator self) config w0 =
       (set_encoderCalls calls w0, Throw e)) ->
  exists w1,
    QRCodeApp.frameLoop win self config (frame :: rest) i total cs ds w =
      (w1, Throw e).
Proof.
  intros Hfail. cbn [QRCodeApp.frameLoop].
  destruct (QRCodeApp.processFrame win self config frame i total w)
    as [w1 o] eqn:Hstep.
  unfold QRCodeApp.processFrame in Hstep.
  erewrite bind_run in Hstep by reflexivity.
  match type of Hstep with mbind _ _ ?w0 = _ =>
    destruct (Hfail w0) as [calls Hgen] end.
  rewrite (bind_throw _ _ _ _ _ Hgen) in Hstep.
  injection Hstep as <- <-. eexists.
  erewrite bind_throw; [reflexivity|].
  unfold QRCodeApp.processFrame.
  erewrite bind_run by reflexivity.
  erewrite bind_throw by exact Hgen. reflexivity.
Qed.

(** C5.  Whenever the animated path runs to its end, the frames handed
    to the encoder are one per decoded frame, in the order of the
    decoded frames: frame [i] is the rendered QR code (the same for all
    frames) under the image of decoded frame [i], and it carries the
    delay decoded for frame [i].  The output delay sequence is the
    decoded delay sequence.  The decoded animation is the array
    [parseGIF] resolves to; its delays are those of the library's
    frames, a missing or zero one read as 100. *)
Theorem animated_frames_match_decoded win self config (w w' : World) :
  is_Some (canvases w !! QRGenerator.canvas (QRCodeApp.qrGenerator self)) ->
  QRCodeApp.animatedPath win self config w = (w', Return tt) ->
  exists (frames : list ImageProcessor.Frame) (base : Canvas),
    (forall w0, ImageProcessor.parseGIF win (currentLogo (app w)) w0 =
                  (w0, Return frames)) /\
    (exists decode bytes raw,
       gifuct win = Some decode /\ decode bytes = inr raw /\
       map ImageProcessor.delay frames =
         map (fun r => or_default (raw_delay r) 100) raw) /\
    length (gifFrames w') = length frames /\
    map snd (gifFrames w') = map ImageProcessor.delay frames /\
    forall (i : nat) (frame : ImageProcessor.Frame),
      frames !! i = Some frame ->
      exists img,
        Image_load win
          (toDataURL win (frameCanvasOf (ImageProcessor.imageData frame))) =
          Some img /\
        gifFrames w' !! i =
          Some (overlayOf base img (QRCodeApp.overlayOptions config),
                ImageProcessor.delay frame).
Proof.
  intros Hg Hrun. unfold QRCodeApp.animatedPath in Hrun.
  destruct (GIF win) as [render|] eqn:HGIF.
  2:{ destruct (gifuct win); discriminate Hrun. }
  destruct (gifuct win) as [decode|] eqn:Hgifuct; [|discriminate Hrun].
  cbn [negb orb] in Hrun.
  replace (bool_decide (is_Some (Some decode))) with true in Hrun
    by (symmetry; apply bool_decide_eq_true; eauto).
  replace (bool_decide (is_Some (Some render))) with true in Hrun
    by (symmetry; apply bool_decide_eq_true; eauto).
  cbn [negb orb] in Hrun.
  erewrite bind_run in Hrun by reflexivity.
  erewrite bind_run in Hrun by reflexivity.
  cbn [app set_ui] in Hrun.
  destruct (parseGIF_run win (currentLogo (app w)))
    as (o & Hparse & Hres).
  destruct o as [frames|e];
    [|rewrite (bind_throw _ _ _ _ _ (Hparse _)) in Hrun; discriminate Hrun].
  rewrite (bind_run _ _ _ _ _ (Hparse _)) in Hrun.
  destruct (Hres frames eq_refl) as (Hnonempty & Hdelays & Hraw).
  match type of Hrun with mbind _ _ ?w0 = _ => set (w1 := w0) in * end.
  destruct (QRCodeApp.frameLoop win self config frames 0 (length frames)
              [] [] w1) as [w2 [[cs ds]|e]] eqn:Hloop;
    [|rewrite (bind_throw _ _ _ _ _ Hloop) in Hrun; discriminate Hrun].
  rewrite (bind_run _ _ _ _ _ Hloop) in Hrun.
  destruct (generate_uniform win (QRCodeApp.qrGenerator self) config)
    as [[e Hfail]|[qr Hgen]].
  { destruct frames as [|frame rest]; [done|].
    destruct (frameLoop_generate_throws win self config e frame rest 0
                (length (frame :: rest)) [] [] w1 Hfail) as [w1' Hthrow].
    rewrite Hthrow in Hloop. discriminate Hloop. }
  destruct (frameLoop_run win self config qr Hgen frames 0 (length frames)
              [] [] w1 w2 cs ds Hg Hloop)
    as (news & -> & -> & Hg2 & _ & _ & Hall).
  cbn [app] in *.
  set (base := QRGenerator.renderToCanvas qr (renderOptionsOf config)
                 newCanvas) in *.
  erewrite bind_run in Hrun by reflexivity.
  match type of Hrun with mbind _ _ ?w0 = _ => set (w3 := w0) in * end.
  set (callback := Some _ : option (Q -> M unit)) in Hrun.
  assert (Hcb : forall f, callback = Some f ->
            forall p w0, gifFrames (f p w0).1 = gifFrames w0).
  { intros f [= <-] p w0. reflexivity. }
  assert (Hlen : length news = length frames)
    by (by apply Forall2_length in Hall).
  assert (Hcs : news <> []).
  { intros ->. destruct frames; [done|discriminate Hlen]. }
  destruct (createAnimatedGIF_frames win render news
              (map ImageProcessor.delay frames) callback w3 HGIF Hcs Hcb)
    as [Hcount Hframes].
  destruct (ImageProcessor.createAnimatedGIF win news
              (map ImageProcessor.delay frames) callback w3)
    as [w4 [blob|e]] eqn:Hgif;
    [|rewrite (bind_throw _ _ _ _ _ Hgif) in Hrun; discriminate Hrun].
  rewrite (bind_run _ _ _ _ _ Hgif) in Hrun. cbn [fst] in Hcount, Hframes.
  unfold ImageProcessor.blobToDataURL in Hrun.
  destruct (readAsDataURL win blob) as [url|]; [|discriminate Hrun].
  erewrite bind_run in Hrun by reflexivity.
  erewrite bind_run in Hrun by reflexivity.
  injection Hrun as <-.
  cbn [gifFrames set_ui set_app].
  assert (Hframe : forall (i : nat) (frame : ImageProcessor.Frame),
            frames !! i = Some frame ->
            exists img,
              Image_load win
                (toDataURL win
                   (frameCanvasOf (ImageProcessor.imageData frame))) =
                Some img /\
              gifFrames w4 !! i =
                Some (overlayOf base img (QRCodeApp.overlayOptions config),
                      ImageProcessor.delay frame)).
  { intros i frame Hi.
    destruct (Forall2_lookup_r _ _ _ _ _ Hall Hi)
      as (out & Hout & _ & img & Himg & Hcanvas).
    exists img. split; [done|].
    rewrite (Hframes i out Hout). do 2 f_equal.
    - unfold canvasOf. change (canvases w3) with (canvases w2).
      by rewrite Hcanvas.
    - rewrite lookup_map, Hi. cbn [option_map].
      apply or_default_keep.
      by apply (proj1 (Forall_lookup _ _) Hdelays i frame). }
  exists frames, base. split; [exact Hparse|].
  split; [by rewrite Hgifuct in Hraw|].
  split; [congruence|]. split; [|exact Hframe].
  apply list_eq. intros i. rewrite !lookup_map.
  destruct (frames !! i) as [frame|] eqn:Hi.
  - destruct (Hframe i frame Hi) as (img & _ & ->). reflexivity.
  - rewrite (proj2 (lookup_ge_None _ _)); [done|].
    apply lookup_ge_None in Hi. lia.
Qed.

Lemma animated_frames_match_decoded_witness :
  exists w',
    QRCodeApp.animatedPath demoWindow demoApp (demoOptions "hi")
      (demoWorld (Some "data:image/gif;base64,R0lG"%string) true) =
      (w', Return tt) /\
    map snd (gifFrames w') = [100; 150; 100].
Proof.
  destruct (QRCodeApp.animatedPath demoWindow demoApp (demoOptions "hi")
              (demoWorld (Some "data:image/gif;base64,R0lG"%string) true))
    as [w' [[]|e]] eqn:Hrun.
  - exists w'. split; [reflexivity|].
    destruct (animated_frames_match_decoded demoWindow demoApp
                (demoOptions "hi")
                (demoWorld (Some "data:image/gif;base64,R0lG"%string) true)
                w' ltac:(eexists; reflexivity) Hrun)
      as (frames & base & Hparse & _ & _ & -> & _).
    specialize (Hparse (demoWorld None false)).
    vm_compute in Hparse. injection Hparse as <-. reflexivity.
  - exfalso. vm_compute in Hrun. discriminate Hrun.
Defined.

(** * More on the matrix renderer *)

Lemma styleOps_darkOps style qr cellSize margin fg :
  styleOps style qr cellSize margin fg =
  darkOps qr (styleShape style cellSize margin fg).
Proof.
  unfold styleOps, styleShape, dotOps, roundedOps, squareOps, darkOps.
  destruct (String.eqb style "dots"); [reflexivity|].
  destruct (String.eqb style "rounded"); reflexivity.
Qed.

(** The rounded rectangle of a module lies inside its cell. *)
Lemma covers_rounded fg cellSize margin (row col : nat) px py :
  (0 < cellSize)%Q ->
  covers (FillRoundedRect fg (inject_Z (Z.of_nat col + margin) * cellSize)
            (inject_Z (Z.of_nat row + margin) * cellSize) cellSize cellSize
            (cellSize * (3 # 10))) px py = true ->
  moduleIndex cellSize margin px = Z.of_nat col /\
  moduleIndex cellSize margin py = Z.of_nat row.
Proof.
  intros Hcs H. simpl in H. unfold inRoundedRect in H.
  apply andb_true_iff in H as [H _].
  by apply (covers_square fg cellSize margin row col px py Hcs).
Qed.

(** Whatever the style, the shape of a module lies inside its cell. *)
Lemma covers_styleShape style fg cellSize margin (row col : nat) px py :
  (0 < cellSize)%Q ->
  covers (styleShape style cellSize margin fg row col) px py = true ->
  moduleIndex cellSize margin px = Z.of_nat col /\
  moduleIndex cellSize margin py = Z.of_nat row.
Proof.
  intros Hcs. unfold styleShape.
  destruct (String.eqb style "dots"); [by apply covers_dot|].
  destruct (String.eqb style "rounded"); [by apply covers_rounded|].
  by apply covers_square.
Qed.

(** The centre of a cell lies in that cell. *)
Lemma moduleIndex_centre cellSize margin (index : nat) :
  (0 < cellSize)%Q ->
  moduleIndex cellSize margin
    ((inject_Z (Z.of_nat index + margin) + (1 # 2)) * cellSize) =
  Z.of_nat index.
Proof.
  intros Hcs. unfold moduleIndex.
  apply Z.sub_move_r, cell_of_floor; [done|]. split; nra.
Qed.

(** Whatever the style, the shape of a module covers the centre of its
    cell. *)
Lemma styleShape_covers_centre style fg cellSize margin (row col : nat) :
  (0 < cellSize)%Q ->
  covers (styleShape style cellSize margin fg row col)
    ((inject_Z (Z.of_nat col + margin) + (1 # 2)) * cellSize)
    ((inject_Z (Z.of_nat row + margin) + (1 # 2)) * cellSize) = true.
Proof.
  intros Hcs. unfold styleShape.
  set (a := inject_Z (Z.of_nat col + margin)).
  set (b := inject_Z (Z.of_nat row + margin)).
  assert (Hin : inRect (a * cellSize) (b * cellSize) cellSize cellSize
                  ((a + (1 # 2)) * cellSize) ((b + (1 # 2)) * cellSize) =
                true)
    by (apply inRect_spec; repeat split; nra).
  destruct (String.eqb style "dots");
    [|destruct (String.eqb style "rounded")]; simpl.
  - unfold inCircle, sq. apply Qle_bool_iff. nra.
  - unfold inRoundedRect. rewrite Hin. simpl.
    assert (HL : Qlt_bool ((a + (1 # 2)) * cellSize)
                   (a * cellSize + cellSize * (3 # 10)) = false).
    { apply not_true_is_false. rewrite Qlt_bool_iff. nra. }
    assert (HT : Qlt_bool ((b + (1 # 2)) * cellSize)
                   (b * cellSize + cellSize * (3 # 10)) = false).
    { apply not_true_is_false. rewrite Qlt_bool_iff. nra. }
    assert (HR : Qlt_bool (a * cellSize + cellSize - cellSize * (3 # 10))
                   ((a + (1 # 2)) * cellSize) = false).
    { apply not_true_is_false. rewrite Qlt_bool_iff. nra. }
    assert (HB : Qlt_bool (b * cellSize + cellSize - cellSize * (3 # 10))
                   ((b + (1 # 2)) * cellSize) = false).
    { apply not_true_is_false. rewrite Qlt_bool_iff. nra. }
    by rewrite HL, HT, HR, HB.
  - exact Hin.
Qed.

(** Calls that all fill with one colour show that colour wherever one
    of them paints, and leave the rest as it was. *)
Lemma paint_one_colour ops fg px py :
  (forall op, In op ops ->
     forall under, paintOp op px py under =
                   if covers op px py then Solid fg else under) ->
  forall under,
    paint ops px py under =
    if (0 <? coverCount ops px py)%nat then Solid fg else under.
Proof.
  induction ops as [|op ops IH]; intros Hops under; [reflexivity|].
  change (paint (op :: ops) px py under)
    with (paint ops px py (paintOp op px py under)).
  rewrite (Hops op (or_introl eq_refl)), coverCount_cons.
  rewrite IH by (intros op' Hin; apply Hops; by right).
  destruct (covers op px py); simpl; [|reflexivity].
  by destruct (0 <? coverCount ops px py)%nat.
Qed.

Lemma paintOp_styleShape style fg cellSize margin row col px py under :
  paintOp (styleShape style cellSize margin fg row col) px py under =
  if covers (styleShape style cellSize margin fg row col) px py
  then Solid fg else under.
Proof.
  unfold styleShape.
  destruct (String.eqb style "dots");
    [|destruct (String.eqb style "rounded")]; reflexivity.
Qed.

(** The centre of a cell of the matrix is on the surface. *)
Lemma centre_on_surface qr size margin (index : nat) :
  0 < size -> 0 <= margin -> (index < getModuleCount qr)%nat ->
  let p := ((inject_Z (Z.of_nat index + margin) + (1 # 2)) *
            QRGenerator.cellSizeOf qr size margin)%Q in
  (0 <= p)%Q /\ (p < inject_Z size)%Q.
Proof.
  intros Hs Hm Hi p.
  pose proof (cellSize_pos qr size margin Hs Hm ltac:(lia)) as Hcs.
  set (cs := QRGenerator.cellSizeOf qr size margin) in *.
  set (total := Z.of_nat (getModuleCount qr) + margin * 2).
  assert (Ht : (0 < inject_Z total)%Q)
    by (change 0%Q with (inject_Z 0); rewrite <- Zlt_Qlt; unfold total; lia).
  assert (Esize : (inject_Z size == cs * inject_Z total)%Q).
  { unfold cs, QRGenerator.cellSizeOf. fold total. field. lra. }
  assert (Hidx : (inject_Z (Z.of_nat index + margin) + 1 <= inject_Z total)%Q).
  { rewrite <- inject_Z_succ, <- Zle_Qle. unfold total. lia. }
  assert (H0 : (0 <= inject_Z (Z.of_nat index + margin))%Q)
    by (change 0%Q with (inject_Z 0); rewrite <- Zle_Qle; lia).
  subst p. split; [nra|]. rewrite Esize. nra.
Qed.

(** X1.  In every style the centre of each cell of the matrix shows the
    module: the foreground colour when the module is dark; when it is
    light, the background colour, or nothing with a transparent
    background. *)
Theorem module_centre_shows_module qr (options : QRGenerator.RenderOptions)
    (c : Canvas) (row col : nat) :
  0 < QRGenerator.r_size options ->
  0 <= QRGenerator.r_margin options ->
  (row < getModuleCount qr)%nat -> (col < getModuleCount qr)%nat ->
  let margin := QRGenerator.r_margin options in
  let cellSize :=
    QRGenerator.cellSizeOf qr (QRGenerator.r_size options) margin in
  let px := ((inject_Z (Z.of_nat col + margin) + (1 # 2)) * cellSize)%Q in
  let py := ((inject_Z (Z.of_nat row + margin) + (1 # 2)) * cellSize)%Q in
  pixelAt (QRGenerator.renderToCanvas qr options c) px py =
    if isDark qr row col then Solid (QRGenerator.r_foregroundColor options)
    else if QRGenerator.r_transparentBackground options then Transparent
    else Solid (QRGenerator.r_backgroundColor options).
Proof.
  intros Hs Hm Hrow Hcol margin cellSize px py.
  pose proof (cellSize_pos qr _ margin Hs Hm ltac:(lia)) as Hcs.
  fold cellSize in Hcs.
  destruct (centre_on_surface qr _ margin col Hs Hm Hcol) as [Hx0 Hx1].
  destruct (centre_on_surface qr _ margin row Hs Hm Hrow) as [Hy0 Hy1].
  fold cellSize px in Hx0, Hx1. fold cellSize py in Hy0, Hy1.
  set (size := QRGenerator.r_size options) in *.
  assert (Hin : inRect 0 0 (inject_Z size) (inject_Z size) px py = true)
    by (apply inRect_spec; repeat split; lra).
  rewrite renderToCanvas_eq. fold size margin cellSize.
  unfold pixelAt. cbn [width height content]. rewrite Hin.
  change (ClearRect 0 0 (inject_Z size) (inject_Z size) :: ?l)
    with ([ClearRect 0 0 (inject_Z size) (inject_Z size)] ++ l).
  rewrite !paint_app, styleOps_darkOps.
  set (fg := QRGenerator.r_foregroundColor options).
  set (shape := styleShape (QRGenerator.r_style options) cellSize margin fg).
  rewrite (paint_one_colour (darkOps qr shape) fg).
  2:{ intros op Hop under. apply in_darkOps in Hop
        as (r & k & _ & _ & _ & ->). apply paintOp_styleShape. }
  rewrite (coverCount_darkOps qr shape cellSize margin).
  2:{ intros r k. by apply covers_styleShape. }
  unfold darkAt. cbv zeta. unfold px, py.
  rewrite !moduleIndex_centre by done. rewrite !Nat2Z.id.
  unfold shape at 1. rewrite styleShape_covers_centre by done.
  destruct (Z.leb_spec 0 (Z.of_nat col)); [|lia].
  destruct (Z.ltb_spec (Z.of_nat col) (Z.of_nat (getModuleCount qr)));
    [|lia].
  destruct (Z.leb_spec 0 (Z.of_nat row)); [|lia].
  destruct (Z.ltb_spec (Z.of_nat row) (Z.of_nat (getModuleCount qr)));
    [|lia].
  cbn [andb]. fold px py.
  destruct (isDark qr row col); cbn [Nat.ltb Nat.leb].
  - reflexivity.
  - destruct (QRGenerator.r_transparentBackground options);
      unfold paint; cbn [fold_left paintOp covers app]; by rewrite ?Hin.
Qed.

Lemma module_centre_shows_module_witness :
  pixelAt (QRGenerator.renderToCanvas demoQR (demoRender "rounded" false)
             newCanvas) 30%Q 30%Q = Solid black /\
  pixelAt (QRGenerator.renderToCanvas demoQR (demoRender "dots" true)
             newCanvas) 50%Q 30%Q = Transparent.
Proof.
  split.
  - exact (module_centre_shows_module demoQR (demoRender "rounded" false)
             newCanvas 0 0 ltac:(simpl; lia) ltac:(simpl; lia)
             ltac:(simpl; lia) ltac:(simpl; lia)).
  - exact (module_centre_shows_module demoQR (demoRender "dots" true)
             newCanvas 0 1 ltac:(simpl; lia) ltac:(simpl; lia)
             ltac:(simpl; lia) ltac:(simpl; lia)).
Defined.

(** A point is painted by no module call when the shape drawn for the
    cell it lies in does not cover it. *)
Lemma coverCount_darkOps_zero qr shape cellSize margin px py :
  (forall row col, covers (shape row col) px py = true ->
     moduleIndex cellSize margin px = Z.of_nat col /\
     moduleIndex cellSize margin py = Z.of_nat row) ->
  (forall row col : nat,
     moduleIndex cellSize margin px = Z.of_nat col ->
     moduleIndex cellSize margin py = Z.of_nat row ->
     covers (shape row col) px py = false) ->
  coverCount (darkOps qr shape) px py = 0%nat.
Proof.
  intros Hcell Hmiss. rewrite (coverCount_darkOps _ _ cellSize margin) by done.
  destruct (darkAt qr cellSize margin px py) eqn:E; [|reflexivity].
  unfold darkAt in E. rewrite !andb_true_iff in E.
  destruct E as ((((E1 & _) & E3) & _) & _).
  rewrite Hmiss; [reflexivity| |]; lia.
Qed.

Lemma styleOps_empty style qr cellSize margin fg :
  getModuleCount qr = 0%nat -> styleOps style qr cellSize margin fg = [].
Proof. intros Hn. rewrite styleOps_darkOps. by apply darkOps_empty. Qed.

(** X2.  In Rounded style the module calls are one rounded rectangle of
    side [cellSize] and corner radius [0.3 * cellSize] per dark module,
    at the origin of its cell.  Away from the lines of the cell grid, by
    more than a thousandth of a cell, no point is painted by two of them
    and no point outside the cells of dark modules is painted.  The
    corner points of the cell grid are never painted: the rounding of
    the corners keeps the shapes of diagonal neighbours apart. *)
Theorem rounded_stays_in_cell qr (options : QRGenerator.RenderOptions)
    (c : Canvas) :
  QRGenerator.r_style options = "rounded"%string ->
  0 < QRGenerator.r_size options ->
  0 <= QRGenerator.r_margin options ->
  let margin := QRGenerator.r_margin options in
  let fg := QRGenerator.r_foregroundColor options in
  let n := getModuleCount qr in
  let cellSize :=
    QRGenerator.cellSizeOf qr (QRGenerator.r_size options) margin in
  let rounded := roundedOps qr cellSize margin fg in
  (exists background,
     content (QRGenerator.renderToCanvas qr options c) =
       background ++ rounded) /\
  (forall op, In op rounded <->
     exists row col, (row < n)%nat /\ (col < n)%nat /\
       isDark qr row col = true /\
       op = FillRoundedRect fg (inject_Z (Z.of_nat col + margin) * cellSize)
              (inject_Z (Z.of_nat row + margin) * cellSize)
              cellSize cellSize (cellSize * (3 # 10))) /\
  (forall px py,
     clearOfGrid cellSize px = true -> clearOfGrid cellSize py = true ->
     (coverCount rounded px py <= 1)%nat /\
     (darkAt qr cellSize margin px py = false ->
      coverCount rounded px py = 0%nat)) /\
  (forall zx zy : Z,
     coverCount rounded (inject_Z zx * cellSize) (inject_Z zy * cellSize) =
       0%nat).
Proof.
  intros Hstyle Hs Hm margin fg n cellSize rounded.
  split; [|split; [|split]].
  - rewrite renderToCanvas_eq. fold margin fg cellSize. rewrite Hstyle.
    simpl content.
    change (styleOps "rounded" qr cellSize margin fg) with rounded.
    eexists. by rewrite app_comm_cons.
  - intros op. apply in_darkOps.
  - intros px py _ _. destruct (Nat.eq_dec n 0%nat) as [Hn|Hn].
    { unfold rounded, roundedOps. rewrite darkOps_empty by exact Hn.
      unfold coverCount. simpl. split; [lia|done]. }
    pose proof (cellSize_pos qr _ margin Hs Hm ltac:(unfold n in Hn; lia)) as Hcs.
    unfold rounded, roundedOps.
    rewrite (coverCount_darkOps _ _ cellSize margin)
      by (intros row col Hcov; by apply (covers_rounded fg) in Hcov).
    split.
    + repeat match goal with |- context [if ?b then _ else _] =>
        destruct b end; lia.
    + by intros ->.
  - intros zx zy. destruct (Nat.eq_dec n 0%nat) as [Hn|Hn].
    { unfold rounded, roundedOps. rewrite darkOps_empty by exact Hn.
      unfold coverCount. simpl. lia. }
    pose proof (cellSize_pos qr _ margin Hs Hm ltac:(unfold n in Hn; lia)) as Hcs.
    fold cellSize in Hcs.
    apply (coverCount_darkOps_zero _ _ cellSize margin).
    + intros row col Hcov. by apply (covers_rounded fg) in Hcov.
    + intros row col Hx Hy. unfold moduleIndex in Hx, Hy.
      apply Z.sub_move_r in Hx, Hy.
      apply (cell_of_floor _ _ _ Hcs) in Hx, Hy.
      set (a := inject_Z (Z.of_nat col + margin)) in *.
      set (b := inject_Z (Z.of_nat row + margin)) in *.
      set (x := (inject_Z zx * cellSize)%Q) in *.
      set (y := (inject_Z zy * cellSize)%Q) in *.
      assert (Ex : (x == a * cellSize)%Q).
      { assert (Hz : inject_Z zx == a).
        { unfold a. f_equiv.
          assert (A : (inject_Z (Z.of_nat col + margin) <= inject_Z zx)%Q)
            by (unfold x in Hx; fold a in Hx |- *; nra).
          assert (B : (inject_Z zx <
                       inject_Z (Z.of_nat col + margin + 1))%Q)
            by (rewrite inject_Z_succ; unfold x in Hx; fold a in Hx |- *;
                nra).
          rewrite <- Zle_Qle in A. rewrite <- Zlt_Qlt in B. lia. }
        unfold x. by rewrite Hz. }
      assert (Ey : (y == b * cellSize)%Q).
      { assert (Hz : inject_Z zy == b).
        { unfold b. f_equiv.
          assert (A : (inject_Z (Z.of_nat row + margin) <= inject_Z zy)%Q)
            by (unfold y in Hy; fold b in Hy |- *; nra).
          assert (B : (inject_Z zy <
                       inject_Z (Z.of_nat row + margin + 1))%Q)
            by (rewrite inject_Z_succ; unfold y in Hy; fold b in Hy |- *;
                nra).
          rewrite <- Zle_Qle in A. rewrite <- Zlt_Qlt in B. lia. }
        unfold y. by rewrite Hz. }
      simpl. unfold inRoundedRect.
      apply andb_false_iff. right.
      apply andb_false_iff. left. apply andb_false_iff. left.
      apply andb_false_iff. left.
      assert (HL : Qlt_bool x (a * cellSize + cellSize * (3 # 10)) = true)
        by (apply Qlt_bool_iff; nra).
      assert (HT : Qlt_bool y (b * cellSize + cellSize * (3 # 10)) = true)
        by (apply Qlt_bool_iff; nra).
      rewrite HL, HT. cbn [andb implb].
      unfold inCircle, sq. apply not_true_is_false.
      rewrite Qle_bool_iff. nra.
Qed.

Lemma rounded_stays_in_cell_witness :
  coverCount (roundedOps demoQR (QRGenerator.cellSizeOf demoQR 80 1) 1 black)
    20%Q 20%Q = 0%nat /\
  (coverCount (roundedOps demoQR (QRGenerator.cellSizeOf demoQR 80 1) 1 black)
     21%Q 30%Q <= 1)%nat /\
  coverCount (roundedOps demoQR (QRGenerator.cellSizeOf demoQR 80 1) 1 black)
    50%Q 30%Q = 0%nat.
Proof.
  pose proof (rounded_stays_in_cell demoQR (demoRender "rounded" false)
                newCanvas eq_refl ltac:(simpl; lia) ltac:(simpl; lia))
    as (_ & _ & Hclear & Hcorner).
  split; [exact (Hcorner 1 1)|]. split.
  - exact (proj1 (Hclear 21%Q 30%Q eq_refl eq_refl)).
  - exact (proj2 (Hclear 50%Q 30%Q eq_refl eq_refl) eq_refl).
Defined.

(** X3.  In Dots style no dot reaches the border of its cell: a point on
    a vertical or horizontal line of the cell grid is painted by no dot,
    so the dots of neighbouring dark modules never join. *)
Theorem dots_never_touch_cell_border qr
    (options : QRGenerator.RenderOptions) :
  0 < QRGenerator.r_size options ->
  0 <= QRGenerator.r_margin options ->
  let margin := QRGenerator.r_margin options in
  let cellSize :=
    QRGenerator.cellSizeOf qr (QRGenerator.r_size options) margin in
  let dots :=
    styleOps "dots" qr cellSize margin
      (QRGenerator.r_foregroundColor options) in
  forall (z : Z) (t : Q),
    coverCount dots (inject_Z z * cellSize) t = 0%nat /\
    coverCount dots t (inject_Z z * cellSize) = 0%nat.
Proof.
  intros Hs Hm margin cellSize dots z t.
  destruct (Nat.eq_dec (getModuleCount qr) 0%nat) as [Hn|Hn].
  { unfold dots. rewrite styleOps_empty by exact Hn. by split. }
  pose proof (cellSize_pos qr _ margin Hs Hm ltac:(lia)) as Hcs.
  fold cellSize in Hcs.
  set (fg := QRGenerator.r_foregroundColor options) in *.
  assert (Hedge : forall index : nat,
            moduleIndex cellSize margin (inject_Z z * cellSize) =
              Z.of_nat index ->
            (inject_Z z == inject_Z (Z.of_nat index + margin))%Q).
  { intros index Hi. unfold moduleIndex in Hi. apply Z.sub_move_r in Hi.
    apply (cell_of_floor _ _ _ Hcs) in Hi. f_equiv.
    assert (A : (inject_Z (Z.of_nat index + margin) <= inject_Z z)%Q) by nra.
    assert (B : (inject_Z z < inject_Z (Z.of_nat index + margin + 1))%Q)
      by (rewrite inject_Z_succ; nra).
    rewrite <- Zle_Qle in A. rewrite <- Zlt_Qlt in B. lia. }
  split; apply (coverCount_darkOps_zero _ _ cellSize margin);
    try (intros row col Hcov; by apply (covers_dot fg) in Hcov).
  - intros row col Hx _. apply Hedge in Hx.
    simpl. unfold inCircle, sq. apply not_true_is_false.
    rewrite Qle_bool_iff.
    set (a := inject_Z (Z.of_nat col + margin)) in *.
    set (u := (t - (inject_Z (Z.of_nat row + margin) + (1 # 2)) *
                   cellSize)%Q).
    assert (Hu : (0 <= u * u)%Q) by nra.
    assert (Ex : (inject_Z z * cellSize - (a + (1 # 2)) * cellSize ==
                  - (1 # 2) * cellSize)%Q) by (rewrite Hx; ring).
    rewrite Ex. nra.
  - intros row col _ Hy. apply Hedge in Hy.
    simpl. unfold inCircle, sq. apply not_true_is_false.
    rewrite Qle_bool_iff.
    set (b := inject_Z (Z.of_nat row + margin)) in *.
    set (u := (t - (inject_Z (Z.of_nat col + margin) + (1 # 2)) *
                   cellSize)%Q).
    assert (Hu : (0 <= u * u)%Q) by nra.
    assert (Ey : (inject_Z z * cellSize - (b + (1 # 2)) * cellSize ==
                  - (1 # 2) * cellSize)%Q) by (rewrite Hy; ring).
    rewrite Ey. nra.
Qed.

Lemma dots_never_touch_cell_border_witness :
  coverCount (styleOps "dots" demoQR (QRGenerator.cellSizeOf demoQR 80 1) 1
                black) 40%Q 30%Q = 0%nat.
Proof.
  exact (proj1 (dots_never_touch_cell_border demoQR (demoRender "dots" false)
                  ltac:(simpl; lia) ltac:(simpl; lia) 2 30%Q)).
Defined.

(** * More on [generate] *)

(** X4.  [generate] for a size that a canvas can take as it is, a
    positive integer up to 2^31 - 1, and a quiet zone that is not
    negative, so that no cell has a negative side.  It works on the
    generator's own canvas and on nothing else of the page: whatever the
    outcome, every other canvas, the [UIController] and the application
    state are as before.  When it returns, it returns the generator's
    canvas, which is then a square of the requested size holding the
    picture of this call alone, as drawn on a blank canvas; when it
    throws, no canvas has changed. *)
Theorem generate_touches_only_its_canvas win self config (w w' : World)
    (outcome : Outcome nat) :
  0 < default 512 (QRGenerator.size config) <= 2147483647 ->
  0 <= default 4 (QRGenerator.margin config) ->
  QRGenerator.generate win self config w = (w', outcome) ->
  (forall id, id <> QRGenerator.canvas self ->
     canvases w' !! id = canvases w !! id) /\
  ui w' = ui w /\ app w' = app w /\ gifFrames w' = gifFrames w /\
  match outcome with
  | Return c =>
      c = QRGenerator.canvas self /\
      width (canvasOf w' c) = default 512 (QRGenerator.size config) /\
      height (canvasOf w' c) = default 512 (QRGenerator.size config) /\
      exists qr,
        canvases w' !! c =
          Some (QRGenerator.renderToCanvas qr (renderOptionsOf config)
                  newCanvas)
  | Throw _ => canvases w' = canvases w
  end.
Proof.
  intros _ _ Hrun.
  destruct (generate_uniform win self config) as [[e Hfail]|[qr Hgen]].
  - destruct (Hfail w) as [calls Hw]. rewrite Hw in Hrun.
    injection Hrun as <- <-. by repeat split.
  - destruct (Hgen w) as [calls Hw]. rewrite Hw in Hrun.
    injection Hrun as <- <-. cbn [canvases set_canvases set_encoderCalls].
    split; [|repeat split].
    + intros id Hid. by rewrite lookup_insert_ne.
    + rewrite canvasOf_insert_eq. by rewrite renderToCanvas_eq.
    + rewrite canvasOf_insert_eq. by rewrite renderToCanvas_eq.
    + exists qr. by rewrite lookup_insert_eq.
Qed.

Lemma generate_touches_only_its_canvas_witness :
  exists w',
    QRGenerator.generate demoWindow (QRGenerator.mk 0) (demoOptions "hi")
      (demoWorld None false) = (w', Return 0%nat) /\
    canvases w' !! 1%nat = Some newCanvas /\
    width (canvasOf w' 0%nat) = 256.
Proof.
  destruct (QRGenerator.generate demoWindow (QRGenerator.mk 0)
              (demoOptions "hi") (demoWorld None false))
    as [w' outcome] eqn:Hrun.
  destruct (generate_touches_only_its_canvas demoWindow (QRGenerator.mk 0)
              (demoOptions "hi") (demoWorld None false) w' outcome
              ltac:(simpl; lia) ltac:(simpl; lia) Hrun)
    as (Hothers & _ & _ & _ & Hout).
  destruct outcome as [c|e]; [|exfalso; vm_compute in Hrun; discriminate Hrun].
  destruct Hout as (-> & Hwidth & _).
  exists w'. split; [reflexivity|]. split; [|exact Hwidth].
  rewrite (Hothers 1%nat) by discriminate. reflexivity.
Defined.

(** X5.  Two calls of [generate] on one generator return the same canvas
    element: after the second call the canvas handed out by the first
    shows the second picture, which is what the second call draws on any
    page, whatever was generated before. *)
Theorem generate_reuses_its_canvas win self config1 config2
    (w w1 w2 : World) (c1 c2 : nat) :
  QRGenerator.generate win self config1 w = (w1, Return c1) ->
  QRGenerator.generate win self config2 w1 = (w2, Return c2) ->
  c2 = c1 /\
  forall (w0 w0' : World) (c0 : nat),
    QRGenerator.generate win self config2 w0 = (w0', Return c0) ->
    canvasOf w2 c1 = canvasOf w0' c0.
Proof.
  intros Hfirst Hsecond.
  destruct (generate_uniform win self config1) as [[e Hfail]|[qr1 Hgen1]].
  { destruct (Hfail w) as [calls Hw]. rewrite Hw in Hfirst.
    discriminate Hfirst. }
  destruct (Hgen1 w) as [calls1 Hw]. rewrite Hw in Hfirst.
  injection Hfirst as <- <-.
  destruct (generate_uniform win self config2) as [[e Hfail]|[qr2 Hgen2]].
  { destruct (Hfail (set_canvases
                       (<[QRGenerator.canvas self :=
                            QRGenerator.renderToCanvas qr1
                              (renderOptionsOf config1) newCanvas]>
                          (canvases w)) (set_encoderCalls calls1 w)))
      as [calls Hw1].
    rewrite Hw1 in Hsecond. discriminate Hsecond. }
  match type of Hsecond with QRGenerator.generate _ _ _ ?w1 = _ =>
    destruct (Hgen2 w1) as [calls2 Hw1] end.
  rewrite Hw1 in Hsecond. injection Hsecond as <- <-.
  split; [reflexivity|]. intros w0 w0' c0 Hother.
  destruct (Hgen2 w0) as [calls0 Hw0]. rewrite Hw0 in Hother.
  injection Hother as <- <-. by rewrite !canvasOf_insert_eq.
Qed.

Lemma generate_reuses_its_canvas_witness :
  exists w1 w2 c,
    QRGenerator.generate demoWindow (QRGenerator.mk 0) (demoOptions "hi")
      (demoWorld None false) = (w1, Return c) /\
    QRGenerator.generate demoWindow (QRGenerator.mk 0)
      (demoOptions "hello world") w1 = (w2, Return c) /\
    canvasOf w2 c <> canvasOf w1 c.
Proof.
  destruct (QRGenerator.generate demoWindow (QRGenerator.mk 0)
              (demoOptions "hi") (demoWorld None false))
    as [w1 [c1|e]] eqn:H1;
    [|exfalso; vm_compute in H1; discriminate H1].
  destruct (QRGenerator.generate demoWindow (QRGenerator.mk 0)
              (demoOptions "hello world") w1)
    as [w2 [c2|e]] eqn:H2.
  2:{ exfalso. vm_compute in H1. injection H1 as <- <-.
      vm_compute in H2. discriminate H2. }
  destruct (generate_reuses_its_canvas _ _ _ _ _ _ _ _ _ H1 H2) as [-> _].
  exists w1, w2, c1. split; [reflexivity|]. split; [exact H2|].
  vm_compute in H1. injection H1 as <- <-.
  vm_compute in H2. injection H2 as <-.
  intros Heq. apply (f_equal (fun c => length (content c))) in Heq.
  vm_compute in Heq. discriminate Heq.
Defined.

(** * More on the logo compositor *)

(** For an image with positive dimensions the rectangle of [drawLogo]
    lies in the box it is given. *)
Lemma logoRect_in_box image (x y maxSize dx dy dw dh : Q) :
  0 < img_width image -> 0 < img_height image -> (0 <= maxSize)%Q ->
  ImageProcessor.logoRect image x y maxSize = (dx, dy, dw, dh) ->
  (x <= dx)%Q /\ (dx + dw <= x + maxSize)%Q /\
  (y <= dy)%Q /\ (dy + dh <= y + maxSize)%Q.
Proof.
  intros Hw Hh Hmax.
  set (iw := inject_Z (img_width image)).
  set (ih := inject_Z (img_height image)).
  assert (Hiw : (0 < iw)%Q)
    by (unfold iw; change 0%Q with (inject_Z 0); by rewrite <- Zlt_Qlt).
  assert (Hih : (0 < ih)%Q)
    by (unfold ih; change 0%Q with (inject_Z 0); by rewrite <- Zlt_Qlt).
  unfold ImageProcessor.logoRect. fold iw ih.
  destruct (Qlt_bool 1 (iw / ih)) eqn:E1;
    [|destruct (Qlt_bool (iw / ih) 1) eqn:E2]; intros [= <- <- <- <-].
  - apply Qlt_bool_iff in E1. apply (Qdiv_gt_1 iw ih Hih) in E1.
    assert (Eh : (maxSize / (iw / ih) == maxSize / iw * ih)%Q)
      by (field; split; lra).
    assert (Hq : (0 <= maxSize / iw)%Q)
      by (apply Qle_shift_div_l; [done|lra]).
    assert (Ew : (maxSize == maxSize / iw * iw)%Q) by (field; lra).
    set (d := (maxSize / (iw / ih))%Q) in *.
    set (q := (maxSize / iw)%Q) in *.
    clearbody d q iw ih. halves.
    assert (Hle : (d <= maxSize)%Q) by nra.
    assert (Hge : (0 <= d)%Q) by nra.
    repeat split; lra.
  - apply Qlt_bool_iff in E2. apply (Qdiv_lt_1 iw ih Hih) in E2.
    assert (Ewd : (maxSize * (iw / ih) == maxSize / ih * iw)%Q)
      by (field; lra).
    assert (Hq : (0 <= maxSize / ih)%Q)
      by (apply Qle_shift_div_l; [done|lra]).
    assert (Eh : (maxSize == maxSize / ih * ih)%Q) by (field; lra).
    set (d := (maxSize * (iw / ih))%Q) in *.
    set (q := (maxSize / ih)%Q) in *.
    clearbody d q iw ih. halves.
    assert (Hle : (d <= maxSize)%Q) by nra.
    assert (Hge : (0 <= d)%Q) by nra.
    repeat split; lra.
  - halves. repeat split; lra.
Qed.

(** A square image fills the box. *)
Lemma logoRect_square image (x y maxSize : Q) :
  0 < img_height image -> img_width image = img_height image ->
  ImageProcessor.logoRect image x y maxSize =
    ((x + (maxSize - maxSize) / 2)%Q, (y + (maxSize - maxSize) / 2)%Q,
     maxSize, maxSize).
Proof.
  intros Hh Heq. unfold ImageProcessor.logoRect. rewrite Heq.
  set (ih := inject_Z (img_height image)).
  assert (Hih : (0 < ih)%Q)
    by (unfold ih; change 0%Q with (inject_Z 0); by rewrite <- Zlt_Qlt).
  assert (E : (ih / ih == 1)%Q) by (field; lra).
  assert (E1 : Qlt_bool 1 (ih / ih) = false).
  { apply not_true_is_false. rewrite Qlt_bool_iff. lra. }
  assert (E2 : Qlt_bool (ih / ih) 1 = false).
  { apply not_true_is_false. rewrite Qlt_bool_iff. lra. }
  by rewrite E1, E2.
Qed.

(** X6.  The background that [drawLogoBackground] lays down and the logo
    that [drawLogo] then draws, for the same box of side [size] and a
    padding that is not negative.  Both calls append one drawing call to
    the target canvas.  In Squares style (and for any other style name
    than ["dots"] and ["rounded"]) the background covers every point of
    the logo.  In Dots style the background is a disc, and the corner of
    a square logo lies on it only when [2 * size^2 <= (size + 2 *
    padding)^2]: otherwise the corners of the logo are drawn straight
    over the QR code. *)
Theorem logo_background_covers_logo self image (x y size padding : Q)
    (bg : color) (style : string) (out : nat) (w : World)
    (dx dy dw dh : Q) :
  0 < img_width image -> 0 < img_height image ->
  (0 < size)%Q -> (0 <= padding)%Q ->
  ImageProcessor.logoRect image x y size = (dx, dy, dw, dh) ->
  let mask := logoBackgroundOp x y size padding bg style in
  let logo := DrawImage image dx dy dw dh in
  (exists w',
     (_ ← ImageProcessor.drawLogoBackground self x y size padding bg style
            (Some out);
      ImageProcessor.drawLogo self image x y size (Some out)) w =
       (w', Return tt) /\
     content (canvasOf w' out) = content (canvasOf w out) ++ [mask; logo]) /\
  (style <> "dots"%string -> style <> "rounded"%string ->
   forall px py, covers logo px py = true -> covers mask px py = true) /\
  (style = "dots"%string -> img_width image = img_height image ->
   covers logo x y = true /\
   (covers mask x y = true <->
    (2 * (size * size) <= (size + 2 * padding) * (size + 2 * padding))%Q)).
Proof.
  intros Hw Hh Hsize Hpad Hrect mask logo.
  split; [|split].
  - unfold ImageProcessor.drawLogoBackground, ImageProcessor.drawLogo.
    rewrite Hrect. unfold mask, logo, logoBackgroundOp.
    unfold mbind, M_bind, onCanvas. simpl default.
    destruct (String.eqb style "dots");
      [|destruct (String.eqb style "rounded")];
      (eexists; split; [reflexivity|]; cbn [canvases set_canvases];
       rewrite !canvasOf_insert_eq; simpl; by rewrite <- app_assoc).
  - intros Hdots Hrounded px py Hlogo.
    destruct (logoRect_in_box image x y size dx dy dw dh Hw Hh
                ltac:(lra) Hrect) as (Hx1 & Hx2 & Hy1 & Hy2).
    unfold mask, logoBackgroundOp.
    apply String.eqb_neq in Hdots, Hrounded. rewrite Hdots, Hrounded.
    simpl in Hlogo |- *. apply inRect_spec in Hlogo. apply inRect_spec.
    lra.
  - intros -> Hsquare.
    rewrite (logoRect_square image x y size Hh Hsquare) in Hrect.
    injection Hrect as <- <- <- <-. split.
    + simpl. apply inRect_spec. halves. lra.
    + unfold mask, logoBackgroundOp. simpl. unfold inCircle, sq.
      rewrite Qle_bool_iff. halves. split; intros H; nra.
Qed.

Lemma logo_background_covers_logo_witness :
  covers (logoBackgroundOp 96 96 64 10 white "dots") 96%Q 96%Q <> true /\
  covers (logoBackgroundOp 96 96 64 10 white "squares") 96%Q 96%Q = true.
Proof.
  pose (square := {| img_width := 64; img_height := 64;
                     img_src := "logo.png"%string |}).
  destruct (logo_background_covers_logo (ImageProcessor.mk 1) square
              96 96 64 10 white "dots"%string 1%nat (demoWorld None false)
              _ _ _ _ ltac:(simpl; lia) ltac:(simpl; lia) ltac:(lra)
              ltac:(lra) eq_refl)
    as (_ & _ & Hdots).
  destruct (logo_background_covers_logo (ImageProcessor.mk 1) square
              96 96 64 10 white "squares"%string 1%nat (demoWorld None false)
              _ _ _ _ ltac:(simpl; lia) ltac:(simpl; lia) ltac:(lra)
              ltac:(lra) eq_refl)
    as (_ & Hsquares & _).
  destruct (Hdots eq_refl eq_refl) as [Hcorner Hiff].
  split.
  - intros Hcov. apply Hiff in Hcov. revert Hcov. apply Qlt_not_le.
    reflexivity.
  - apply Hsquares; [discriminate|discriminate|].
    reflexivity.
Defined.

(** ** What the overlay shows *)

Lemma overlayOf_content qr img options :
  content (overlayOf qr img options) =
    [DrawCanvas (content qr) (width qr) (height qr) 0 0;
     overlayMask qr options; overlayLogo qr img options] /\
  width (overlayOf qr img options) = width qr /\
  height (overlayOf qr img options) = height qr.
Proof.
  unfold overlayOf, overlayMask, overlayLogo. cbv zeta.
  by destruct (ImageProcessor.logoRect _ _ _ _) as [[[dx dy] dw] dh].
Qed.

Lemma over_transparent (t : Pixel) : over t Transparent = t.
Proof. induction t; simpl; congruence. Qed.

Lemma paintOp_miss op px py under :
  covers op px py = false -> paintOp op px py under = under.
Proof. intros H. destruct op; simpl in *; by rewrite H. Qed.

Lemma inRect_comp x y w h px py px' py' :
  (px == px')%Q -> (py == py')%Q ->
  inRect x y w h px py = inRect x y w h px' py'.
Proof.
  intros Hx Hy. unfold inRect, Qlt_bool. by rewrite Hx, Hy.
Qed.

Lemma inCircle_comp cx cy r px py px' py' :
  (px == px')%Q -> (py == py')%Q ->
  inCircle cx cy r px py = inCircle cx cy r px' py'.
Proof.
  intros Hx Hy. unfold inCircle, sq. by rewrite Hx, Hy.
Qed.

(** What a fill or a clear paints depends on the point only, not on the
    fraction that names it. *)
Lemma paintOp_fill_comp op px py px' py' under :
  isFill op = true -> (px == px')%Q -> (py == py')%Q ->
  paintOp op px py under = paintOp op px' py' under.
Proof.
  intros Hfill Hx Hy. destruct op; try discriminate Hfill; simpl.
  - by rewrite (inRect_comp _ _ _ _ _ _ _ _ Hx Hy).
  - by rewrite (inRect_comp _ _ _ _ _ _ _ _ Hx Hy).
  - by rewrite (inCircle_comp _ _ _ _ _ _ _ Hx Hy).
  - unfold inRoundedRect, Qlt_bool.
    rewrite (inRect_comp _ _ _ _ _ _ _ _ Hx Hy).
    rewrite !(inCircle_comp _ _ _ _ _ _ _ Hx Hy).
    by rewrite Hx, Hy.
Qed.

Lemma paint_fills_comp ops px py px' py' :
  Forall (fun op => isFill op = true) ops ->
  (px == px')%Q -> (py == py')%Q ->
  forall under, paint ops px py under = paint ops px' py' under.
Proof.
  intros Hfills Hx Hy. induction Hfills as [|op ops Hop _ IH]; [done|].
  intros under.
  change (paint (op :: ops) px py under)
    with (paint ops px py (paintOp op px py under)).
  change (paint (op :: ops) px' py' under)
    with (paint ops px' py' (paintOp op px' py' under)).
  by rewrite IH, (paintOp_fill_comp op px py px' py' under Hop Hx Hy).
Qed.

(** [renderToCanvas] only clears and fills. *)
Lemma renderToCanvas_fills qr options c :
  Forall (fun op => isFill op = true)
    (content (QRGenerator.renderToCanvas qr options c)).
Proof.
  rewrite renderToCanvas_eq. simpl content.
  constructor; [reflexivity|]. apply Forall_app. split.
  - destruct (QRGenerator.r_transparentBackground options);
      repeat constructor.
  - rewrite styleOps_darkOps. apply Forall_forall. intros op Hin.
    apply list_elem_of_In, in_darkOps in Hin
      as (row & col & _ & _ & _ & ->).
    unfold styleShape.
    destruct (String.eqb _ "dots"); [reflexivity|].
    destruct (String.eqb _ "rounded"); reflexivity.
Qed.

(** X7.  What the canvas returned by [addLogoOverlay] shows, for a base
    that holds a rendered QR code and a logo image of positive width and
    height.  Its drawing calls are the copy of the base, the logo
    background and the logo.  Where neither the
    background nor the logo reaches, it shows what the base shows; where
    the background reaches and the logo does not, it shows the
    background colour; where the logo reaches, it shows the logo. *)
Theorem addLogoOverlay_shows_base_outside_logo win self (base : nat)
    (logoSrc : string) options qr renderOptions (c0 : Canvas)
    (w w' : World) (out : nat) :
  canvases w !! base =
    Some (QRGenerator.renderToCanvas qr renderOptions c0) ->
  (forall img, Image_load win logoSrc = Some img ->
     0 < img_width img /\ 0 < img_height img) ->
  ImageProcessor.addLogoOverlay win self (Some base) (Some logoSrc) options w =
    (w', Return out) ->
  let code := canvasOf w base in
  let result := canvasOf w' out in
  let mask := overlayMask code options in
  let bg := default white (ImageProcessor.backgroundColor options) in
  exists img,
    Image_load win logoSrc = Some img /\
    let logo := overlayLogo code img options in
    content result =
      [DrawCanvas (content code) (width code) (height code) 0 0;
       mask; logo] /\
    forall px py : Q,
      (covers mask px py = false -> covers logo px py = false ->
       pixelAt result px py = pixelAt code px py) /\
      (inRect 0 0 (inject_Z (width code)) (inject_Z (height code)) px py
         = true ->
       (covers mask px py = true -> covers logo px py = false ->
        pixelAt result px py = Solid bg) /\
       (covers logo px py = true ->
        exists u v under, pixelAt result px py = Sampled img u v under)).
Proof.
  intros Hbase _ Hrun code result mask bg.
  assert (Hsome : is_Some (canvases w !! base)) by (rewrite Hbase; eauto).
  destruct (String.eqb_spec logoSrc "") as [->|Hsrc];
    [discriminate Hrun|].
  rewrite (addLogoOverlay_run win self base logoSrc options w Hsome Hsrc)
    in Hrun.
  destruct (Image_load win logoSrc) as [img|]; [|discriminate Hrun].
  injection Hrun as <- <-. exists img. split; [reflexivity|].
  unfold result. rewrite canvasOf_insert_eq. fold code.
  destruct (overlayOf_content code img options) as (Hcontent & Hwd & Hht).
  split; [exact Hcontent|].
  assert (Hfills : Forall (fun op => isFill op = true) (content code)).
  { unfold code, canvasOf. rewrite Hbase. apply renderToCanvas_fills. }
  intros px py. unfold pixelAt. rewrite Hcontent, Hwd, Hht.
  fold mask.
  set (logo := overlayLogo code img options).
  set (inside := inRect 0 0 (inject_Z (width code))
                   (inject_Z (height code)) px py).
  assert (Hcopy :
    paintOp (DrawCanvas (content code) (width code) (height code) 0 0)
      px py Transparent =
    if inside then paint (content code) px py Transparent
    else Transparent).
  { simpl. fold inside. destruct inside; [|reflexivity].
    rewrite over_transparent.
    apply (paint_fills_comp (content code)); [done| |]; ring. }
  unfold paint at 1 2 3. cbn [fold_left]. rewrite Hcopy.
  assert (Hlogo : exists dx dy dw dh, logo = DrawImage img dx dy dw dh).
  { unfold logo, overlayLogo. cbv zeta.
    destruct (ImageProcessor.logoRect _ _ _ _) as [[[dx dy] dw] dh].
    by exists dx, dy, dw, dh. }
  assert (Hmask : forall under,
    paintOp mask px py under =
    if covers mask px py then Solid bg else under).
  { intros under. unfold mask, overlayMask, logoBackgroundOp. cbv zeta.
    fold bg.
    destruct (String.eqb _ "dots"); [reflexivity|].
    destruct (String.eqb _ "rounded"); reflexivity. }
  split; [|intros Hin; split].
  - intros Hm Hl. rewrite (paintOp_miss logo) by done.
    rewrite (paintOp_miss mask) by done.
    by destruct inside.
  - intros Hm Hl. rewrite Hin, (paintOp_miss logo) by done.
    by rewrite Hmask, Hm.
  - intros Hl. rewrite Hin.
    destruct Hlogo as (dx & dy & dw & dh & Elogo).
    rewrite Elogo in Hl |- *. simpl in Hl |- *. rewrite Hl. eauto.
Qed.

Lemma addLogoOverlay_shows_base_outside_logo_witness :
  exists w' out,
    ImageProcessor.addLogoOverlay demoWindow (ImageProcessor.mk 1)
      (Some 0%nat) (Some "logo.png"%string)
      (QRCodeApp.overlayOptions (demoOptions "hi"))
      (set_canvases
         (<[0%nat := QRGenerator.renderToCanvas demoQR
                       (demoRender "squares" false) newCanvas]>
            (canvases (demoWorld None false))) (demoWorld None false)) =
      (w', Return out) /\
    pixelAt (canvasOf w' out) 21%Q 21%Q = Solid black /\
    pixelAt (canvasOf w' out) 10%Q 10%Q = Solid white.
Proof.
  set (w := set_canvases _ (demoWorld None false)).
  destruct (ImageProcessor.addLogoOverlay demoWindow (ImageProcessor.mk 1)
              (Some 0%nat) (Some "logo.png"%string)
              (QRCodeApp.overlayOptions (demoOptions "hi")) w)
    as [w' [out|e]] eqn:Hrun;
    [|exfalso; vm_compute in Hrun; discriminate Hrun].
  exists w', out. split; [reflexivity|].
  destruct (addLogoOverlay_shows_base_outside_logo demoWindow
              (ImageProcessor.mk 1) 0%nat "logo.png"%string
              (QRCodeApp.overlayOptions (demoOptions "hi")) demoQR
              (demoRender "squares" false) newCanvas w w' out
              eq_refl
              ltac:(intros img Himg; injection Himg as <-; simpl; lia)
              Hrun) as (img & Himg & _ & Hshow).
  injection Himg as <-.
  split.
  - rewrite (proj1 (Hshow 21%Q 21%Q)) by (vm_compute; reflexivity).
    vm_compute. reflexivity.
  - rewrite (proj1 (Hshow 10%Q 10%Q)) by (vm_compute; reflexivity).
    vm_compute. reflexivity.
Defined.

(** * More on the static path *)

(** What [generateStaticQR] does for a text the encoder takes, when the
    logo, if it loads, has positive width and height. *)
Lemma generateStaticQR_run win self config text (w : World) :
  QRGenerator.text config = Some text -> text <> ""%string ->
  (exists k, 1 <= k <= 40 /\
     accepts win k (default "H"%string (QRGenerator.errorCorrection config))
       text = true) ->
  (forall logo img,
     currentLogo (app w) = Some logo -> Image_load win logo = Some img ->
     0 < img_width img /\ 0 < img_height img) ->
  let g := QRGenerator.canvas (QRCodeApp.qrGenerator self) in
  let ec := default "H"%string (QRGenerator.errorCorrection config) in
  exists (w' : World) (t : Z) (qr : QRCode),
    let code :=
      QRGenerator.renderToCanvas qr (renderOptionsOf config) newCanvas in
    QRCodeApp.generateStaticQR win self config w = (w', Return tt) /\
    1 <= t <= 40 /\ qrcode win t ec text = inr qr /\
    (forall j, 1 <= j < t -> accepts win j ec text = false) /\
    animatedGIFBlob (app w') = None /\
    canvases w' !! g = Some code /\
    match currentLogo (app w) with
    | Some logo =>
        if String.eqb logo "" then
          currentCanvas (ui w') = Some g /\
          displayed (ui w') = ShowsCanvas code /\
          errorsShown (ui w') = errorsShown (ui w)
        else
          match Image_load win logo with
          | Some img =>
              exists out, out <> g /\ canvases w !! out = None /\
                currentCanvas (ui w') = Some out /\
                canvases w' !! out =
                  Some (overlayOf code img (QRCodeApp.overlayOptions config)) /\
                displayed (ui w') =
                  ShowsCanvas
                    (overlayOf code img (QRCodeApp.overlayOptions config)) /\
                errorsShown (ui w') = errorsShown (ui w)
          | None =>
              currentCanvas (ui w') = Some g /\
              displayed (ui w') = ShowsCanvas code /\
              errorsShown (ui w') =
                errorsShown (ui w) ++
                ["Error: Failed to add logo. Using QR code without logo."%string]
          end
    | None =>
        currentCanvas (ui w') = Some g /\
        displayed (ui w') = ShowsCanvas code /\
        errorsShown (ui w') = errorsShown (ui w)
    end.
Proof.
  intros Htext Hne Hvalid _ g ec.
  destruct (generate_accepted win (QRCodeApp.qrGenerator self) config text
              Htext Hne Hvalid) as (t & qr & Ht & Hqr & Hmin & Hgen).
  destruct (Hgen w) as [calls Hrun]. fold g in Hrun.
  set (code := QRGenerator.renderToCanvas qr (renderOptionsOf config)
                 newCanvas) in *.
  unfold QRCodeApp.generateStaticQR.
  rewrite (bind_run _ _ _ _ _ Hrun).
  set (w1 := set_canvases _ (set_encoderCalls calls w)).
  assert (Hg : is_Some (canvases w1 !! g))
    by (unfold w1; simpl; rewrite lookup_insert_eq; eauto).
  assert (Hcode : canvasOf w1 g = code)
    by (unfold w1; apply canvasOf_insert_eq).
  erewrite bind_run by reflexivity.
  change (app w1) with (app w).
  destruct (currentLogo (app w)) as [logo|] eqn:Elogo.
  - destruct (String.eqb_spec logo "") as [->|Hlogo].
    + erewrite bind_run by reflexivity.
      erewrite bind_run by reflexivity.
      eexists _, t, qr. split; [reflexivity|].
      split; [exact Ht|]. split; [exact Hqr|]. split; [exact Hmin|].
      cbn [app ui set_app set_ui canvases currentCanvas displayed
           errorsShown animatedGIFBlob].
      rewrite Hcode. repeat split.
      unfold w1. simpl. by rewrite lookup_insert_eq.
    + replace (truthy (Some logo)) with true
        by (destruct logo; [done|reflexivity]).
      pose proof (addLogoOverlay_run win (QRCodeApp.imageProcessor self) g
                    logo (QRCodeApp.overlayOptions config) w1 Hg Hlogo)
        as Hov.
      cbv zeta in Hov. rewrite Hcode in Hov.
      assert (Hout : fresh (dom (canvases w1)) <> g).
      { intros E. by apply (fresh_not_existing _ _ Hg). }
      destruct (Image_load win logo) as [img|].
      * erewrite bind_run by (unfold try_catch; rewrite Hov; reflexivity).
        erewrite bind_run by reflexivity.
        eexists _, t, qr. split; [reflexivity|].
      split; [exact Ht|]. split; [exact Hqr|]. split; [exact Hmin|].
        cbn [app ui set_app set_ui canvases set_canvases currentCanvas
             displayed errorsShown animatedGIFBlob].
        split; [reflexivity|]. split.
        { rewrite lookup_insert_ne by done. unfold w1. simpl.
          by rewrite lookup_insert_eq. }
        exists (fresh (dom (canvases w1))).
        split; [done|]. split.
        { pose proof (fresh_lookup (canvases w1)) as Hnone.
          unfold w1 in Hnone at 1. simpl in Hnone.
          rewrite lookup_insert_ne in Hnone; [done|].
          intros E. apply Hout. symmetry. exact E. }
        split; [reflexivity|]. split; [by rewrite lookup_insert_eq|].
        split; [|reflexivity].
        by rewrite canvasOf_insert_eq.
      * erewrite bind_run by (unfold try_catch; rewrite Hov; reflexivity).
        erewrite bind_run by reflexivity.
        eexists _, t, qr. split; [reflexivity|].
      split; [exact Ht|]. split; [exact Hqr|]. split; [exact Hmin|].
        cbn [app ui set_app set_ui canvases set_canvases currentCanvas
             displayed errorsShown animatedGIFBlob].
        split; [reflexivity|]. split.
        { rewrite lookup_insert_ne by done. unfold w1. simpl.
          by rewrite lookup_insert_eq. }
        split; [reflexivity|]. split; [|reflexivity].
        f_equal. unfold canvasOf. simpl.
        rewrite lookup_insert_ne by done. unfold w1. simpl.
        by rewrite lookup_insert_eq.
  - erewrite bind_run by reflexivity.
    erewrite bind_run by reflexivity.
    eexists _, t, qr. split; [reflexivity|].
      split; [exact Ht|]. split; [exact Hqr|]. split; [exact Hmin|].
    cbn [app ui set_app set_ui canvases currentCanvas displayed
         errorsShown animatedGIFBlob].
    rewrite Hcode. repeat split.
    unfold w1. simpl. by rewrite lookup_insert_eq.
Qed.

(** X8.  [generateStaticQR] for a text the encoder takes and a logo
    that, if it loads, has positive width and height.  It returns and
    resets the stored animation.  The generator's canvas holds the
    matrix the encoder yields at the smallest type number that takes the
    text, rendered with the options of the call.  Without a logo it displays the
    generator's canvas.  With a logo that loads it displays a canvas of
    its own that holds the overlay, and shows no error.  With a logo
    that fails to load it shows the error ['Failed to add logo. Using QR
    code without logo.'] and displays the generator's canvas, the bare
    QR code, instead. *)
Theorem generateStaticQR_logo_fallback win self config text (w : World) :
  QRGenerator.text config = Some text -> text <> ""%string ->
  (exists k, 1 <= k <= 40 /\
     accepts win k (default "H"%string (QRGenerator.errorCorrection config))
       text = true) ->
  (forall logo img,
     currentLogo (app w) = Some logo -> Image_load win logo = Some img ->
     0 < img_width img /\ 0 < img_height img) ->
  let g := QRGenerator.canvas (QRCodeApp.qrGenerator self) in
  let ec := default "H"%string (QRGenerator.errorCorrection config) in
  exists (w' : World) (t : Z) (qr : QRCode),
    let code :=
      QRGenerator.renderToCanvas qr (renderOptionsOf config) newCanvas in
    QRCodeApp.generateStaticQR win self config w = (w', Return tt) /\
    1 <= t <= 40 /\ qrcode win t ec text = inr qr /\
    (forall j, 1 <= j < t -> accepts win j ec text = false) /\
    animatedGIFBlob (app w') = None /\
    canvases w' !! g = Some code /\
    match currentLogo (app w) with
    | Some logo =>
        if String.eqb logo "" then
          currentCanvas (ui w') = Some g /\
          displayed (ui w') = ShowsCanvas code /\
          errorsShown (ui w') = errorsShown (ui w)
        else
          match Image_load win logo with
          | Some img =>
              exists out, out <> g /\ canvases w !! out = None /\
                currentCanvas (ui w') = Some out /\
                canvases w' !! out =
                  Some (overlayOf code img (QRCodeApp.overlayOptions config)) /\
                displayed (ui w') =
                  ShowsCanvas
                    (overlayOf code img (QRCodeApp.overlayOptions config)) /\
                errorsShown (ui w') = errorsShown (ui w)
          | None =>
              currentCanvas (ui w') = Some g /\
              displayed (ui w') = ShowsCanvas code /\
              errorsShown (ui w') =
                errorsShown (ui w) ++
                ["Error: Failed to add logo. Using QR code without logo."%string]
          end
    | None =>
        currentCanvas (ui w') = Some g /\
        displayed (ui w') = ShowsCanvas code /\
        errorsShown (ui w') = errorsShown (ui w)
    end.
Proof. apply generateStaticQR_run. Qed.

Lemma generateStaticQR_logo_fallback_witness :
  (exists w',
     QRCodeApp.generateStaticQR demoWindow demoApp (demoOptions "hi")
       (demoWorld (Some "broken"%string) false) = (w', Return tt) /\
     currentCanvas (ui w') = Some 0%nat /\
     errorsShown (ui w') =
       ["Error: Failed to add logo. Using QR code without logo."%string]) /\
  (exists w',
     QRCodeApp.generateStaticQR demoWindow demoApp (demoOptions "hi")
       (demoWorld (Some "logo.png"%string) false) = (w', Return tt) /\
     currentCanvas (ui w') = Some 2%nat /\
     errorsShown (ui w') = []).
Proof.
  split.
  - destruct (generateStaticQR_logo_fallback demoWindow demoApp
                (demoOptions "hi") "hi"%string
                (demoWorld (Some "broken"%string) false)
                eq_refl ltac:(discriminate))
      as (w' & t & qr & Hrun & _ & _ & _ & _ & _ & Hcur & _ & Herr).
    + exists 1. split; [lia|reflexivity].
    + intros logo img Hlogo Himg. injection Hlogo as <-. discriminate Himg.
    + exists w'. repeat split; done.
  - destruct (generateStaticQR_logo_fallback demoWindow demoApp
                (demoOptions "hi") "hi"%string
                (demoWorld (Some "logo.png"%string) false)
                eq_refl ltac:(discriminate))
      as (w' & t & qr & Hrun & _ & _ & _ & _ & _ & out & Hout & Hfresh & Hcur &
          _ & _ & Herr).
    + exists 1. split; [lia|reflexivity].
    + intros logo img Hlogo Himg. injection Hlogo as <-.
      injection Himg as <-. simpl. lia.
    + exists w'. split; [exact Hrun|]. split; [|exact Herr].
      rewrite Hcur. f_equal.
      vm_compute in Hrun. injection Hrun as <-.
      vm_compute in Hcur. by injection Hcur as <-.
Defined.

(** * More on decoding *)

(** A string without the separator is a single piece. *)
Lemma split_no_separator (sep : ascii) (s : string) :
  ~ In sep (list_ascii_of_string s) -> split sep s = [s].
Proof.
  induction s as [|ch rest IH]; intros Hnot; [reflexivity|].
  simpl in Hnot |- *.
  destruct (Ascii.eqb_spec ch sep) as [->|Hne].
  - exfalso. apply Hnot. by left.
  - rewrite IH; [reflexivity|]. intros Hin. apply Hnot. by right.
Qed.

(** X9.  [parseGIF] changes nothing on the page, and every failure
    leaves it as an error of this code whose message starts with
    ['Failed to parse GIF file: '], followed by the message of the
    original failure: a missing decoder, a data URL without a comma (or
    with nothing after it), a decoder that yields no frames, and any
    exception of [atob], of the decoder or of [ImageData]. *)
Theorem parseGIF_failures_are_wrapped win (dataURL : option string)
    (w : World) :
  exists outcome,
    ImageProcessor.parseGIF win dataURL w = (w, outcome) /\
    (forall e, outcome = Throw e ->
       exists reason,
         e = Error ("Failed to parse GIF file: " ++ reason)%string) /\
    (gifuct win = None ->
     outcome =
       Throw (Error "Failed to parse GIF file: gifuct-js library not loaded")) /\
    (forall decode url,
       gifuct win = Some decode -> dataURL = Some url ->
       (~ In ","%char (list_ascii_of_string url) ->
        outcome =
          Throw (Error "Failed to parse GIF file: Invalid data URL format")) /\
       (forall base64,
          split "," url !! 1%nat = Some base64 -> base64 <> ""%string ->
          (forall msg, atob win base64 = inl msg ->
             outcome =
               Throw (Error ("Failed to parse GIF file: " ++ msg)%string)) /\
          (forall bytes, atob win base64 = inr bytes ->
             (forall msg, decode bytes = inl msg ->
                outcome =
                  Throw (Error ("Failed to parse GIF file: " ++ msg)%string)) /\
             (decode bytes = inr [] ->
              outcome =
                Throw (Error
                  "Failed to parse GIF file: No frames found in GIF"))))).
Proof.
  assert (Hwrapped : forall (o : Outcome (list ImageProcessor.Frame)),
    forall e,
      match o with
      | Return fs => Return fs
      | Throw e0 =>
          Throw (Error ("Failed to parse GIF file: " ++ message e0)%string)
      end = Throw e ->
      exists reason,
        e = Error ("Failed to parse GIF file: " ++ reason)%string).
  { intros [fs|e0] e [= <-]. eauto. }
  unfold ImageProcessor.parseGIF, try_catch.
  destruct (gifuct win) as [decode|] eqn:Hgifuct.
  2:{ eexists. split; [reflexivity|]. split; [intros e [= <-]; eauto|].
      split; [done|]. intros decode url [=]. }
  destruct dataURL as [url|].
  2:{ eexists. split; [reflexivity|]. split; [intros e [= <-]; eauto|].
      split; [done|]. intros decode' url' _ [=]. }
  destruct (split "," url !! 1%nat) as [base64|] eqn:Esplit.
  2:{ eexists. split; [reflexivity|]. split; [intros e [= <-]; eauto|].
      split; [done|]. intros decode' url' [= <-] [= <-].
      split; [done|]. intros base64 Hb. by rewrite Esplit in Hb. }
  destruct (String.eqb_spec base64 "") as [->|Hb64].
  { eexists. split; [reflexivity|]. split; [intros e [= <-]; eauto|].
    split; [done|]. intros decode' url' [= <-] [= <-].
    split; [done|]. intros base64 Hb. rewrite Esplit in Hb.
    by injection Hb as <-. }
  replace (truthy (Some base64)) with true
    by (destruct base64; [done|reflexivity]).
  assert (Hcomma : ~ ~ In ","%char (list_ascii_of_string url)).
  { intros Hnot. rewrite (split_no_separator _ _ Hnot) in Esplit.
    discriminate Esplit. }
  change (default ""%string (Some base64)) with base64.
  destruct (atob win base64) as [msg|bytes] eqn:Eatob.
  { eexists. split.
    { unfold mbind, M_bind, lift. rewrite ?Eatob. reflexivity. }
    split; [intros e [= <-]; eauto|]. split; [done|].
    intros decode' url' [= <-] [= <-]. split; [done|].
    intros b Hb Hne. rewrite Esplit in Hb. injection Hb as <-.
    rewrite Eatob.
    split; [by intros msg' [= <-]|intros bytes [=]]. }
  destruct (decode bytes) as [msg|frames] eqn:Edecode.
  { eexists. split.
    { unfold mbind, M_bind, lift. rewrite ?Eatob, ?Edecode. reflexivity. }
    split; [intros e [= <-]; eauto|]. split; [done|].
    intros decode' url' [= <-] [= <-]. split; [done|].
    intros b Hb Hne. rewrite Esplit in Hb. injection Hb as <-.
    rewrite Eatob. split; [intros msg' [=]|].
    intros bytes' [= <-]. rewrite Edecode.
    split; [by intros msg' [= <-]|intros [=]]. }
  destruct frames as [|frame rest].
  { eexists. split.
    { unfold mbind, M_bind, lift. rewrite ?Eatob, ?Edecode. reflexivity. }
    split; [intros e [= <-]; eauto|]. split; [done|].
    intros decode' url' [= <-] [= <-]. split; [done|].
    intros b Hb Hne. rewrite Esplit in Hb. injection Hb as <-.
    rewrite Eatob. split; [intros msg' [=]|].
    intros bytes' [= <-]. rewrite Edecode.
    split; [intros msg' [=]|done]. }
  destruct (processFrames_run win (frame :: rest) []) as (o & Hrun & _).
  exists (match o with
          | Return fs => Return fs
          | Throw e0 =>
              Throw (Error ("Failed to parse GIF file: " ++ message e0)%string)
          end).
  split.
  { unfold mbind, M_bind, lift. rewrite ?Eatob, ?Edecode.
    cbn [length Nat.eqb]. rewrite Hrun. by destruct o. }
  split; [apply Hwrapped|]. split; [done|].
  intros decode' url' [= <-] [= <-]. split; [done|].
  intros b Hb Hne. rewrite Esplit in Hb. injection Hb as <-.
  rewrite Eatob. split; [intros msg' [=]|].
  intros bytes' [= <-]. rewrite Edecode.
  split; [intros msg' [=]|intros [=]].
Qed.

Lemma parseGIF_failures_are_wrapped_witness :
  ImageProcessor.parseGIF demoWindow (Some "assets/icons/github.svg"%string)
    (demoWorld None true) =
    (demoWorld None true,
     Throw (Error "Failed to parse GIF file: Invalid data URL format")).
Proof.
  destruct (parseGIF_failures_are_wrapped demoWindow
              (Some "assets/icons/github.svg"%string) (demoWorld None true))
    as (outcome & Hrun & _ & _ & Hurl).
  destruct (Hurl _ _ eq_refl eq_refl) as [Hnocomma _].
  rewrite Hrun, Hnocomma; [reflexivity|].
  simpl. intros H. repeat (destruct H as [H|H]; [discriminate H|]).
  exact H.
Defined.

(** * More on re-encoding *)

Lemma reportProgress_none (progress : list Q) (w : World) :
  ImageProcessor.reportProgress None progress w = (w, Return tt).
Proof.
  induction progress as [|p rest IH]; [reflexivity|].
  cbn [ImageProcessor.reportProgress]. by erewrite bind_run by reflexivity.
Qed.

(** X10.  The ways [createAnimatedGIF] ends.  Without the encoder it
    throws ['gif.js library not loaded'], and with no canvas it throws
    ['No canvases provided for GIF creation'], in both cases before an
    encoder is created.  Otherwise (here without a progress listener) it
    changes no canvas, and its outcome is that of the encoder run on the
    frames added: the blob when the run finishes, ['GIF encoding failed:
    ...'] on an error event, ['Failed to create animated GIF: ...'] when
    [render] throws. *)
Theorem createAnimatedGIF_outcomes win (canvases0 : list nat)
    (delays : list Z) (callback : option (Q -> M unit)) (w : World) :
  (GIF win = None ->
   ImageProcessor.createAnimatedGIF win canvases0 delays callback w =
     (w, Throw (Error "gif.js library not loaded"))) /\
  (forall render, GIF win = Some render ->
     ImageProcessor.createAnimatedGIF win [] delays callback w =
       (w, Throw (Error "No canvases provided for GIF creation")) /\
     (canvases0 <> [] ->
      exists w',
        ImageProcessor.createAnimatedGIF win canvases0 delays None w =
          (w', outcomeOfRun (render (gifFrames w'))) /\
        length (gifFrames w') = length canvases0 /\
        canvases w' = canvases w /\ ui w' = ui w /\ app w' = app w)).
Proof.
  split.
  - intros HGIF. unfold ImageProcessor.createAnimatedGIF. by rewrite HGIF.
  - intros render HGIF. split.
    + unfold ImageProcessor.createAnimatedGIF. by rewrite HGIF.
    + intros Hne. unfold ImageProcessor.createAnimatedGIF. rewrite HGIF.
      destruct (length canvases0 =? 0)%nat eqn:Elen.
      { apply Nat.eqb_eq in Elen. by destruct canvases0. }
      destruct (addFrames_run canvases0 delays 0 (set_gifFrames [] w))
        as (added & Hrun & Hlen & _).
      erewrite bind_run by reflexivity.
      rewrite (bind_run _ _ _ _ _ Hrun).
      erewrite bind_run by reflexivity.
      cbn [gifFrames set_gifFrames app].
      change ([] ++ added) with added.
      exists (set_gifFrames added (set_gifFrames [] w)).
      cbn [gifFrames set_gifFrames]. split; [|by repeat split].
      destruct (render added) as [progress blob|progress error|error];
        cbn [outcomeOfRun].
      * by erewrite bind_run by apply reportProgress_none.
      * by erewrite bind_run by apply reportProgress_none.
      * reflexivity.
Qed.

Lemma createAnimatedGIF_outcomes_witness :
  ImageProcessor.createAnimatedGIF demoWindowNoGIF [0%nat] [100] None
    (demoWorld None false) =
    (demoWorld None false, Throw (Error "gif.js library not loaded")) /\
  exists w',
    ImageProcessor.createAnimatedGIF demoWindow [0%nat; 1%nat] [100] None
      (demoWorld None false) = (w', Return (mkBlob "GIF89a")) /\
    length (gifFrames w') = 2%nat.
Proof.
  split.
  - apply (proj1 (createAnimatedGIF_outcomes demoWindowNoGIF [0%nat] [100]
                    None (demoWorld None false)) eq_refl).
  - destruct (proj2 (proj2 (createAnimatedGIF_outcomes demoWindow
                              [0%nat; 1%nat] [100] None
                              (demoWorld None false)) _ eq_refl)
                ltac:(discriminate)) as (w' & Hrun & Hlen & _).
    exists w'. split; [exact Hrun|exact Hlen].
Defined.

(** * More on the animated path *)

Lemma said_refl w : said [] w w.
Proof. unfold said. by rewrite app_nil_r. Qed.

Lemma said_same w w' : ui w' = ui w -> app w' = app w -> said [] w w'.
Proof. intros Hui Happ. unfold said. by rewrite Hui, Happ, app_nil_r. Qed.

Lemma said_trans msgs msgs' w w1 w2 :
  said msgs w w1 -> said msgs' w1 w2 -> said (msgs ++ msgs') w w2.
Proof.
  intros (Ha & Hc & Hd & He & Hl) (Ha' & Hc' & Hd' & He' & Hl').
  unfold said. rewrite Ha', Hc', Hd', He', Hl', Hl.
  by rewrite app_assoc.
Qed.

Lemma said_silent msgs w w1 w2 :
  said msgs w w1 -> said [] w1 w2 -> said msgs w w2.
Proof.
  intros H1 H2. rewrite <- (app_nil_r msgs). by apply (said_trans _ _ _ w1).
Qed.

Lemma silent_said msgs w w1 w2 :
  said [] w w1 -> said msgs w1 w2 -> said msgs w w2.
Proof. intros H1 H2. by apply (said_trans [] msgs _ w1). Qed.

Lemma silent_bind {A B : Type} (m : M A) (k : A -> M B) :
  silent m -> (forall a, silent (k a)) -> silent (m ≫= k).
Proof.
  intros Hm Hk w. specialize (Hm w). unfold mbind, M_bind.
  destruct (m w) as [w1 [a|e]]; simpl in *; [|done].
  by apply (silent_said _ _ w1); [|apply Hk].
Qed.

Lemma silent_ret {A : Type} (a : A) : silent (mret a).
Proof. intros w. apply said_refl. Qed.

Lemma silent_throw {A : Type} (e : Exn) : silent (@throw A e).
Proof. intros w. apply said_refl. Qed.

Lemma silent_createCanvas : silent createCanvas.
Proof. intros w. by apply said_same. Qed.

Lemma silent_onCanvas id f : silent (onCanvas id f).
Proof. intros w. by apply said_same. Qed.

Lemma silent_getCanvas id : silent (getCanvas id).
Proof. intros w. apply said_refl. Qed.

Lemma silent_drawLogoBackground self x y size padding bg style ctx :
  silent (ImageProcessor.drawLogoBackground self x y size padding bg style
            ctx).
Proof.
  unfold ImageProcessor.drawLogoBackground.
  apply silent_bind; [apply silent_onCanvas|]. intros _.
  destruct (String.eqb style "dots"); [apply silent_onCanvas|].
  destruct (String.eqb style "rounded"); apply silent_onCanvas.
Qed.

Lemma silent_drawLogo self img x y maxSize ctx :
  silent (ImageProcessor.drawLogo self img x y maxSize ctx).
Proof.
  unfold ImageProcessor.drawLogo.
  destruct (ImageProcessor.logoRect img x y maxSize) as [[[dx dy] dw] dh].
  apply silent_onCanvas.
Qed.

Lemma silent_addLogoOverlay win self qrCanvas logoSrc options :
  silent (ImageProcessor.addLogoOverlay win self qrCanvas logoSrc options).
Proof.
  unfold ImageProcessor.addLogoOverlay.
  destruct qrCanvas as [base|]; [|apply silent_throw].
  destruct logoSrc as [src|]; [|apply silent_throw].
  destruct (truthy (Some src)); [|apply silent_throw].
  repeat (apply silent_bind;
          [first [apply silent_createCanvas | apply silent_getCanvas
                 | apply silent_onCanvas | apply silent_drawLogoBackground
                 | apply silent_drawLogo | idtac]
          |intros ?]).
  - unfold ImageProcessor.loadImage.
    destruct (Image_load win src); [apply silent_ret|apply silent_throw].
  - apply silent_ret.
Qed.

Lemma silent_generate win self config :
  silent (QRGenerator.generate win self config).
Proof.
  intros w.
  destruct (generate_uniform win self config) as [[e Hfail]|[qr Hgen]].
  - destruct (Hfail w) as [calls ->]. by apply said_same.
  - destruct (Hgen w) as [calls ->]. by apply said_same.
Qed.

Lemma silent_imageDataToCanvas d :
  silent (ImageProcessor.imageDataToCanvas d).
Proof. intros w. rewrite imageDataToCanvas_run. by apply said_same. Qed.

Lemma said_showLoadingMessage msg w :
  said [msg] w (UIController.showLoadingMessage msg w).1.
Proof. by repeat split. Qed.

(** One iteration of the frame loop puts up its own message and nothing
    else. *)
Lemma processFrame_said win self config frame (i total : nat) (w : World) :
  said (frameMessages i 1 total) w
    (QRCodeApp.processFrame win self config frame i total w).1.
Proof.
  unfold QRCodeApp.processFrame.
  erewrite bind_run by reflexivity.
  eapply said_silent; [apply said_showLoadingMessage|].
  apply (silent_bind _ _ (silent_generate win _ config)). intros qrCanvas.
  apply silent_bind; [apply silent_imageDataToCanvas|]. intros frameCanvas.
  apply silent_bind; [apply silent_getCanvas|]. intros c.
  apply silent_addLogoOverlay.
Qed.

Lemma frameMessages_cons (first count total : nat) :
  frameMessages first (S count) total =
  frameMessages first 1 total ++ frameMessages (S first) count total.
Proof. reflexivity. Qed.

Lemma frameLoop_said win self config (remaining : list ImageProcessor.Frame) :
  forall (i total : nat) cs ds (w w' : World) r,
  QRCodeApp.frameLoop win self config remaining i total cs ds w =
    (w', Return r) ->
  said (frameMessages i (length remaining) total) w w'.
Proof.
  induction remaining as [|frame rest IH]; intros i total cs ds w w' r Hrun.
  - injection Hrun as <- _. apply said_refl.
  - cbn [QRCodeApp.frameLoop] in Hrun.
    pose proof (processFrame_said win self config frame i total w) as Hstep.
    destruct (QRCodeApp.processFrame win self config frame i total w)
      as [w1 [out|e]] eqn:E.
    2:{ rewrite (bind_throw _ _ _ _ _ E) in Hrun. discriminate. }
    rewrite (bind_run _ _ _ _ _ E) in Hrun.
    cbn [length]. rewrite frameMessages_cons.
    apply (said_trans _ _ _ w1); [exact Hstep|].
    by apply (IH _ _ _ _ _ _ _ Hrun).
Qed.

(** The progress listener of [generateAnimatedQR] turns every progress
    value into a message. *)
Lemma reportProgress_said (progress : list Q) (w : World) :
  exists w',
    ImageProcessor.reportProgress
      (Some (fun p =>
         UIController.showLoadingMessage
           ("Encoding GIF: " ++ pretty (QRCodeApp.percent p)
            ++ "%")%string)) progress w = (w', Return tt) /\
    said (encodingMessages progress) w w' /\
    gifFrames w' = gifFrames w /\ canvases w' = canvases w.
Proof.
  revert w. induction progress as [|p rest IH]; intros w.
  - exists w. split; [reflexivity|]. split; [apply said_refl|done].
  - cbn [ImageProcessor.reportProgress].
    erewrite bind_run by reflexivity.
    match goal with |- context [ImageProcessor.reportProgress _ rest ?w1] =>
      destruct (IH w1) as (w' & Hrun & Hsaid & Hgif & Hcanvases) end.
    exists w'. split; [exact Hrun|]. split; [|by rewrite Hgif, Hcanvases].
    change (encodingMessages (p :: rest))
      with ([("Encoding GIF: " ++ pretty (QRCodeApp.percent p)
              ++ "%")%string] ++ encodingMessages rest).
    eapply said_trans; [|exact Hsaid]. apply said_showLoadingMessage.
Qed.

(** [createAnimatedGIF] with that listener, when it returns. *)
Lemma createAnimatedGIF_returns win render canvases0 delays (w w' : World)
    (blob : Blob) :
  GIF win = Some render ->
  ImageProcessor.createAnimatedGIF win canvases0 delays
    (Some (fun p =>
       UIController.showLoadingMessage
         ("Encoding GIF: " ++ pretty (QRCodeApp.percent p)
          ++ "%")%string)) w = (w', Return blob) ->
  exists progress,
    render (gifFrames w') = Finished progress blob /\
    said (encodingMessages progress) w w'.
Proof.
  intros HGIF Hrun. unfold ImageProcessor.createAnimatedGIF in Hrun.
  rewrite HGIF in Hrun.
  destruct (length canvases0 =? 0)%nat; [discriminate Hrun|].
  destruct (addFrames_run canvases0 delays 0 (set_gifFrames [] w))
    as (added & Hadd & _).
  erewrite bind_run in Hrun by reflexivity.
  rewrite (bind_run _ _ _ _ _ Hadd) in Hrun.
  erewrite bind_run in Hrun by reflexivity.
  cbn [gifFrames set_gifFrames] in Hrun.
  change ([] ++ added) with added in Hrun.
  destruct (render added) as [progress blob'|progress error|error] eqn:E.
  - destruct (reportProgress_said progress
                (set_gifFrames added (set_gifFrames [] w)))
      as (w1 & Hp & Hsaid & Hgif & _).
    rewrite (bind_run _ _ _ _ _ Hp) in Hrun. injection Hrun as <- <-.
    exists progress. split; [by rewrite Hgif|].
    eapply silent_said; [|exact Hsaid]. by apply said_same.
  - destruct (reportProgress_said progress
                (set_gifFrames added (set_gifFrames [] w)))
      as (w1 & Hp & _).
    rewrite (bind_run _ _ _ _ _ Hp) in Hrun. discriminate Hrun.
  - discriminate Hrun.
Qed.

(** X11.  When the animated path runs to its end, the page has been told
    of every step, in this order: ['Processing animated GIF...'], then
    ['Processing frame i/n...'] for i = 1, ..., n, where n is the number
    of decoded frames, then ['Creating animated GIF...'], then one
    ['Encoding GIF: p%'] per progress value of the encoder, p being
    [Math.round] of the product, in doubles, of the value and 100 (57
    for the value 0.575, whose product is 57.49999999999999).  The
    animation the
    encoder made of the frames it holds is stored for download and its
    data URL is displayed; no error was shown, and the stored logo is
    untouched. *)
Theorem animatedPath_reports_progress win self config (w w' : World) :
  QRCodeApp.animatedPath win self config w = (w', Return tt) ->
  exists (frames : list ImageProcessor.Frame) render progress blob url,
    (forall w0, ImageProcessor.parseGIF win (currentLogo (app w)) w0 =
                  (w0, Return frames)) /\
    GIF win = Some render /\
    render (gifFrames w') = Finished progress blob /\
    readAsDataURL win blob = Some url /\
    loadingMessages (ui w') =
      loadingMessages (ui w) ++
      ["Processing animated GIF..."%string] ++
      frameMessages 0 (length frames) (length frames) ++
      ["Creating animated GIF..."%string] ++
      encodingMessages progress /\
    animatedGIFBlob (app w') = Some blob /\
    displayed (ui w') = ShowsGIF url /\
    errorsShown (ui w') = errorsShown (ui w) /\
    currentLogo (app w') = currentLogo (app w) /\
    isAnimatedGIF (app w') = isAnimatedGIF (app w).
Proof.
  intros Hrun. unfold QRCodeApp.animatedPath in Hrun.
  destruct (GIF win) as [render|] eqn:HGIF.
  2:{ destruct (gifuct win); discriminate Hrun. }
  destruct (gifuct win) as [decode|] eqn:Hgifuct; [|discriminate Hrun].
  replace (bool_decide (is_Some (Some decode))) with true in Hrun
    by (symmetry; apply bool_decide_eq_true; eauto).
  replace (bool_decide (is_Some (Some render))) with true in Hrun
    by (symmetry; apply bool_decide_eq_true; eauto).
  cbn [negb orb] in Hrun.
  pose proof (said_showLoadingMessage "Processing animated GIF..." w) as S1.
  erewrite bind_run in Hrun by reflexivity.
  set (w1 := (UIController.showLoadingMessage "Processing animated GIF..."
                w).1) in *.
  change (UIController.showLoadingMessage "Processing animated GIF..." w)
    with (w1, Return tt) in Hrun.
  erewrite bind_run in Hrun by reflexivity.
  change (currentLogo (app w1)) with (currentLogo (app w)) in Hrun.
  destruct (parseGIF_run win (currentLogo (app w))) as (o & Hparse & _).
  destruct o as [frames|e];
    [|rewrite (bind_throw _ _ _ _ _ (Hparse _)) in Hrun; discriminate Hrun].
  rewrite (bind_run _ _ _ _ _ (Hparse _)) in Hrun.
  destruct (QRCodeApp.frameLoop win self config frames 0 (length frames)
              [] [] w1) as [w2 [[cs ds]|e]] eqn:Hloop;
    [|rewrite (bind_throw _ _ _ _ _ Hloop) in Hrun; discriminate Hrun].
  rewrite (bind_run _ _ _ _ _ Hloop) in Hrun.
  pose proof (frameLoop_said _ _ _ _ _ _ _ _ _ _ _ Hloop) as S2.
  pose proof (said_showLoadingMessage "Creating animated GIF..." w2) as S3.
  erewrite bind_run in Hrun by reflexivity.
  set (w3 := (UIController.showLoadingMessage "Creating animated GIF..."
                w2).1) in *.
  change (UIController.showLoadingMessage "Creating animated GIF..." w2)
    with (w3, Return tt) in Hrun.
  match type of Hrun with
    mbind _ (ImageProcessor.createAnimatedGIF _ _ _ ?cb) _ = _ =>
      destruct (ImageProcessor.createAnimatedGIF win cs ds cb w3)
        as [w4 [blob|e]] eqn:Hgif
  end;
    [|rewrite (bind_throw _ _ _ _ _ Hgif) in Hrun; discriminate Hrun].
  rewrite (bind_run _ _ _ _ _ Hgif) in Hrun.
  destruct (createAnimatedGIF_returns _ _ _ _ _ _ _ HGIF Hgif)
    as (progress & Hfinished & S4).
  unfold ImageProcessor.blobToDataURL in Hrun.
  destruct (readAsDataURL win blob) as [url|] eqn:Hurl; [|discriminate Hrun].
  erewrite bind_run in Hrun by reflexivity.
  erewrite bind_run in Hrun by reflexivity.
  injection Hrun as <-.
  pose proof (said_trans _ _ _ _ _ (said_trans _ _ _ _ _
                (said_trans _ _ _ _ _ S1 S2) S3) S4)
    as (Happ & Hcur & Hdisp & Herr & Hmsgs).
  exists frames, render, progress, blob, url.
  cbn [ui app set_ui set_app gifFrames loadingMessages animatedGIFBlob
       displayed errorsShown currentLogo isAnimatedGIF].
  split; [exact Hparse|]. split; [reflexivity|]. split; [exact Hfinished|].
  split; [exact Hurl|]. split.
  { rewrite Hmsgs. by rewrite <- !app_assoc. }
  rewrite Herr, Happ. by repeat split.
Qed.

Lemma animatedPath_reports_progress_witness :
  (exists w',
     QRCodeApp.animatedPath demoWindow demoApp (demoOptions "hi")
       (demoWorld (Some "data:image/gif;base64,R0lG"%string) true) =
       (w', Return tt) /\
     loadingMessages (ui w') =
       ["Processing animated GIF..."; "Processing frame 1/3...";
        "Processing frame 2/3..."; "Processing frame 3/3...";
        "Creating animated GIF..."; "Encoding GIF: 50%";
        "Encoding GIF: 100%"]%string /\
     animatedGIFBlob (app w') = Some (mkBlob "GIF89a")) /\
  (exists w',
     QRCodeApp.animatedPath
       (demoWindowWith (mkImage 200 100 "frame") [(23 # 40)%Q]) demoApp
       (demoOptions "hi")
       (demoWorld (Some "data:image/gif;base64,R0lG"%string) true) =
       (w', Return tt) /\
     loadingMessages (ui w') =
       ["Processing animated GIF..."; "Processing frame 1/3...";
        "Processing frame 2/3..."; "Processing frame 3/3...";
        "Creating animated GIF..."; "Encoding GIF: 57%"]%string).
Proof.
  split.
  - destruct (QRCodeApp.animatedPath demoWindow demoApp (demoOptions "hi")
                (demoWorld (Some "data:image/gif;base64,R0lG"%string) true))
      as [w' [[]|e]] eqn:Hrun.
    + exists w'. split; [reflexivity|].
      destruct (animatedPath_reports_progress demoWindow demoApp
                  (demoOptions "hi")
                  (demoWorld (Some "data:image/gif;base64,R0lG"%string) true)
                  w' Hrun)
        as (frames & render & progress & blob & url & Hparse & HGIF &
            Hfinished & _ & Hmsgs & Hblob & _).
      specialize (Hparse (demoWorld None false)).
      vm_compute in Hparse. injection Hparse as <-.
      injection HGIF as <-. injection Hfinished as <- <-.
      split; [exact Hmsgs|exact Hblob].
    + exfalso. vm_compute in Hrun. discriminate Hrun.
  - destruct (QRCodeApp.animatedPath
                (demoWindowWith (mkImage 200 100 "frame") [(23 # 40)%Q])
                demoApp (demoOptions "hi")
                (demoWorld (Some "data:image/gif;base64,R0lG"%string) true))
      as [w' [[]|e]] eqn:Hrun.
    + exists w'. split; [reflexivity|].
      destruct (animatedPath_reports_progress
                  (demoWindowWith (mkImage 200 100 "frame") [(23 # 40)%Q])
                  demoApp (demoOptions "hi")
                  (demoWorld (Some "data:image/gif;base64,R0lG"%string) true)
                  w' Hrun)
        as (frames & render & progress & blob & url & Hparse & HGIF &
            Hfinished & _ & Hmsgs & _).
      specialize (Hparse (demoWorld None false)).
      vm_compute in Hparse. injection Hparse as <-.
      injection HGIF as <-. injection Hfinished as <- <-.
      exact Hmsgs.
    + exfalso. vm_compute in Hrun. discriminate Hrun.
Defined.

(** The percentage is that of the double product: 0.575 * 100 is
    57.49999999999999 in doubles, and 57.5 exactly. *)
Lemma percent_of_the_double :
  QRCodeApp.percent (23 # 40) = 57 /\
  Qfloor ((23 # 40) * 100 + (1 # 2)) = 58.
Proof. split; vm_compute; reflexivity. Qed.

(** * Uploaded files *)

(** Every supported format is an image type. *)
Lemma supportedFormats_are_images (type : string) :
  ImageProcessor.includes ImageProcessor.supportedFormats type = true ->
  String.prefix "image/" type = true.
Proof.
  unfold ImageProcessor.includes, ImageProcessor.supportedFormats.
  cbn [existsb]. rewrite !orb_true_iff.
  intros H. repeat destruct H as [H|H]; try discriminate H;
    apply String.eqb_eq in H; by subst.
Qed.

(** X12.  [validateImageFile] accepts a file exactly when its type is
    one of the six supported formats and its size does not exceed the
    limit: the limit passed, or else 100 MB for ['image/gif'] and 5 MB
    for every other type.  A missing file is rejected with ['No file
    provided'].  The result is valid exactly when no error is listed;
    there are at most three errors, and ['File must be an image'] never
    comes without ['Unsupported image format...'], since every supported
    format is an image type. *)
Theorem validateImageFile_accepts numberToString (file : ImageProcessor.File)
    (maxSizeBytes : option Z) :
  let result :=
    ImageProcessor.validateImageFile numberToString (Some file) maxSizeBytes in
  let limit :=
    match maxSizeBytes with
    | Some n => n
    | None =>
        if String.eqb (ImageProcessor.file_type file) "image/gif"
        then 104857600 else 5242880
    end in
  (ImageProcessor.valid result = true <->
   In (ImageProcessor.file_type file) ImageProcessor.supportedFormats /\
   ImageProcessor.file_size file <= limit) /\
  (ImageProcessor.valid result = true <->
   ImageProcessor.errors result = []) /\
  (length (ImageProcessor.errors result) <= 3)%nat /\
  (In "File must be an image"%string (ImageProcessor.errors result) ->
   In "Unsupported image format. Use PNG, JPEG, SVG, WebP, or GIF"%string
     (ImageProcessor.errors result)) /\
  ImageProcessor.validateImageFile numberToString None maxSizeBytes =
    {| ImageProcessor.valid := false;
       ImageProcessor.errors := ["No file provided"%string] |}.
Proof.
  intros result limit.
  assert (Hin : ImageProcessor.includes ImageProcessor.supportedFormats
                  (ImageProcessor.file_type file) = true <->
                In (ImageProcessor.file_type file)
                  ImageProcessor.supportedFormats).
  { unfold ImageProcessor.includes. rewrite existsb_exists. split.
    - intros (x & Hx & E). apply String.eqb_eq in E. by subst.
    - intros H. eexists. split; [exact H|]. apply String.eqb_refl. }
  pose proof (supportedFormats_are_images (ImageProcessor.file_type file))
    as Himg.
  unfold result, ImageProcessor.validateImageFile. cbv zeta.
  change (100 * 1024 * 1024) with 104857600.
  change (5 * 1024 * 1024) with 5242880. fold limit. clearbody limit.
  destruct (ImageProcessor.includes ImageProcessor.supportedFormats
              (ImageProcessor.file_type file)) eqn:Einc.
  - rewrite (Himg eq_refl). cbn [negb ImageProcessor.pushIf].
    destruct (Z.gtb_spec (ImageProcessor.file_size file) limit) as [Hgt|Hle];
      simpl.
    + split; [|split; [|split; [|split]]]; try done.
      * split; [done|]. intros [_ H]. lia.
      * lia.
      * intros [H|[]]. discriminate H.
    + split; [|split; [|split; [|split]]]; try done.
      * split; [|done]. intros _. split; [by apply Hin|done].
      * lia.
  - assert (Hnot : ~ In (ImageProcessor.file_type file)
                     ImageProcessor.supportedFormats).
    { intros H. apply Hin in H. discriminate H. }
    destruct (String.prefix "image/" (ImageProcessor.file_type file));
      destruct (Z.gtb_spec (ImageProcessor.file_size file) limit)
        as [Hgt|Hle];
      cbn [negb ImageProcessor.pushIf]; simpl;
      (split; [|split; [|split; [|split]]]);
      try done; try (split; [done|]; intros [H _]; done);
      try lia; try (intros _; tauto).
Qed.

Lemma validateImageFile_accepts_witness :
  ImageProcessor.valid
    (ImageProcessor.validateImageFile (fun _ => "5"%string)
       (Some {| ImageProcessor.file_type := "image/gif";
                ImageProcessor.file_size := 6000000;
                ImageProcessor.file_blob := mkBlob "GIF89a" |}) None) =
    true /\
  ImageProcessor.valid
    (ImageProcessor.validateImageFile (fun _ => "5"%string)
       (Some {| ImageProcessor.file_type := "image/png";
                ImageProcessor.file_size := 6000000;
                ImageProcessor.file_blob := mkBlob "PNG" |}) None) <>
    true.
Proof.
  split.
  - apply (proj1 (validateImageFile_accepts (fun _ => "5"%string)
                    {| ImageProcessor.file_type := "image/gif";
                       ImageProcessor.file_size := 6000000;
                       ImageProcessor.file_blob := mkBlob "GIF89a" |} None)).
    split; [simpl; tauto|simpl; lia].
  - intros Hvalid.
    apply (proj1 (validateImageFile_accepts (fun _ => "5"%string)
                    {| ImageProcessor.file_type := "image/png";
                       ImageProcessor.file_size := 6000000;
                       ImageProcessor.file_blob := mkBlob "PNG" |} None))
      in Hvalid.
    destruct Hvalid as [_ Hsize]. simpl in Hsize. lia.
Defined.

(** X13.  [resizeImage] for an image that loads, when the sides of the
    image and the two bounds are positive integers below 2^31.  It draws
    on a canvas of its own, leaving every other canvas alone, and returns
    the data URL of that canvas, whose sides are the computed width and
    height truncated to integers.  An image within both bounds keeps its
    size and is drawn at that size.  Otherwise one side is set to its
    bound exactly and the other is computed in doubles from the aspect
    ratio [width / height]: a landscape image gets the width [maxWidth],
    also when it was narrower than that and only too tall, and the height
    [maxWidth / aspectRatio]; any other image gets the height
    [maxHeight] and the width [maxHeight * aspectRatio]. *)
Theorem resizeImage_size win (imageSrc : string) (image : Image)
    (maxWidth maxHeight : Z) (w : World) :
  Image_load win imageSrc = Some image ->
  0 < img_width image < 2 ^ 31 -> 0 < img_height image < 2 ^ 31 ->
  0 < maxWidth < 2 ^ 31 -> 0 < maxHeight < 2 ^ 31 ->
  let iw := img_width image in
  let ih := img_height image in
  let aspectRatio := Double.div (Double.ofZ iw) (Double.ofZ ih) in
  exists (width height : Double.t) (w' : World),
    ImageProcessor.resizeImage win imageSrc (Double.ofZ maxWidth)
      (Double.ofZ maxHeight) w =
      (w', Return (toDataURL win
         (ImageProcessor.drawResized image width height
            (mkCanvas (ImageProcessor.canvasLength 300 width)
               (ImageProcessor.canvasLength 150 height) black [])))) /\
    (forall id, is_Some (canvases w !! id) ->
       canvases w' !! id = canvases w !! id) /\
    (iw <= maxWidth -> ih <= maxHeight ->
     width = Double.ofZ iw /\ height = Double.ofZ ih /\
     exists dw dh : Q,
       (dw == inject_Z iw)%Q /\ (dh == inject_Z ih)%Q /\
       ImageProcessor.drawResized image width height
         (mkCanvas (ImageProcessor.canvasLength 300 width)
            (ImageProcessor.canvasLength 150 height) black []) =
       mkCanvas iw ih black [DrawImage image 0 0 dw dh]) /\
    (maxWidth < iw \/ maxHeight < ih -> ih < iw ->
     width = Double.ofZ maxWidth /\
     ImageProcessor.canvasLength 300 width = maxWidth /\
     height = Double.div (Double.ofZ maxWidth) aspectRatio) /\
    (maxWidth < iw \/ maxHeight < ih -> iw <= ih ->
     height = Double.ofZ maxHeight /\
     ImageProcessor.canvasLength 150 height = maxHeight /\
     width = Double.mul (Double.ofZ maxHeight) aspectRatio).
Proof.
  intros Hload Hw Hh Hmw Hmh iw ih aspectRatio.
  destruct (ImageProcessor.resizedSize image (Double.ofZ maxWidth)
              (Double.ofZ maxHeight)) as [width height] eqn:Hsize.
  exists width, height. eexists. split.
  { unfold ImageProcessor.resizeImage, ImageProcessor.loadImage.
    rewrite Hload. erewrite bind_run by reflexivity. rewrite Hsize.
    erewrite bind_run by reflexivity.
    erewrite bind_run by apply onCanvas_insert.
    erewrite bind_run by apply onCanvas_insert.
    erewrite bind_run by apply onCanvas_insert.
    erewrite bind_run
      by (unfold getCanvas; rewrite canvasOf_insert_eq; reflexivity).
    reflexivity. }
  split.
  { intros id Hid. cbn [canvases set_canvases].
    rewrite lookup_insert_ne; [done|]. intros E.
    by apply (fresh_not_existing _ _ Hid). }
  unfold ImageProcessor.resizedSize in Hsize. fold iw ih in Hsize.
  rewrite !ltb_ofZ in Hsize by (unfold iw, ih; lia).
  split; [|split].
  - intros H1 H2.
    destruct (Z.ltb_spec maxWidth iw); [lia|].
    destruct (Z.ltb_spec maxHeight ih); [lia|].
    cbn [orb] in Hsize. injection Hsize as <- <-.
    split; [reflexivity|]. split; [reflexivity|].
    destruct (value_ofZ iw) as (dw & Ew & Hdw); [unfold iw; lia|].
    destruct (value_ofZ ih) as (dh & Eh & Hdh); [unfold ih; lia|].
    exists dw, dh. split; [exact Hdw|]. split; [exact Hdh|].
    unfold ImageProcessor.drawResized. rewrite Ew, Eh.
    rewrite !canvasLength_ofZ by (unfold iw, ih; lia). reflexivity.
  - intros Hover Hland.
    assert (E : (maxWidth <? iw) || (maxHeight <? ih) = true).
    { apply orb_true_iff. destruct Hover; [left|right]; by apply Z.ltb_lt. }
    rewrite E in Hsize. apply Z.ltb_lt in Hland. rewrite Hland in Hsize.
    injection Hsize as <- <-.
    split; [reflexivity|]. split; [|reflexivity].
    apply canvasLength_ofZ. lia.
  - intros Hover Hport.
    assert (E : (maxWidth <? iw) || (maxHeight <? ih) = true).
    { apply orb_true_iff. destruct Hover; [left|right]; by apply Z.ltb_lt. }
    rewrite E in Hsize. apply Z.ltb_ge in Hport. rewrite Hport in Hsize.
    injection Hsize as <- <-.
    split; [reflexivity|]. split; [|reflexivity].
    apply canvasLength_ofZ. lia.
Qed.

Lemma resizeImage_size_witness :
  exists w',
    ImageProcessor.resizeImage
      (demoWindowWith (mkImage 640 465 "photo.png") []) "photo.png"
      (Double.ofZ 512) (Double.ofZ 512) (demoWorld None false) =
      (w', Return "512x371"%string).
Proof.
  destruct (resizeImage_size
              (demoWindowWith (mkImage 640 465 "photo.png") [])
              "photo.png"%string (mkImage 640 465 "photo.png") 512 512
              (demoWorld None false) eq_refl
              ltac:(simpl; lia) ltac:(simpl; lia) ltac:(lia) ltac:(lia))
    as (width & height & w' & Hrun & _ & _ & Hland & _).
  destruct (Hland ltac:(simpl; lia) ltac:(simpl; lia)) as (-> & _ & ->).
  exists w'. rewrite Hrun. do 2 f_equal.
Defined.

(** * The page: [generateQR] *)

Lemma bindP_run {A B : Type} (m : P A) (k : A -> P B) (p p1 : Page) (a : A) :
  m p = (p1, Return a) -> (m ≫= k) p = k a p1.
Proof. intros H. unfold mbind, P_bind. by rewrite H. Qed.

Lemma bindP_throw {A B : Type} (m : P A) (k : A -> P B) (p p1 : Page)
    (e : Exn) :
  m p = (p1, Throw e) -> (m ≫= k) p = (p1, Throw e).
Proof. intros H. unfold mbind, P_bind. by rewrite H. Qed.

Lemma liftW_run {A : Type} (m : M A) (p : Page) (w' : World)
    (o : Outcome A) :
  m (world p) = (w', o) ->
  liftW m p = ({| world := w'; controls := controls p |}, o).
Proof. intros H. unfold liftW. by rewrite H. Qed.

Lemma sameLogo_refl w : sameLogo w w.
Proof. by split. Qed.

Lemma sameLogo_trans w w1 w2 :
  sameLogo w w1 -> sameLogo w1 w2 -> sameLogo w w2.
Proof. intros [H1 H2] [H3 H4]. split; congruence. Qed.

Lemma sameLogo_app w w' : app w' = app w -> sameLogo w w'.
Proof. intros H. unfold sameLogo. by rewrite H. Qed.

Lemma keepsLogo_bind {A B : Type} (m : M A) (k : A -> M B) :
  keepsLogo m -> (forall a, keepsLogo (k a)) -> keepsLogo (m ≫= k).
Proof.
  intros Hm Hk w. specialize (Hm w). unfold mbind, M_bind.
  destruct (m w) as [w1 [a|e]]; simpl in *; [|done].
  by apply (sameLogo_trans _ w1); [|apply Hk].
Qed.

Lemma keepsLogo_try_catch {A : Type} (body : M A) (handler : Exn -> M A) :
  keepsLogo body -> (forall e, keepsLogo (handler e)) ->
  keepsLogo (try_catch body handler).
Proof.
  intros Hb Hh w. specialize (Hb w). unfold try_catch.
  destruct (body w) as [w1 [a|e]]; simpl in *; [done|].
  by apply (sameLogo_trans _ w1); [|apply Hh].
Qed.

Lemma silent_keepsLogo {A : Type} (m : M A) : silent m -> keepsLogo m.
Proof. intros H w. destruct (H w) as [Happ _]. by apply sameLogo_app. Qed.

Lemma keepsLogo_same {A : Type} (m : M A) :
  (forall w, app (m w).1 = app w) -> keepsLogo m.
Proof. intros H w. by apply sameLogo_app. Qed.

Lemma silent_parseGIF win dataURL : silent (ImageProcessor.parseGIF win dataURL).
Proof.
  intros w. destruct (parseGIF_run win dataURL) as (o & -> & _).
  apply said_refl.
Qed.

Lemma keepsLogo_frameLoop win self config remaining :
  forall i total cs ds,
    keepsLogo (QRCodeApp.frameLoop win self config remaining i total cs ds).
Proof.
  induction remaining as [|frame rest IH]; intros i total cs ds.
  - intros w. apply sameLogo_refl.
  - cbn [QRCodeApp.frameLoop]. apply keepsLogo_bind; [|intros out; apply IH].
    intros w.
    destruct (processFrame_said win self config frame i total w) as [H _].
    by apply sameLogo_app.
Qed.

Lemma keepsLogo_addFrames canvases0 delays :
  forall index, keepsLogo (ImageProcessor.addFrames canvases0 delays index).
Proof.
  intros index w.
  destruct (addFrames_run canvases0 delays index w) as (added & -> & _).
  by apply sameLogo_app.
Qed.

Lemma keepsLogo_reportProgress callback progress :
  (forall f, callback = Some f -> forall p, keepsLogo (f p)) ->
  keepsLogo (ImageProcessor.reportProgress callback progress).
Proof.
  intros Hcb. induction progress as [|p rest IH].
  - intros w. apply sameLogo_refl.
  - cbn [ImageProcessor.reportProgress].
    apply keepsLogo_bind; [|intros _; exact IH].
    destruct callback as [f|]; [by apply Hcb|].
    intros w. apply sameLogo_refl.
Qed.

Lemma keepsLogo_createAnimatedGIF win canvases0 delays callback :
  (forall f, callback = Some f -> forall p, keepsLogo (f p)) ->
  keepsLogo (ImageProcessor.createAnimatedGIF win canvases0 delays callback).
Proof.
  intros Hcb. unfold ImageProcessor.createAnimatedGIF.
  destruct (GIF win) as [render|]; [|intros w; apply sameLogo_refl].
  destruct (length canvases0 =? 0)%nat; [intros w; apply sameLogo_refl|].
  apply keepsLogo_bind; [by apply keepsLogo_same|]. intros _.
  apply keepsLogo_bind; [apply keepsLogo_addFrames|]. intros _.
  apply keepsLogo_bind; [by apply keepsLogo_same|]. intros frames.
  destruct (render frames) as [progress blob|progress error|error].
  - apply keepsLogo_bind; [by apply keepsLogo_reportProgress|].
    intros _ w. apply sameLogo_refl.
  - apply keepsLogo_bind; [by apply keepsLogo_reportProgress|].
    intros _ w. apply sameLogo_refl.
  - intros w. apply sameLogo_refl.
Qed.

Lemma keepsLogo_generateStaticQR win self config :
  keepsLogo (QRCodeApp.generateStaticQR win self config).
Proof.
  unfold QRCodeApp.generateStaticQR.
  apply keepsLogo_bind; [apply silent_keepsLogo, silent_generate|].
  intros qrCanvas.
  apply keepsLogo_bind; [by apply keepsLogo_same|]. intros state.
  apply keepsLogo_bind.
  - destruct (truthy (currentLogo state)); [|by apply keepsLogo_same].
    apply keepsLogo_try_catch;
      [apply silent_keepsLogo, silent_addLogoOverlay|].
    intros e. apply keepsLogo_bind;
      [by apply keepsLogo_same|intros _; by apply keepsLogo_same].
  - intros finalCanvas. apply keepsLogo_bind.
    + intros w. apply sameLogo_app. reflexivity.
    + intros _ w. by split.
Qed.

Lemma keepsLogo_animatedPath win self config :
  keepsLogo (QRCodeApp.animatedPath win self config).
Proof.
  unfold QRCodeApp.animatedPath.
  destruct (_ || _); [intros w; apply sameLogo_refl|].
  apply keepsLogo_bind; [by apply keepsLogo_same|]. intros _.
  apply keepsLogo_bind; [by apply keepsLogo_same|]. intros state.
  apply keepsLogo_bind; [apply silent_keepsLogo, silent_parseGIF|].
  intros frames.
  apply keepsLogo_bind; [apply keepsLogo_frameLoop|]. intros [cs ds].
  apply keepsLogo_bind; [by apply keepsLogo_same|]. intros _.
  apply keepsLogo_bind.
  { apply keepsLogo_createAnimatedGIF. intros f [= <-] p.
    by apply keepsLogo_same. }
  intros blob. apply keepsLogo_bind.
  { unfold ImageProcessor.blobToDataURL.
    destruct (readAsDataURL win blob); intros w; apply sameLogo_refl. }
  intros url. apply keepsLogo_bind; [|intros _; by apply keepsLogo_same].
  intros w. by split.
Qed.

Lemma keepsLogo_generateAnimatedQR win self config :
  keepsLogo (QRCodeApp.generateAnimatedQR win self config).
Proof.
  unfold QRCodeApp.generateAnimatedQR.
  apply keepsLogo_try_catch; [apply keepsLogo_animatedPath|].
  intros e. apply keepsLogo_bind; [by apply keepsLogo_same|].
  intros _. apply keepsLogo_generateStaticQR.
Qed.

Lemma keepsLogo_pathOf win self w0 config :
  keepsLogo (pathOf win self w0 config).
Proof.
  unfold pathOf. destruct (_ && _);
    [apply keepsLogo_generateAnimatedQR|apply keepsLogo_generateStaticQR].
Qed.

Lemma trim_truthy (s : string) :
  truthy (Some s) = negb (String.eqb s "").
Proof. by destruct s. Qed.

(** [generateQR] step by step: it always returns; the controls end as
    [hideLoading] leaves them; the world is that of the error for an
    invalid input, and otherwise that of the path taken, followed by the
    generic error when the path throws. *)
Lemma generateQR_run win self (p : Page) :
  let text := trim (qrInput (controls p)) in
  QRCodeApp.generateQR win self p =
    ({| world :=
          if String.eqb text "" then
            (UIController.showError
               "Please enter a URL or text to generate a QR code"
               (world p)).1
          else if (2953 <? String.length text)%nat then
            (UIController.showError
               "Text is too long. Maximum 2953 characters for QR codes."
               (world p)).1
          else
            match pathOf win self (world p) (configOf (controls p))
                    (world p) with
            | (w1, Return _) => w1
            | (w1, Throw e) =>
                (UIController.showError
                   "Failed to generate QR code. Please try again." w1).1
            end;
        controls := controls (UIController.hideLoading p).1 |},
     Return tt).
Proof.
  intros text. unfold QRCodeApp.generateQR, try_finally, try_catch_P.
  unfold mbind at 1, P_bind at 1. unfold UIController.validateInput at 1.
  fold text. rewrite trim_truthy, negb_involutive.
  destruct (String.eqb text ""); [reflexivity|].
  destruct (2953 <? String.length text)%nat; [reflexivity|].
  cbn [negb UIController.valid].
  unfold mbind, P_bind, UIController.showLoading, UIController.getConfig,
    UIController.hideLoading, liftW, QRCodeApp.getState, pathOf, configOf,
    UIController.showError, set_controls.
  destruct p as [w c]. destruct c.
  cbv beta iota zeta delta
    [world controls qrInput sizeSelect errorCorrectionSelect activeStyle
     fgColorInput bgColorInput transparentBgCheckbox fst].
  destruct (isAnimatedGIF (app w) && truthy (currentLogo (app w))).
  - destruct (QRCodeApp.generateAnimatedQR win self _ w)
      as [w1 [[]|e]]; reflexivity.
  - destruct (QRCodeApp.generateStaticQR win self _ w)
      as [w1 [[]|e]]; reflexivity.
Qed.

(** [generate] for a text the encoder takes at no type number. *)
Lemma generate_rejected win self config text :
  QRGenerator.text config = Some text -> text <> ""%string ->
  (forall k, 1 <= k <= 40 ->
     accepts win k (default "H"%string (QRGenerator.errorCorrection config))
       text = false) ->
  exists msg, forall w, exists calls,
    QRGenerator.generate win self config w =
      (set_encoderCalls calls w, Throw (ThrownString msg)).
Proof.
  intros Htext Hne Hnone.
  set (ec := default "H"%string (QRGenerator.errorCorrection config)) in *.
  destruct (probeFrom_run win text ec 40 1) as (t & m & Hrun & Hres).
  destruct Hres as [(Hr & Hacc & _)|(_ & -> & ->)].
  { rewrite Hnone in Hacc by lia. discriminate. }
  pose proof (Hnone 10 ltac:(lia)) as H10. unfold accepts in H10.
  destruct (qrcode win 10 ec text) as [msg|qr] eqn:E; [|discriminate].
  exists msg. intros w. eexists.
  rewrite (generate_nonempty win self config text w Htext Hne).
  fold ec. unfold QRGenerator.calculateTypeNumber. rewrite Hrun, E.
  reflexivity.
Qed.

(** X14.  [generateQR] never throws, whatever the input and whatever
    happens on the way, and it always ends with the loading indicator
    hidden and the generate button enabled.  The inputs of the form (text,
    size, error correction level, style, colours, transparency), the
    logo preview, the icon picker, the file input and the selection of
    the icons are as they were.  It never changes the stored logo or its
    kind.  When the trimmed text is empty or longer than 2953
    characters, all it does to the page is show the matching error:
    nothing is encoded, drawn or displayed. *)
Theorem generateQR_always_settles win self (p : Page) :
  let text := trim (qrInput (controls p)) in
  exists p',
    QRCodeApp.generateQR win self p = (p', Return tt) /\
    loadingIndicatorHidden (controls p') = true /\
    generateBtnDisabled (controls p') = false /\
    sameWidgets (controls p) (controls p') /\
    sameLogo (world p) (world p') /\
    (text = ""%string ->
     world p' =
       (UIController.showError
          "Please enter a URL or text to generate a QR code" (world p)).1) /\
    ((2953 < String.length text)%nat ->
     world p' =
       (UIController.showError
          "Text is too long. Maximum 2953 characters for QR codes."
          (world p)).1).
Proof.
  intros text. rewrite generateQR_run. fold text.
  eexists. split; [reflexivity|]. cbn [world controls].
  split; [reflexivity|]. split; [reflexivity|].
  split; [by repeat split|].
  split; [|split].
  - destruct (String.eqb text ""); [by apply sameLogo_app|].
    destruct (2953 <? String.length text)%nat; [by apply sameLogo_app|].
    pose proof (keepsLogo_pathOf win self (world p) (configOf (controls p))
                  (world p)) as Hpath.
    destruct (pathOf win self (world p) (configOf (controls p)) (world p))
      as [w1 [[]|e]]; simpl in Hpath; [done|].
    apply (sameLogo_trans _ w1); [done|]. by apply sameLogo_app.
  - intros ->. reflexivity.
  - intros Hlong.
    destruct (String.eqb_spec text "") as [E|_].
    { rewrite E in Hlong. simpl in Hlong. lia. }
    by replace (2953 <? String.length text)%nat with true
      by (symmetry; apply Nat.ltb_lt; exact Hlong).
Qed.

Lemma generateQR_always_settles_witness :
  exists p',
    QRCodeApp.generateQR demoWindow demoApp
      {| world := demoWorld None false;
         controls := withInput "   " demoControls |} = (p', Return tt) /\
    errorsShown (ui (world p')) =
      ["Error: Please enter a URL or text to generate a QR code"%string] /\
    canvases (world p') = canvases (demoWorld None false).
Proof.
  destruct (generateQR_always_settles demoWindow demoApp
              {| world := demoWorld None false;
                 controls := withInput "   " demoControls |})
    as (p' & Hrun & _ & _ & _ & _ & Hempty & _).
  exists p'. split; [exact Hrun|].
  rewrite (Hempty eq_refl). split; reflexivity.
Defined.

(** X15.  A text that passes [validateInput] but that the encoder takes
    at no type number (too long for the chosen error correction level,
    say) ends, on the static path, in the generic error ['Failed to
    generate QR code. Please try again.'] and in nothing else: what is
    displayed, the current canvas, every canvas and the stored animation
    are as before. *)
Theorem generateQR_encoder_rejects win self (p : Page) :
  let text := trim (qrInput (controls p)) in
  let ec := errorCorrectionSelect (controls p) in
  text <> ""%string -> (String.length text <= 2953)%nat ->
  (forall k, 1 <= k <= 40 -> accepts win k ec text = false) ->
  isAnimatedGIF (app (world p)) && truthy (currentLogo (app (world p))) =
    false ->
  exists p',
    QRCodeApp.generateQR win self p = (p', Return tt) /\
    errorsShown (ui (world p')) =
      errorsShown (ui (world p)) ++
      ["Error: Failed to generate QR code. Please try again."%string] /\
    displayed (ui (world p')) = displayed (ui (world p)) /\
    currentCanvas (ui (world p')) = currentCanvas (ui (world p)) /\
    canvases (world p') = canvases (world p) /\
    app (world p') = app (world p).
Proof.
  intros text ec Hne Hlen Hnone Hstatic.
  rewrite generateQR_run. fold text.
  eexists. split; [reflexivity|]. cbn [world controls].
  replace (String.eqb text "") with false
    by (symmetry; by apply String.eqb_neq).
  replace (2953 <? String.length text)%nat with false
    by (symmetry; apply Nat.ltb_ge; exact Hlen).
  unfold pathOf. rewrite Hstatic.
  destruct (generate_rejected win (QRCodeApp.qrGenerator self)
              (configOf (controls p)) text eq_refl Hne Hnone) as [msg Hgen].
  destruct (Hgen (world p)) as [calls Hrun].
  unfold QRCodeApp.generateStaticQR.
  rewrite (bind_throw _ _ _ _ _ Hrun). by repeat split.
Qed.

Lemma generateQR_encoder_rejects_witness :
  exists p',
    QRCodeApp.generateQR demoWindow demoApp
      {| world := demoWorld None false;
         controls := withInput (longText 121) demoControls |} =
      (p', Return tt) /\
    errorsShown (ui (world p')) =
      ["Error: Failed to generate QR code. Please try again."%string] /\
    displayed (ui (world p')) = Placeholder.
Proof.
  destruct (generateQR_encoder_rejects demoWindow demoApp
              {| world := demoWorld None false;
                 controls := withInput (longText 121) demoControls |})
    as (p' & Hrun & Herr & Hdisp & _).
  - discriminate.
  - vm_compute. lia.
  - intros k Hk. cbv [accepts demoWindow qrcode demoEncoder].
    change (Z.of_nat (String.length
              (trim (qrInput (controls
                 {| world := demoWorld None false;
                    controls := withInput (longText 121) demoControls |})))))
      with 121.
    destruct (Z.leb_spec 121 (3 * k)); [lia|reflexivity].
  - reflexivity.
  - exists p'. split; [exact Hrun|]. split; [exact Herr|exact Hdisp].
Defined.

(** X16.  From the form to the picture: for a text that passes
    [validateInput] and that the encoder takes, with no logo selected,
    [generateQR] displays the generator's canvas, and that canvas holds
    the matrix the encoder yields for the trimmed text at the selected
    level and at the smallest type number that takes it, rendered at the
    selected size, in the active style (Squares when no style button is
    active), in the chosen colours, with a quiet zone of 4 modules.  No
    error is shown. *)
Theorem generateQR_shows_code win self (p : Page) :
  let c := controls p in
  let text := trim (qrInput c) in
  let ec := errorCorrectionSelect c in
  text <> ""%string -> (String.length text <= 2953)%nat ->
  (exists k, 1 <= k <= 40 /\ accepts win k ec text = true) ->
  truthy (currentLogo (app (world p))) = false ->
  exists p' t qr,
    QRCodeApp.generateQR win self p = (p', Return tt) /\
    1 <= t <= 40 /\ qrcode win t ec text = inr qr /\
    (forall j, 1 <= j < t -> accepts win j ec text = false) /\
    let code :=
      QRGenerator.renderToCanvas qr
        {| QRGenerator.r_size := sizeSelect c;
           QRGenerator.r_style := default "squares"%string (activeStyle c);
           QRGenerator.r_foregroundColor := fgColorInput c;
           QRGenerator.r_backgroundColor := bgColorInput c;
           QRGenerator.r_transparentBackground := transparentBgCheckbox c;
           QRGenerator.r_margin := 4 |} newCanvas in
    displayed (ui (world p')) = ShowsCanvas code /\
    currentCanvas (ui (world p')) =
      Some (QRGenerator.canvas (QRCodeApp.qrGenerator self)) /\
    canvasOf (world p') (QRGenerator.canvas (QRCodeApp.qrGenerator self)) =
      code /\
    errorsShown (ui (world p')) = errorsShown (ui (world p)) /\
    animatedGIFBlob (app (world p')) = None.
Proof.
  intros c text ec Hne Hlen Hvalid Hnologo.
  rewrite generateQR_run. fold c text.
  replace (String.eqb text "") with false
    by (symmetry; by apply String.eqb_neq).
  replace (2953 <? String.length text)%nat with false
    by (symmetry; apply Nat.ltb_ge; exact Hlen).
  unfold pathOf. rewrite Hnologo, andb_false_r.
  destruct (generate_accepted win (QRCodeApp.qrGenerator self)
              (configOf c) text eq_refl Hne Hvalid)
    as (t & qr & Ht & Hqr & Hmin & Hgen).
  destruct (Hgen (world p)) as [calls Hrun].
  unfold QRCodeApp.generateStaticQR.
  rewrite (bind_run _ _ _ _ _ Hrun).
  erewrite bind_run by reflexivity.
  cbn [app set_canvases set_encoderCalls]. rewrite Hnologo.
  erewrite bind_run by reflexivity.
  erewrite bind_run by reflexivity.
  eexists _, t, qr. split; [reflexivity|].
  split; [exact Ht|]. split; [exact Hqr|]. split; [exact Hmin|].
  cbn [world ui app set_ui set_app displayed currentCanvas errorsShown
       animatedGIFBlob].
  rewrite canvasOf_insert_eq. repeat split.
  unfold canvasOf. simpl. by rewrite lookup_insert_eq.
Qed.

Lemma generateQR_shows_code_witness :
  exists p' qr,
    QRCodeApp.generateQR demoWindow demoApp
      {| world := demoWorld None false; controls := demoControls |} =
      (p', Return tt) /\
    demoEncoder 1 "H" "hi" = inr qr /\
    displayed (ui (world p')) =
      ShowsCanvas
        (QRGenerator.renderToCanvas qr
           {| QRGenerator.r_size := 256; QRGenerator.r_style := "dots";
              QRGenerator.r_foregroundColor := black;
              QRGenerator.r_backgroundColor := white;
              QRGenerator.r_transparentBackground := false;
              QRGenerator.r_margin := 4 |} newCanvas).
Proof.
  destruct (generateQR_shows_code demoWindow demoApp
              {| world := demoWorld None false; controls := demoControls |})
    as (p' & t & qr & Hrun & Ht & Hqr & Hmin & Hdisp & _).
  - discriminate.
  - vm_compute. lia.
  - exists 1. split; [lia|reflexivity].
  - reflexivity.
  - assert (t = 1) as ->.
    { destruct (Z.eq_dec t 1) as [|Hne]; [done|].
      specialize (Hmin 1 ltac:(lia)). discriminate Hmin. }
    exists p', qr. split; [exact Hrun|]. split; [exact Hqr|exact Hdisp].
Defined.

(** * The page: logo handlers *)

Lemma regenerate_run win self (p : Page) :
  QRCodeApp.regenerate win self p =
  if bool_decide (is_Some (currentCanvas (ui (world p))))
  then QRCodeApp.generateQR win self p
  else (p, Return tt).
Proof.
  unfold QRCodeApp.regenerate, mbind, P_bind, liftW,
    QRCodeApp.getCurrentCanvas.
  destruct p as [w c]. cbn [world controls].
  by destruct (bool_decide _).
Qed.

Lemma sameWidgets_refl c : sameWidgets c c.
Proof. by repeat split. Qed.

Lemma sameWidgets_hideLoading p :
  sameWidgets (controls p) (controls (UIController.hideLoading p).1).
Proof. by repeat split. Qed.

(** The regeneration after a change of logo returns, keeps the stored
    logo and the widgets, and does nothing when no code is displayed. *)
Lemma regenerate_settles win self (p : Page) :
  exists p',
    QRCodeApp.regenerate win self p = (p', Return tt) /\
    sameLogo (world p) (world p') /\
    sameWidgets (controls p) (controls p') /\
    (currentCanvas (ui (world p)) = None -> p' = p).
Proof.
  rewrite regenerate_run.
  destruct (currentCanvas (ui (world p))) as [c|] eqn:Hc.
  - rewrite bool_decide_eq_true_2 by eauto. rewrite generateQR_run.
    eexists. split; [reflexivity|]. cbn [world controls].
    split; [|split; [apply sameWidgets_hideLoading|done]].
    destruct (String.eqb _ ""); [by apply sameLogo_app|].
    destruct (2953 <? _)%nat; [by apply sameLogo_app|].
    pose proof (keepsLogo_pathOf win self (world p) (configOf (controls p))
                  (world p)) as Hpath.
    destruct (pathOf win self (world p) (configOf (controls p)) (world p))
      as [w1 [[]|e]]; simpl in Hpath; [done|].
    apply (sameLogo_trans _ w1); [done|]. by apply sameLogo_app.
  - rewrite bool_decide_eq_false_2 by (intros [? ?]; discriminate).
    exists p. split; [reflexivity|].
    split; [apply sameLogo_refl|]. split; [apply sameWidgets_refl|done].
Qed.

(** X17.  [handleIconSelect] stores the icon path as the logo, shows it
    in the preview and flips the icon picker; it never throws.  It does
    not touch [isAnimatedGIF]: after a GIF upload the flag stays set
    although the logo is now a preset icon.  When no code is displayed
    nothing is generated. *)
Theorem handleIconSelect_keeps_animated_flag win self (iconPath : string)
    (p : Page) :
  exists p',
    QRCodeApp.handleIconSelect win self iconPath p = (p', Return tt) /\
    currentLogo (app (world p')) = Some iconPath /\
    isAnimatedGIF (app (world p')) = isAnimatedGIF (app (world p)) /\
    logoPreviewImgSrc (controls p') = iconPath /\
    logoPreviewHidden (controls p') = false /\
    iconPickerOpen (controls p') = negb (iconPickerOpen (controls p)) /\
    iconPickerHidden (controls p') = iconPickerOpen (controls p) /\
    (currentCanvas (ui (world p)) = None ->
     world p' = (QRCodeApp.setCurrentLogo (Some iconPath) (world p)).1).
Proof.
  unfold QRCodeApp.handleIconSelect, try_catch_P.
  erewrite bindP_run by (apply liftW_run; reflexivity).
  erewrite bindP_run by reflexivity.
  erewrite bindP_run by reflexivity.
  match goal with |- context [QRCodeApp.regenerate win self ?p3] =>
    destruct (regenerate_settles win self p3)
      as (p' & -> & [Hlogo Hflag] & Hwidgets & Hidle) end.
  exists p'. split; [reflexivity|].
  destruct Hwidgets
    as (_ & _ & _ & _ & _ & _ & _ & Hsrc & Hhid & Hpick & Hopen & _).
  cbn [world controls set_controls app set_app currentLogo isAnimatedGIF
       logoPreviewImgSrc logoPreviewHidden iconPickerHidden iconPickerOpen
       ui set_ui] in *.
  rewrite Hlogo, Hflag, Hsrc, Hhid, Hpick, Hopen.
  repeat split; try (by destruct (iconPickerOpen (controls p))).
  intros Hnone. by rewrite (Hidle Hnone).
Qed.

Lemma handleIconSelect_keeps_animated_flag_witness :
  exists p',
    QRCodeApp.handleIconSelect demoWindow demoApp "assets/icons/github.svg"
      {| world := demoWorld (Some "data:image/gif;base64,R0lG"%string) true;
         controls := demoControls |} = (p', Return tt) /\
    currentLogo (app (world p')) = Some "assets/icons/github.svg"%string /\
    isAnimatedGIF (app (world p')) = true.
Proof.
  destruct (handleIconSelect_keeps_animated_flag demoWindow demoApp
              "assets/icons/github.svg"
              {| world := demoWorld (Some "data:image/gif;base64,R0lG"%string)
                            true;
                 controls := demoControls |})
    as (p' & Hrun & Hlogo & Hflag & _).
  exists p'. split; [exact Hrun|]. split; [exact Hlogo|exact Hflag].
Defined.

(** A source without a comma is no data URL for [parseGIF]. *)
Lemma parseGIF_no_comma win decode (url : string) (w : World) :
  gifuct win = Some decode ->
  ~ In ","%char (list_ascii_of_string url) ->
  ImageProcessor.parseGIF win (Some url) w =
    (w, Throw (Error "Failed to parse GIF file: Invalid data URL format")).
Proof.
  intros Hgifuct Hnot. unfold ImageProcessor.parseGIF, try_catch.
  rewrite Hgifuct, (split_no_separator _ _ Hnot). reflexivity.
Qed.

Section Keeps.

Variable R : World -> World -> Prop.
Hypothesis R_trans : forall w w1 w2, R w w1 -> R w1 w2 -> R w w2.
Hypothesis R_app : forall w w', app w' = app w -> R w w'.

Lemma keeps_bind {A B : Type} (m : M A) (k : A -> M B) :
  keeps R m -> (forall a, keeps R (k a)) -> keeps R (m ≫= k).
Proof.
  intros Hm Hk w. specialize (Hm w). unfold mbind, M_bind.
  destruct (m w) as [w1 [a|e]]; simpl in *; [|done].
  by apply (R_trans _ w1); [|apply Hk].
Qed.

Lemma keeps_try_catch {A : Type} (body : M A) (handler : Exn -> M A) :
  keeps R body -> (forall e, keeps R (handler e)) ->
  keeps R (try_catch body handler).
Proof.
  intros Hb Hh w. specialize (Hb w). unfold try_catch.
  destruct (body w) as [w1 [a|e]]; simpl in *; [done|].
  by apply (R_trans _ w1); [|apply Hh].
Qed.

Lemma keeps_same {A : Type} (m : M A) :
  (forall w, app (m w).1 = app w) -> keeps R m.
Proof. intros H w. by apply R_app. Qed.

Lemma keeps_silent {A : Type} (m : M A) : silent m -> keeps R m.
Proof. intros H w. destruct (H w) as [Happ _]. by apply R_app. Qed.

End Keeps.

Lemma noAnimation_trans w w1 w2 :
  noAnimation w w1 -> noAnimation w1 w2 -> noAnimation w w2.
Proof. unfold noAnimation. auto. Qed.

Lemma noAnimation_app w w' : app w' = app w -> noAnimation w w'.
Proof. intros H. unfold noAnimation. by rewrite H. Qed.

(** The static path stores no animation. *)
Lemma generateStaticQR_noAnimation win self config :
  keeps noAnimation (QRCodeApp.generateStaticQR win self config).
Proof.
  pose proof noAnimation_trans as Ht. pose proof noAnimation_app as Ha.
  unfold QRCodeApp.generateStaticQR.
  apply keeps_bind; [done|by apply keeps_silent, silent_generate|].
  intros qrCanvas.
  apply keeps_bind; [done|by apply keeps_same|]. intros state.
  apply keeps_bind; [done| |].
  - destruct (truthy (currentLogo state)); [|by apply keeps_same].
    apply keeps_try_catch;
      [done|by apply keeps_silent, silent_addLogoOverlay|].
    intros e. apply keeps_bind;
      [done|by apply keeps_same|intros _; by apply keeps_same].
  - intros finalCanvas. apply keeps_bind; [done| |].
    + intros w. apply Ha. by destruct finalCanvas.
    + intros _ w _. reflexivity.
Qed.

(** With the flag off, a regeneration stores no animation. *)
Lemma regenerate_static_noAnimation win self (p p' : Page) :
  isAnimatedGIF (app (world p)) = false ->
  animatedGIFBlob (app (world p)) = None ->
  QRCodeApp.regenerate win self p = (p', Return tt) ->
  animatedGIFBlob (app (world p')) = None.
Proof.
  intros Hflag Hblob Hrun. rewrite regenerate_run in Hrun.
  destruct (bool_decide _); [|by injection Hrun as <-].
  rewrite generateQR_run in Hrun. injection Hrun as <-.
  cbn [world]. unfold pathOf. rewrite Hflag. cbn [andb].
  destruct (String.eqb _ ""); [exact Hblob|].
  destruct (2953 <? _)%nat; [exact Hblob|].
  pose proof (generateStaticQR_noAnimation win self
                (configOf (controls p)) (world p) Hblob) as Hstatic.
  destruct (QRCodeApp.generateStaticQR win self _ (world p))
    as [w1 [[]|e]]; exact Hstatic.
Qed.

(** X19.  [removeLogo] clears the stored logo, its kind and the stored
    animation, hides and empties the preview, clears the file input and
    deselects every icon; it never throws.  The regeneration that
    follows when a code is displayed takes the static path, so no
    animation is stored afterwards either. *)
Theorem removeLogo_resets win self (p : Page) :
  exists p',
    QRCodeApp.removeLogo win self p = (p', Return tt) /\
    currentLogo (app (world p')) = None /\
    isAnimatedGIF (app (world p')) = false /\
    animatedGIFBlob (app (world p')) = None /\
    logoPreviewHidden (controls p') = true /\
    logoPreviewImgSrc (controls p') = ""%string /\
    logoUploadValue (controls p') =
      match logoUploadValue (controls p) with
      | Some _ => Some ""%string
      | None => None
      end /\
    iconItemsSelected (controls p') =
      map (fun _ => false) (iconItemsSelected (controls p)) /\
    (currentCanvas (ui (world p)) = None ->
     ui (world p') = ui (world p) /\ canvases (world p') = canvases (world p)).
Proof.
  unfold QRCodeApp.removeLogo.
  erewrite bindP_run by (apply liftW_run; reflexivity).
  erewrite bindP_run by (apply liftW_run; reflexivity).
  erewrite bindP_run by (apply liftW_run; reflexivity).
  erewrite bindP_run by reflexivity.
  erewrite bindP_run by reflexivity.
  erewrite bindP_run by reflexivity.
  match goal with |- context [QRCodeApp.regenerate win self ?p0] =>
    set (p6 := p0) end.
  assert (Hblob : animatedGIFBlob (app (world p6)) = None) by reflexivity.
  assert (Hflag : isAnimatedGIF (app (world p6)) = false) by reflexivity.
  destruct (regenerate_settles win self p6)
    as (p' & Hrun & [Hlogo Hkind] & Hwidgets & Hidle).
  exists p'. split; [exact Hrun|].
  destruct Hwidgets
    as (_ & _ & _ & _ & _ & _ & _ & Hsrc & Hhid & _ & _ & Hfile & Hicons).
  rewrite Hlogo, Hkind, Hsrc, Hhid, Hfile, Hicons.
  split; [reflexivity|]. split; [reflexivity|]. split.
  { exact (regenerate_static_noAnimation win self p6 p' Hflag Hblob Hrun). }
  split; [reflexivity|]. split; [reflexivity|].
  split; [reflexivity|]. split; [reflexivity|].
  intros Hnone. rewrite (Hidle Hnone). by split.
Qed.

Lemma removeLogo_resets_witness :
  exists p',
    QRCodeApp.removeLogo demoWindow demoApp
      {| world := demoWorld (Some "data:image/gif;base64,R0lG"%string) true;
         controls := demoControls |} = (p', Return tt) /\
    app (world p') =
      {| currentLogo := None; isAnimatedGIF := false;
         animatedGIFBlob := None |} /\
    iconItemsSelected (controls p') = [false; false; false].
Proof.
  destruct (removeLogo_resets demoWindow demoApp
              {| world := demoWorld (Some "data:image/gif;base64,R0lG"%string)
                            true;
                 controls := demoControls |})
    as (p' & Hrun & Hlogo & Hflag & Hblob & _ & _ & _ & Hicons & _).
  exists p'. split; [exact Hrun|]. split; [|exact Hicons].
  destruct (app (world p')). simpl in *. congruence.
Defined.

(** A file that [validateImageFile] accepts is an image for
    [fileToDataURL]. *)
Lemma valid_is_image numberToString (file : ImageProcessor.File)
    (maxSizeBytes : option Z) :
  ImageProcessor.valid
    (ImageProcessor.validateImageFile numberToString (Some file)
       maxSizeBytes) = true ->
  String.prefix "image/" (ImageProcessor.file_type file) = true.
Proof.
  unfold ImageProcessor.validateImageFile. cbv zeta.
  destruct (ImageProcessor.includes ImageProcessor.supportedFormats
              (ImageProcessor.file_type file)) eqn:Einc.
  - intros _. by apply supportedFormats_are_images.
  - cbn [negb ImageProcessor.pushIf ImageProcessor.valid].
    intros H. exfalso. apply Nat.eqb_eq in H.
    rewrite length_app in H. simpl in H. lia.
Qed.

Lemma resizeImage_run win (imageSrc : string)
    (maxWidth maxHeight : Double.t) (w : World) :
  ImageProcessor.resizeImage win imageSrc maxWidth maxHeight w =
  match Image_load win imageSrc with
  | Some image =>
      let size := ImageProcessor.resizedSize image maxWidth maxHeight in
      let canvas :=
        ImageProcessor.drawResized image size.1 size.2
          (mkCanvas (ImageProcessor.canvasLength 300 size.1)
             (ImageProcessor.canvasLength 150 size.2) black []) in
      (set_canvases (<[fresh (dom (canvases w)) := canvas]> (canvases w)) w,
       Return (toDataURL win canvas))
  | None => (w, Throw (Error "Failed to load image: [object Event]"))
  end.
Proof.
  unfold ImageProcessor.resizeImage, ImageProcessor.loadImage.
  destruct (Image_load win imageSrc) as [image|]; [|reflexivity].
  erewrite bind_run by reflexivity.
  destruct (ImageProcessor.resizedSize image maxWidth maxHeight)
    as [width height].
  erewrite bind_run by reflexivity.
  erewrite bind_run by apply onCanvas_insert.
  erewrite bind_run by apply onCanvas_insert.
  erewrite bind_run by apply onCanvas_insert.
  erewrite bind_run
    by (unfold getCanvas; rewrite canvasOf_insert_eq; reflexivity).
  reflexivity.
Qed.

Lemma bindP_assoc_run {A B C : Type} (m : P A) (k : A -> P B)
    (rest : B -> P C) (p p1 : Page) (a : A) :
  m p = (p1, Return a) ->
  ((m ≫= k) ≫= rest) p = ((k a) ≫= rest) p1.
Proof. intros H. unfold mbind, P_bind. by rewrite H. Qed.

Lemma bindP_assoc_throw {A B C : Type} (m : P A) (k : A -> P B)
    (rest : B -> P C) (p p1 : Page) (e : Exn) :
  m p = (p1, Throw e) ->
  ((m ≫= k) ≫= rest) p = (p1, Throw e).
Proof. intros H. unfold mbind, P_bind. by rewrite H. Qed.

(** What the upload handler does once the logo [url] of kind [animated]
    is known: store it, show it, close the icon picker, regenerate. *)
Lemma upload_tail win self (p p1 : Page) (url : string) (animated : bool) :
  controls p1 = controls p ->
  exists p',
    (_ ← (_ ← liftW (QRCodeApp.setCurrentLogo (Some url));
          _ ← liftW (QRCodeApp.setIsAnimatedGIF animated);
          UIController.showLogoPreview url);
     open ← (fun p0 : Page => (p0, Return (iconPickerOpen (controls p0))));
     _ ← (if open : bool then UIController.toggleIconPicker else mret tt);
     QRCodeApp.regenerate win self) p1 = (p', Return tt) /\
    logoStored p' url animated.
Proof.
  intros Hc.
  erewrite bindP_run.
  2:{ erewrite bindP_run by (apply liftW_run; reflexivity).
      erewrite bindP_run by (apply liftW_run; reflexivity).
      reflexivity. }
  erewrite bindP_run by reflexivity.
  cbn [controls set_controls iconPickerOpen]. rewrite Hc.
  destruct (iconPickerOpen (controls p)) eqn:Hopen.
  - erewrite bindP_run by reflexivity.
    match goal with |- context [QRCodeApp.regenerate win self ?p0] =>
      destruct (regenerate_settles win self p0)
        as (p' & -> & [Hlogo Hflag] & Hwidgets & _) end.
    exists p'. split; [reflexivity|].
    destruct Hwidgets
      as (_ & _ & _ & _ & _ & _ & _ & Hsrc & Hhid & _ & Hpick & _).
    unfold logoStored. rewrite Hlogo, Hflag, Hsrc, Hhid, Hpick.
    by repeat split.
  - erewrite bindP_run by reflexivity.
    match goal with |- context [QRCodeApp.regenerate win self ?p0] =>
      destruct (regenerate_settles win self p0)
        as (p' & -> & [Hlogo Hflag] & Hwidgets & _) end.
    exists p'. split; [reflexivity|].
    destruct Hwidgets
      as (_ & _ & _ & _ & _ & _ & _ & Hsrc & Hhid & _ & Hpick & _).
    unfold logoStored. rewrite Hlogo, Hflag, Hsrc, Hhid, Hpick.
    by repeat split.
Qed.

(** X20.  [handleLogoUpload] never throws.  A file that
    [validateImageFile] rejects only has its errors shown, joined by
    [', '].  An accepted GIF is stored as read, unresized, with
    [isAnimatedGIF] set; any other accepted image is stored as the data
    URL of the canvas on which [resizeImage(dataURL, 512, 512)] drew it,
    at the size computed in doubles and truncated by the canvas, with
    [isAnimatedGIF] cleared; either is shown in the preview and the icon
    picker ends closed.  When the file cannot be read, or the image does not load,
    all that happens is the error ['Failed to upload logo. Please try
    another image.']. *)
Theorem handleLogoUpload_stores_logo win numberToString self
    (file : ImageProcessor.File) (p : Page) :
  let validation :=
    ImageProcessor.validateImageFile numberToString (Some file) None in
  let failed :=
    afterError "Failed to upload logo. Please try another image." p in
  exists p',
    QRCodeApp.handleLogoUpload win numberToString self (Some file) p =
      (p', Return tt) /\
    (ImageProcessor.valid validation = false ->
     p' = afterError
            (String.concat ", " (ImageProcessor.errors validation)) p) /\
    (ImageProcessor.valid validation = true ->
     match readAsDataURL win (ImageProcessor.file_blob file) with
     | None => p' = failed
     | Some dataURL =>
         if String.eqb (ImageProcessor.file_type file) "image/gif" then
           logoStored p' dataURL true
         else
           match Image_load win dataURL with
           | None => p' = failed
           | Some image =>
               let size :=
                 ImageProcessor.resizedSize image (Double.ofZ 512)
                   (Double.ofZ 512) in
               logoStored p'
                 (toDataURL win
                    (ImageProcessor.drawResized image size.1 size.2
                       (mkCanvas (ImageProcessor.canvasLength 300 size.1)
                          (ImageProcessor.canvasLength 150 size.2) black [])))
                 false
           end
     end).
Proof.
  intros validation failed.
  unfold QRCodeApp.handleLogoUpload, try_catch_P. fold validation.
  destruct (ImageProcessor.valid validation) eqn:Hvalid; cbn [negb].
  2:{ eexists. split; [reflexivity|]. split; [reflexivity|done]. }
  pose proof (valid_is_image numberToString file None Hvalid) as Himage.
  unfold ImageProcessor.fileToDataURL. rewrite Himage. cbn [negb].
  destruct (readAsDataURL win (ImageProcessor.file_blob file))
    as [dataURL|].
  2:{ erewrite bindP_throw by (apply liftW_run; reflexivity).
      eexists. split; [reflexivity|]. split; [done|reflexivity]. }
  erewrite bindP_run by (apply liftW_run; reflexivity).
  destruct (String.eqb (ImageProcessor.file_type file) "image/gif").
  - match goal with |- context [mbind _ _ ?p1] =>
      destruct (upload_tail win self p p1 dataURL true eq_refl)
        as (p' & Hrun & Hstored) end.
    rewrite Hrun. exists p'. split; [reflexivity|]. split; [done|].
    intros _. exact Hstored.
  - pose proof (resizeImage_run win dataURL (Double.ofZ 512)
                  (Double.ofZ 512) (world p)) as Hresize.
    destruct (Image_load win dataURL) as [image|].
    + cbv zeta in Hresize.
      erewrite bindP_assoc_run by (apply liftW_run; exact Hresize).
      set (size := ImageProcessor.resizedSize image (Double.ofZ 512)
                     (Double.ofZ 512)) in *.
      match goal with |- context [mbind _ _ ?p1] =>
        destruct (upload_tail win self p p1
                    (toDataURL win
                       (ImageProcessor.drawResized image size.1 size.2
                          (mkCanvas (ImageProcessor.canvasLength 300 size.1)
                             (ImageProcessor.canvasLength 150 size.2)
                             black [])))
                    false eq_refl)
          as (p' & Hrun & Hstored) end.
      rewrite Hrun. exists p'. split; [reflexivity|]. split; [done|].
      intros _. exact Hstored.
    + erewrite bindP_assoc_throw by (apply liftW_run; exact Hresize).
      eexists. split; [reflexivity|]. split; [done|reflexivity].
Qed.

Lemma handleLogoUpload_stores_logo_witness :
  (exists p',
     QRCodeApp.handleLogoUpload demoWindow (fun _ => "5"%string) demoApp
       (Some (demoFile "image/gif" 6000000))
       {| world := demoWorld None false; controls := demoControls |} =
       (p', Return tt) /\
     logoStored p' "data:image/gif;base64,AAAA" true) /\
  (exists p',
     QRCodeApp.handleLogoUpload
       (demoWindowWith (mkImage 640 465 "photo.png") [])
       (fun _ => "5"%string) demoApp (Some (demoFile "image/png" 60000))
       {| world := demoWorld None false; controls := demoControls |} =
       (p', Return tt) /\
     logoStored p' "512x371" false).
Proof.
  split.
  - destruct (handleLogoUpload_stores_logo demoWindow (fun _ => "5"%string)
                demoApp (demoFile "image/gif" 6000000)
                {| world := demoWorld None false; controls := demoControls |})
      as (p' & Hrun & _ & Hvalid).
    exists p'. split; [exact Hrun|]. exact (Hvalid eq_refl).
  - destruct (handleLogoUpload_stores_logo
                (demoWindowWith (mkImage 640 465 "photo.png") [])
                (fun _ => "5"%string) demoApp (demoFile "image/png" 60000)
                {| world := demoWorld None false; controls := demoControls |})
      as (p' & Hrun & _ & Hvalid).
    exists p'. split; [exact Hrun|]. exact (Hvalid eq_refl).
Defined.

(** * The rounded logo background *)

(** X21.  In Rounded style the logo background is a rounded rectangle of
    corner radius [r = 0.2 * (size + 2 * padding)] around the box of the
    logo.  For a padding that is not negative it covers every point of
    the logo as soon as the corner of the box lies on it, that is when
    [r <= padding] or [2 * (r - padding)^2 <= r^2]; for a square logo,
    which fills the box, this condition is also necessary: otherwise the
    corner of the logo is drawn straight over the QR code. *)
Theorem logo_background_rounded image (x y size padding : Q) (bg : color)
    (dx dy dw dh : Q) :
  0 < img_width image -> 0 < img_height image ->
  (0 < size)%Q -> (0 <= padding)%Q ->
  ImageProcessor.logoRect image x y size = (dx, dy, dw, dh) ->
  let r := ((size + padding * 2) * (2 # 10))%Q in
  let mask := logoBackgroundOp x y size padding bg "rounded" in
  let logo := DrawImage image dx dy dw dh in
  ((r <= padding)%Q \/
   (2 * ((r - padding) * (r - padding)) <= r * r)%Q ->
   forall px py, covers logo px py = true -> covers mask px py = true) /\
  (img_width image = img_height image ->
   covers logo x y = true /\
   (covers mask x y = true ->
    (r <= padding)%Q \/
    (2 * ((r - padding) * (r - padding)) <= r * r)%Q)).
Proof.
  intros Hw Hh Hsize Hpad Hrect r mask logo.
  assert (Hr : (0 < r)%Q) by (unfold r; lra).
  assert (Hrs : (r + r < size + padding * 2)%Q) by (unfold r; lra).
  split.
  - intros Hcond px py Hlogo.
    destruct (logoRect_in_box image x y size dx dy dw dh Hw Hh
                ltac:(lra) Hrect) as (Hx1 & Hx2 & Hy1 & Hy2).
    simpl in Hlogo. apply inRect_spec in Hlogo.
    assert (Hpx : (x <= px < x + size)%Q) by lra.
    assert (Hpy : (y <= py < y + size)%Q) by lra.
    unfold mask, logoBackgroundOp. simpl. fold r.
    unfold inRoundedRect. rewrite !andb_true_iff.
    assert (Hcorner : forall cx cy : Q,
      (- (r - padding) <= px - cx <= r - padding)%Q ->
      (- (r - padding) <= py - cy <= r - padding)%Q ->
      (0 <= r - padding)%Q ->
      inCircle cx cy r px py = true).
    { intros cx cy Hax Hay Hpos. unfold inCircle, sq.
      apply Qle_bool_iff.
      destruct Hcond as [Hc|Hc]; [assert (r - padding == 0)%Q by lra|].
      - assert (px - cx == 0)%Q by lra. assert (py - cy == 0)%Q by lra.
        nra.
      - assert ((px - cx) * (px - cx) <= (r - padding) * (r - padding))%Q
          by nra.
        assert ((py - cy) * (py - cy) <= (r - padding) * (r - padding))%Q
          by nra.
        lra. }
    repeat split.
    + apply inRect_spec. lra.
    + destruct (Qlt_bool px (x - padding + r)) eqn:EL;
        destruct (Qlt_bool py (y - padding + r)) eqn:ET;
        cbn [andb implb]; try reflexivity.
      apply Qlt_bool_iff in EL, ET.
      apply Hcorner; lra.
    + destruct (Qlt_bool (x - padding + (size + padding * 2) - r) px)
        eqn:ER;
        destruct (Qlt_bool py (y - padding + r)) eqn:ET;
        cbn [andb implb]; try reflexivity.
      apply Qlt_bool_iff in ER, ET.
      apply Hcorner; lra.
    + destruct (Qlt_bool (x - padding + (size + padding * 2) - r) px)
        eqn:ER;
        destruct (Qlt_bool (y - padding + (size + padding * 2) - r) py)
          eqn:EB;
        cbn [andb implb]; try reflexivity.
      apply Qlt_bool_iff in ER, EB.
      apply Hcorner; lra.
    + destruct (Qlt_bool px (x - padding + r)) eqn:EL;
        destruct (Qlt_bool (y - padding + (size + padding * 2) - r) py)
          eqn:EB;
        cbn [andb implb]; try reflexivity.
      apply Qlt_bool_iff in EL, EB.
      apply Hcorner; lra.
  - intros Hsquare.
    rewrite (logoRect_square image x y size Hh Hsquare) in Hrect.
    injection Hrect as <- <- <- <-. split.
    + simpl. apply inRect_spec. halves. lra.
    + unfold mask, logoBackgroundOp. simpl. fold r.
      unfold inRoundedRect. rewrite !andb_true_iff.
      intros (_ & ((Hcorner & _) & _) & _).
      destruct (Qlt_le_dec padding r) as [Hlt|Hge]; [|by left].
      right.
      assert (EL : Qlt_bool x (x - padding + r) = true)
        by (apply Qlt_bool_iff; lra).
      assert (ET : Qlt_bool y (y - padding + r) = true)
        by (apply Qlt_bool_iff; lra).
      rewrite EL, ET in Hcorner. cbn [andb implb] in Hcorner.
      unfold inCircle, sq in Hcorner. apply Qle_bool_iff in Hcorner.
      lra.
Qed.

Lemma logo_background_rounded_witness :
  covers (logoBackgroundOp 96 96 64 10 white "rounded") 96%Q 96%Q = true /\
  covers (logoBackgroundOp 384 384 256 10 white "rounded") 384%Q 384%Q <>
    true.
Proof.
  pose (square := {| img_width := 64; img_height := 64;
                     img_src := "logo.png"%string |}).
  destruct (logo_background_rounded square 96 96 64 10 white
              _ _ _ _ ltac:(simpl; lia) ltac:(simpl; lia) ltac:(lra)
              ltac:(lra) eq_refl) as (Hcovers & _).
  destruct (logo_background_rounded square 384 384 256 10 white
              _ _ _ _ ltac:(simpl; lia) ltac:(simpl; lia) ltac:(lra)
              ltac:(lra) eq_refl) as (_ & Hcorner).
  split.
  - apply Hcovers; [right; vm_compute; discriminate|].
    reflexivity.
  - intros Hcov. destruct (Hcorner eq_refl) as [_ Honly].
    destruct (Honly Hcov) as [H|H]; vm_compute in H; by apply H.
Defined.

(** * The animated path when the text cannot be encoded *)

Lemma frameLoop_said_any win self config
    (remaining : list ImageProcessor.Frame) :
  forall (i total : nat) cs ds (w : World),
  exists msgs,
    said msgs w
      (QRCodeApp.frameLoop win self config remaining i total cs ds w).1.
Proof.
  induction remaining as [|frame rest IH]; intros i total cs ds w.
  - exists []. apply said_refl.
  - cbn [QRCodeApp.frameLoop].
    pose proof (processFrame_said win self config frame i total w) as Hstep.
    unfold mbind, M_bind.
    destruct (QRCodeApp.processFrame win self config frame i total w)
      as [w1 [out|e]]; cbn [fst] in Hstep; [|eauto].
    destruct (IH (S i) total (cs ++ [out])
                (ds ++ [ImageProcessor.delay frame]) w1) as [msgs Hrest].
    eexists. exact (said_trans _ _ _ _ _ Hstep Hrest).
Qed.

Lemma createAnimatedGIF_said_any win canvases0 delays (w : World) :
  exists msgs,
    said msgs w
      (ImageProcessor.createAnimatedGIF win canvases0 delays
         (Some (fun p =>
            UIController.showLoadingMessage
              ("Encoding GIF: " ++ pretty (QRCodeApp.percent p)
               ++ "%")%string)) w).1.
Proof.
  unfold ImageProcessor.createAnimatedGIF.
  destruct (GIF win) as [render|]; [|exists []; apply said_refl].
  destruct (length canvases0 =? 0)%nat; [exists []; apply said_refl|].
  destruct (addFrames_run canvases0 delays 0 (set_gifFrames [] w))
    as (added & Hadd & _).
  erewrite bind_run by reflexivity.
  rewrite (bind_run _ _ _ _ _ Hadd).
  erewrite bind_run by reflexivity.
  cbn [gifFrames set_gifFrames].
  destruct (render _) as [progress blob|progress error|error].
  - destruct (reportProgress_said progress
                (set_gifFrames ([] ++ added) (set_gifFrames [] w)))
      as (w1 & Hp & Hsaid & _).
    rewrite (bind_run _ _ _ _ _ Hp). exists (encodingMessages progress).
    eapply silent_said; [|exact Hsaid]. by apply said_same.
  - destruct (reportProgress_said progress
                (set_gifFrames ([] ++ added) (set_gifFrames [] w)))
      as (w1 & Hp & Hsaid & _).
    rewrite (bind_run _ _ _ _ _ Hp). exists (encodingMessages progress).
    eapply silent_said; [|exact Hsaid]. by apply said_same.
  - exists []. by apply said_same.
Qed.

(** When it throws, the animated path has shown loading messages and
    nothing else. *)
Lemma animatedPath_throw_said win self config (w w1 : World) (e : Exn) :
  QRCodeApp.animatedPath win self config w = (w1, Throw e) ->
  exists msgs, said msgs w w1.
Proof.
  unfold QRCodeApp.animatedPath.
  destruct (_ || _); [intros [= <- _]; exists []; apply said_refl|].
  pose proof (said_showLoadingMessage "Processing animated GIF..." w) as S1.
  erewrite bind_run by reflexivity.
  set (w0 := (UIController.showLoadingMessage "Processing animated GIF..."
                w).1) in *.
  change (UIController.showLoadingMessage "Processing animated GIF..." w)
    with (w0, Return tt).
  erewrite bind_run by reflexivity.
  destruct (parseGIF_run win (currentLogo (app w0))) as (o & Hparse & _).
  destruct o as [frames|e0].
  2:{ rewrite (bind_throw _ _ _ _ _ (Hparse _)). intros [= <- _]. eauto. }
  rewrite (bind_run _ _ _ _ _ (Hparse _)).
  destruct (frameLoop_said_any win self config frames 0 (length frames)
              [] [] w0) as [m2 S2].
  destruct (QRCodeApp.frameLoop win self config frames 0 (length frames)
              [] [] w0) as [w2 [[cs ds]|e0]] eqn:Hloop; cbn [fst] in S2.
  2:{ rewrite (bind_throw _ _ _ _ _ Hloop). intros [= <- _].
      eexists. exact (said_trans _ _ _ _ _ S1 S2). }
  rewrite (bind_run _ _ _ _ _ Hloop).
  pose proof (said_showLoadingMessage "Creating animated GIF..." w2) as S3.
  erewrite bind_run by reflexivity.
  set (w3 := (UIController.showLoadingMessage "Creating animated GIF..."
                w2).1) in *.
  change (UIController.showLoadingMessage "Creating animated GIF..." w2)
    with (w3, Return tt).
  destruct (createAnimatedGIF_said_any win cs ds w3) as [m4 S4].
  match goal with
    |- mbind _ (ImageProcessor.createAnimatedGIF _ _ _ ?cb) _ = _ -> _ =>
      destruct (ImageProcessor.createAnimatedGIF win cs ds cb w3)
        as [w4 [blob|e0]] eqn:Hgif
  end; cbn [fst] in S4.
  2:{ rewrite (bind_throw _ _ _ _ _ Hgif). intros [= <- _].
      eexists.
      exact (said_trans _ _ _ _ _ (said_trans _ _ _ _ _
               (said_trans _ _ _ _ _ S1 S2) S3) S4). }
  rewrite (bind_run _ _ _ _ _ Hgif).
  unfold ImageProcessor.blobToDataURL.
  destruct (readAsDataURL win blob) as [url|].
  - erewrite bind_run by reflexivity.
    erewrite bind_run by reflexivity. intros [=].
  - erewrite bind_throw by reflexivity. intros [= <- _]. eexists.
    exact (said_trans _ _ _ _ _ (said_trans _ _ _ _ _
             (said_trans _ _ _ _ _ S1 S2) S3) S4).
Qed.

(** When [generate] throws, the animated path does not return. *)
Lemma animatedPath_generate_throws win self config e (w : World) :
  (forall w0, exists calls,
     QRGenerator.generate win (QRCodeApp.qrGenerator self) config w0 =
       (set_encoderCalls calls w0, Throw e)) ->
  exists w1 e1, QRCodeApp.animatedPath win self config w = (w1, Throw e1).
Proof.
  intros Hfail. unfold QRCodeApp.animatedPath.
  destruct (_ || _); [eauto|].
  erewrite bind_run by reflexivity.
  erewrite bind_run by reflexivity.
  match goal with |- context [ImageProcessor.parseGIF win ?url] =>
    destruct (parseGIF_run win url) as (o & Hparse & Hres) end.
  destruct o as [frames|e0].
  2:{ rewrite (bind_throw _ _ _ _ _ (Hparse _)). eauto. }
  rewrite (bind_run _ _ _ _ _ (Hparse _)).
  destruct (Hres frames eq_refl) as (Hnonempty & _).
  destruct frames as [|frame rest]; [done|].
  match goal with
    |- context [mbind _ (QRCodeApp.frameLoop _ _ _ _ _ _ _ _) ?w0] =>
      destruct (frameLoop_generate_throws win self config e frame rest 0
                  (length (frame :: rest)) [] [] w0 Hfail) as [w1 Hthrow]
  end.
  rewrite (bind_throw _ _ _ _ _ Hthrow). eauto.
Qed.

(** X22.  With an animated logo, a text that passes [validateInput] but
    that the encoder takes at no type number earns the user two errors:
    first ['Failed to process animated GIF: ... Using static QR code.'],
    since the animated path fails, then ['Failed to generate QR code.
    Please try again.'], since the static fall-back fails as well and
    [generateAnimatedQR] lets that exception through.  What is
    displayed, the current canvas and the application state are as
    before. *)
Theorem generateQR_encoder_rejects_animated win self (p : Page) :
  let text := trim (qrInput (controls p)) in
  let ec := errorCorrectionSelect (controls p) in
  text <> ""%string -> (String.length text <= 2953)%nat ->
  (forall k, 1 <= k <= 40 -> accepts win k ec text = false) ->
  isAnimatedGIF (app (world p)) = true ->
  truthy (currentLogo (app (world p))) = true ->
  exists p' e,
    QRCodeApp.generateQR win self p = (p', Return tt) /\
    errorsShown (ui (world p')) =
      errorsShown (ui (world p)) ++
      [("Error: Failed to process animated GIF: " ++ message e ++
        ". Using static QR code.")%string;
       "Error: Failed to generate QR code. Please try again."%string] /\
    displayed (ui (world p')) = displayed (ui (world p)) /\
    currentCanvas (ui (world p')) = currentCanvas (ui (world p)) /\
    app (world p') = app (world p).
Proof.
  intros text ec Hne Hlen Hnone Hflag Hlogo.
  rewrite generateQR_run. fold text.
  replace (String.eqb text "") with false
    by (symmetry; by apply String.eqb_neq).
  replace (2953 <? String.length text)%nat with false
    by (symmetry; apply Nat.ltb_ge; exact Hlen).
  unfold pathOf. rewrite Hflag, Hlogo. cbn [andb].
  destruct (generate_rejected win (QRCodeApp.qrGenerator self)
              (configOf (controls p)) text eq_refl Hne Hnone) as [msg Hgen].
  destruct (animatedPath_generate_throws win self (configOf (controls p))
              _ (world p) Hgen) as (w1 & e & Hpath).
  destruct (animatedPath_throw_said _ _ _ _ _ _ Hpath)
    as (msgs & Happ & Hcur & Hdisp & Herr & _).
  unfold QRCodeApp.generateAnimatedQR, try_catch. rewrite Hpath.
  erewrite bind_run by reflexivity.
  match goal with |- context [QRCodeApp.generateStaticQR _ _ _ ?w2] =>
    destruct (Hgen w2) as [calls Hrun] end.
  unfold QRCodeApp.generateStaticQR.
  rewrite (bind_throw _ _ _ _ _ Hrun).
  eexists _, e. split; [reflexivity|].
  cbn [world ui app set_ui set_encoderCalls errorsShown displayed
       currentCanvas fst UIController.showError].
  rewrite Herr, Hdisp, Hcur, Happ, <- app_assoc. by repeat split.
Qed.

Lemma generateQR_encoder_rejects_animated_witness :
  exists p',
    QRCodeApp.generateQR demoWindow demoApp
      {| world := demoWorld (Some "data:image/gif;base64,R0lG"%string) true;
         controls := withInput (longText 121) demoControls |} =
      (p', Return tt) /\
    errorsShown (ui (world p')) =
      [("Error: Failed to process animated GIF: undefined" ++
        ". Using static QR code.")%string;
       "Error: Failed to generate QR code. Please try again."%string].
Proof.
  destruct (generateQR_encoder_rejects_animated demoWindow demoApp
              {| world := demoWorld (Some "data:image/gif;base64,R0lG"%string)
                            true;
                 controls := withInput (longText 121) demoControls |})
    as (p' & e & Hrun & Herr & _).
  - discriminate.
  - vm_compute. lia.
  - intros k Hk. cbv [accepts demoWindow qrcode demoEncoder].
    change (Z.of_nat (String.length
              (trim (qrInput (controls
                 {| world := demoWorld
                               (Some "data:image/gif;base64,R0lG"%string) true;
                    controls := withInput (longText 121) demoControls |})))))
      with 121.
    destruct (Z.leb_spec 121 (3 * k)); [lia|reflexivity].
  - reflexivity.
  - reflexivity.
  - exists p'. split; [exact Hrun|].
    vm_compute in Hrun. injection Hrun as <-. reflexivity.
Defined.

(** * The cost of the animated path *)

(** [generate] either throws on every page, or on every page makes the
    same encoder calls and renders the same matrix. *)
Lemma generate_cases win self config :
  (exists e, forall w, exists calls,
     QRGenerator.generate win self config w =
       (set_encoderCalls calls w, Throw e)) \/
  (exists text t qr,
     let ec := default "H"%string (QRGenerator.errorCorrection config) in
     QRGenerator.text config = Some text /\
     1 <= t <= 40 /\ accepts win t ec text = true /\
     (forall j, 1 <= j < t -> accepts win j ec text = false) /\
     forall w,
       QRGenerator.generate win self config w =
         (set_canvases
            (<[QRGenerator.canvas self :=
                 QRGenerator.renderToCanvas qr (renderOptionsOf config)
                   newCanvas]> (canvases w))
            (set_encoderCalls (encoderCalls w ++ encodeCalls t ec text) w),
          Return (QRGenerator.canvas self))).
Proof.
  destruct (QRGenerator.text config) as [text|] eqn:Htext.
  2:{ left. eexists. intros w. exists (encoderCalls w).
      unfold QRGenerator.generate. rewrite Htext.
      by rewrite set_encoderCalls_id. }
  destruct (String.eqb_spec text "") as [->|Hne].
  { left. eexists. intros w. exists (encoderCalls w).
    unfold QRGenerator.generate. rewrite Htext.
    by rewrite set_encoderCalls_id. }
  set (ec := default "H"%string (QRGenerator.errorCorrection config)).
  destruct (probeFrom_run win text ec 40 1) as (t & m & Hrun & Hres).
  destruct Hres as [(Hr & Hacc & Hmin & Hm)|(Hall & -> & ->)].
  - right. pose proof Hacc as Hacc'. apply accepts_true in Hacc' as [qr E].
    exists text, t, qr. cbv zeta. fold ec.
    split; [reflexivity|]. split; [lia|]. split; [exact Hacc|].
    split; [exact Hmin|]. intros w.
    rewrite (generate_nonempty win self config text w Htext Hne).
    fold ec. unfold QRGenerator.calculateTypeNumber. rewrite Hrun, E.
    cbv zeta. rewrite renderToCanvas_blank.
    unfold encodeCalls. replace (Z.to_nat t) with m by lia.
    unfold set_canvases, set_encoderCalls. simpl.
    by rewrite <- app_assoc.
  - left. pose proof (Hall 10 ltac:(lia)) as H10. unfold accepts in H10.
    destruct (qrcode win 10 ec text) as [msg|qr] eqn:E; [|discriminate].
    exists (ThrownString msg). intros w. eexists.
    rewrite (generate_nonempty win self config text w Htext Hne).
    fold ec. unfold QRGenerator.calculateTypeNumber. rewrite Hrun, E.
    reflexivity.
Qed.

Lemma createAnimatedGIF_heap win canvases0 delays (w w' : World)
    (blob : Blob) :
  ImageProcessor.createAnimatedGIF win canvases0 delays
    (Some (fun p =>
       UIController.showLoadingMessage
         ("Encoding GIF: " ++ pretty (QRCodeApp.percent p)
          ++ "%")%string)) w = (w', Return blob) ->
  canvases w' = canvases w /\ encoderCalls w' = encoderCalls w.
Proof.
  assert (Hprogress : forall progress w0 w1 o,
    ImageProcessor.reportProgress
      (Some (fun p =>
         UIController.showLoadingMessage
           ("Encoding GIF: " ++ pretty (QRCodeApp.percent p)
            ++ "%")%string)) progress w0 = (w1, o) ->
    canvases w1 = canvases w0 /\ encoderCalls w1 = encoderCalls w0).
  { induction progress as [|p rest IH]; intros w0 w1 o Hp.
    - by injection Hp as <- _.
    - cbn [ImageProcessor.reportProgress] in Hp.
      erewrite bind_run in Hp by reflexivity.
      by destruct (IH _ _ _ Hp) as [-> ->]. }
  intros Hrun. unfold ImageProcessor.createAnimatedGIF in Hrun.
  destruct (GIF win) as [render|]; [|discriminate Hrun].
  destruct (length canvases0 =? 0)%nat; [discriminate Hrun|].
  destruct (addFrames_run canvases0 delays 0 (set_gifFrames [] w))
    as (added & Hadd & _).
  erewrite bind_run in Hrun by reflexivity.
  rewrite (bind_run _ _ _ _ _ Hadd) in Hrun.
  erewrite bind_run in Hrun by reflexivity.
  destruct (render _) as [progress blob'|progress error|error];
    [| |discriminate Hrun].
  - unfold mbind, M_bind in Hrun.
    destruct (ImageProcessor.reportProgress _ progress _)
      as [w1 [[]|e]] eqn:Hp; [|discriminate Hrun].
    injection Hrun as <- _. by destruct (Hprogress _ _ _ _ Hp) as [-> ->].
  - unfold mbind, M_bind in Hrun.
    destruct (ImageProcessor.reportProgress _ progress _)
      as [w1 [[]|e]] eqn:Hp; discriminate Hrun.
Qed.

Section FrameCost.

Variable win : Window.
Variable self : QRCodeApp.t.
Variable config : QRGenerator.Options.
Variable code : Canvas.
Variable calls : list (Z * string * string).

Let g : nat := QRGenerator.canvas (QRCodeApp.qrGenerator self).

Hypothesis generate_run : forall w,
  QRGenerator.generate win (QRCodeApp.qrGenerator self) config w =
    (set_canvases (<[g := code]> (canvases w))
       (set_encoderCalls (encoderCalls w ++ calls) w),
     Return g).

(** One iteration makes the encoder calls of one [generate] and leaves
    two more canvases on the page. *)
Lemma processFrame_cost (frame : ImageProcessor.Frame) (i total : nat)
    (w w' : World) (out : nat) :
  is_Some (canvases w !! g) ->
  QRCodeApp.processFrame win self config frame i total w = (w', Return out) ->
  encoderCalls w' = encoderCalls w ++ calls /\
  size (canvases w') = (size (canvases w) + 2)%nat /\
  is_Some (canvases w' !! g).
Proof.
  intros Hg Hrun. unfold QRCodeApp.processFrame in Hrun.
  erewrite bind_run in Hrun by reflexivity.
  rewrite (bind_run _ _ _ _ _ (generate_run _)) in Hrun.
  rewrite (bind_run _ _ _ _ _ (imageDataToCanvas_run _ _)) in Hrun.
  erewrite bind_run in Hrun
    by (unfold getCanvas; rewrite canvasOf_insert_eq; reflexivity).
  cbn [canvases set_canvases set_encoderCalls set_ui encoderCalls] in Hrun.
  set (h1 := <[g := code]> (canvases w)) in *.
  set (f := fresh (dom h1)) in *.
  set (url := toDataURL win
                (frameCanvasOf (ImageProcessor.imageData frame))) in *.
  assert (Hg1 : is_Some (h1 !! g))
    by (unfold h1; rewrite lookup_insert_eq; eauto).
  assert (Hf : h1 !! f = None) by apply fresh_lookup.
  destruct (String.eqb_spec url "") as [Eurl|Hurl].
  { rewrite Eurl in Hrun. discriminate Hrun. }
  set (h2 := <[f := frameCanvasOf (ImageProcessor.imageData frame)]> h1)
    in *.
  assert (Hg2 : is_Some (h2 !! g)).
  { unfold h2. rewrite lookup_insert_ne; [done|].
    intros E. rewrite E in Hf. rewrite Hf in Hg1. by destruct Hg1. }
  match type of Hrun with
    ImageProcessor.addLogoOverlay _ _ _ _ _ ?w3 = _ =>
      pose proof (addLogoOverlay_run win (QRCodeApp.imageProcessor self) g
                    url (QRCodeApp.overlayOptions config) w3 Hg2 Hurl)
        as Hov
  end.
  cbv zeta in Hov. rewrite Hov in Hrun. clear Hov.
  cbn [canvases set_canvases] in Hrun.
  destruct (Image_load win url) as [img|]; [|discriminate Hrun].
  injection Hrun as <- <-.
  cbn [canvases set_canvases encoderCalls set_encoderCalls set_ui].
  split; [reflexivity|]. split.
  - rewrite map_size_insert_None by apply fresh_lookup.
    unfold h2. rewrite map_size_insert_None by exact Hf.
    unfold h1. rewrite map_size_insert_Some by exact Hg. lia.
  - rewrite lookup_insert_ne; [done|].
    intros E. pose proof (fresh_lookup h2) as Hnone.
    rewrite E in Hnone. rewrite Hnone in Hg2. by destruct Hg2.
Qed.

Lemma frameLoop_cost (remaining : list ImageProcessor.Frame) :
  forall (i total : nat) cs ds (w w' : World) r,
  is_Some (canvases w !! g) ->
  QRCodeApp.frameLoop win self config remaining i total cs ds w =
    (w', Return r) ->
  encoderCalls w' =
    encoderCalls w ++ concat (replicate (length remaining) calls) /\
  size (canvases w') = (size (canvases w) + 2 * length remaining)%nat.
Proof.
  induction remaining as [|frame rest IH];
    intros i total cs ds w w' r Hg Hrun.
  - injection Hrun as <- _. simpl. rewrite app_nil_r. split; [done|lia].
  - cbn [QRCodeApp.frameLoop] in Hrun.
    destruct (QRCodeApp.processFrame win self config frame i total w)
      as [w1 [out|e]] eqn:Hstep.
    2:{ rewrite (bind_throw _ _ _ _ _ Hstep) in Hrun. discriminate. }
    rewrite (bind_run _ _ _ _ _ Hstep) in Hrun.
    destruct (processFrame_cost frame i total w w1 out Hg Hstep)
      as (Hcalls & Hsize & Hg1).
    destruct (IH _ _ _ _ _ _ _ Hg1 Hrun) as [Hcalls' Hsize'].
    rewrite Hcalls', Hcalls, Hsize', Hsize. cbn [length replicate concat].
    rewrite <- app_assoc. split; [done|lia].
Qed.

End FrameCost.

(** X23.  What the animated path costs when it runs to its end: the text
    is encoded afresh for every frame (the probes of the type numbers 1
    to [t] and the final run at [t], [t] being the smallest type number
    that takes the text), and every frame leaves two more canvases on the
    page, its own and the composited one.  The QR code is the same for
    all frames. *)
Theorem animatedPath_encodes_per_frame win self config (w w' : World) :
  is_Some (canvases w !! QRGenerator.canvas (QRCodeApp.qrGenerator self)) ->
  QRCodeApp.animatedPath win self config w = (w', Return tt) ->
  let ec := default "H"%string (QRGenerator.errorCorrection config) in
  exists (frames : list ImageProcessor.Frame) (text : string) (t : Z),
    (forall w0, ImageProcessor.parseGIF win (currentLogo (app w)) w0 =
                  (w0, Return frames)) /\
    QRGenerator.text config = Some text /\
    1 <= t <= 40 /\ accepts win t ec text = true /\
    (forall j, 1 <= j < t -> accepts win j ec text = false) /\
    encoderCalls w' =
      encoderCalls w ++
      concat (replicate (length frames) (encodeCalls t ec text)) /\
    size (canvases w') = (size (canvases w) + 2 * length frames)%nat.
Proof.
  intros Hg Hrun ec.
  destruct (generate_cases win (QRCodeApp.qrGenerator self) config)
    as [[e Hfail]|(text & t & qr & Htext & Ht & Hacc & Hmin & Hgen)].
  { destruct (animatedPath_generate_throws win self config e w Hfail)
      as (w1 & e1 & Hthrow).
    rewrite Hthrow in Hrun. discriminate Hrun. }
  cbv zeta in Hgen. fold ec in Hacc, Hmin, Hgen.
  unfold QRCodeApp.animatedPath in Hrun.
  destruct (_ || _); [discriminate Hrun|].
  erewrite bind_run in Hrun by reflexivity.
  erewrite bind_run in Hrun by reflexivity.
  cbn [app set_ui] in Hrun.
  destruct (parseGIF_run win (currentLogo (app w))) as (o & Hparse & _).
  destruct o as [frames|e];
    [|rewrite (bind_throw _ _ _ _ _ (Hparse _)) in Hrun; discriminate Hrun].
  rewrite (bind_run _ _ _ _ _ (Hparse _)) in Hrun.
  match type of Hrun with mbind _ _ ?w0 = _ => set (w1 := w0) in * end.
  destruct (QRCodeApp.frameLoop win self config frames 0 (length frames)
              [] [] w1) as [w2 [[cs ds]|e]] eqn:Hloop;
    [|rewrite (bind_throw _ _ _ _ _ Hloop) in Hrun; discriminate Hrun].
  rewrite (bind_run _ _ _ _ _ Hloop) in Hrun.
  destruct (frameLoop_cost win self config _ _ Hgen frames 0 (length frames)
              [] [] w1 w2 (cs, ds) Hg Hloop) as [Hcalls Hsize].
  erewrite bind_run in Hrun by reflexivity.
  match type of Hrun with
    mbind _ (ImageProcessor.createAnimatedGIF _ _ _ ?cb) ?w3 = _ =>
      destruct (ImageProcessor.createAnimatedGIF win cs ds cb w3)
        as [w4 [blob|e]] eqn:Hgif
  end;
    [|rewrite (bind_throw _ _ _ _ _ Hgif) in Hrun; discriminate Hrun].
  rewrite (bind_run _ _ _ _ _ Hgif) in Hrun.
  destruct (createAnimatedGIF_heap _ _ _ _ _ _ Hgif) as [Hc4 He4].
  unfold ImageProcessor.blobToDataURL in Hrun.
  destruct (readAsDataURL win blob) as [url|]; [|discriminate Hrun].
  erewrite bind_run in Hrun by reflexivity.
  erewrite bind_run in Hrun by reflexivity.
  injection Hrun as <-.
  exists frames, text, t.
  split; [exact Hparse|]. split; [exact Htext|]. split; [exact Ht|].
  split; [exact Hacc|]. split; [exact Hmin|].
  cbn [canvases encoderCalls set_ui set_app].
  rewrite Hc4, He4. cbn [canvases encoderCalls set_ui].
  rewrite Hcalls, Hsize. split; reflexivity.
Qed.

Lemma animatedPath_encodes_per_frame_witness :
  exists w',
    QRCodeApp.animatedPath demoWindow demoApp (demoOptions "hi")
      (demoWorld (Some "data:image/gif;base64,R0lG"%string) true) =
      (w', Return tt) /\
    length (encoderCalls w') = 6%nat /\
    size (canvases w') = 8%nat.
Proof.
  destruct (QRCodeApp.animatedPath demoWindow demoApp (demoOptions "hi")
              (demoWorld (Some "data:image/gif;base64,R0lG"%string) true))
    as [w' [[]|e]] eqn:Hrun.
  - exists w'. split; [reflexivity|].
    destruct (animatedPath_encodes_per_frame demoWindow demoApp
                (demoOptions "hi")
                (demoWorld (Some "data:image/gif;base64,R0lG"%string) true)
                w' ltac:(eexists; reflexivity) Hrun)
      as (frames & text & t & Hparse & Htext & Ht & Hacc & Hmin & Hcalls &
          Hsize).
    specialize (Hparse (demoWorld None false)).
    vm_compute in Hparse. injection Hparse as <-.
    injection Htext as <-.
    assert (t = 1) as ->.
    { destruct (Z.eq_dec t 1) as [|Hne]; [done|].
      specialize (Hmin 1 ltac:(lia)). discriminate Hmin. }
    rewrite Hcalls, Hsize. split; reflexivity.
  - exfalso. vm_compute in Hrun. discriminate Hrun.
Defined.

(** * The animated path: the fall-back *)

(** After a failure of the animated path, for a text the encoder takes:
    the notice, then the static code. *)
Lemma generateAnimatedQR_fallback win self config text (w w1 : World)
    (e : Exn) :
  QRCodeApp.animatedPath win self config w = (w1, Throw e) ->
  QRGenerator.text config = Some text -> text <> ""%string ->
  let ec := default "H"%string (QRGenerator.errorCorrection config) in
  (exists k, 1 <= k <= 40 /\ accepts win k ec text = true) ->
  (forall logo img,
     currentLogo (app w) = Some logo -> Image_load win logo = Some img ->
     0 < img_width img /\ 0 < img_height img) ->
  exists (w0 w' : World) (t : Z) (qr : QRCode),
    QRCodeApp.generateAnimatedQR win self config w = (w', Return tt) /\
    1 <= t <= 40 /\ qrcode win t ec text = inr qr /\
    (forall j, 1 <= j < t -> accepts win j ec text = false) /\
    app w0 = app w /\
    errorsShown (ui w0) = errorsShown (ui w) ++ [fallbackNotice e] /\
    showsStatic win self config qr w0 w'.
Proof.
  intros Hpath Htext Hne ec Hvalid Hpos.
  destruct (animatedPath_throw_said _ _ _ _ _ _ Hpath)
    as (msgs & Happ & Hcur & Hdisp & Herr & _).
  set (w0 := (UIController.showError
                ("Failed to process animated GIF: " ++ message e ++
                 ". Using static QR code.") w1).1).
  assert (Happ0 : app w0 = app w) by exact Happ.
  destruct (generateStaticQR_run win self config text w0 Htext Hne Hvalid)
    as (w' & t & qr & Hrun & Ht & Hqr & Hmin & Hshown).
  { intros logo img Hlogo. apply Hpos. by rewrite <- Happ0. }
  exists w0, w', t, qr. split.
  { unfold QRCodeApp.generateAnimatedQR, try_catch. rewrite Hpath.
    erewrite bind_run by reflexivity. exact Hrun. }
  split; [exact Ht|]. split; [exact Hqr|]. split; [exact Hmin|].
  split; [exact Happ0|]. split; [|exact Hshown].
  unfold w0, fallbackNotice. cbn [fst UIController.showError ui set_ui
                                   errorsShown].
  by rewrite Herr.
Qed.

(** C6, as amended.  Whatever exception the animated path ends in,
    whichever step raised it, [generateAnimatedQR] shows the notice
    ['Failed to process animated GIF: <message>. Using static QR code.']
    and falls back on [generateStaticQR].  When the encoder takes the
    text at some type number in 1..40, [generateAnimatedQR] then returns
    normally and the static code is displayed: the matrix the encoder
    yields for the text at the smallest type number that takes it,
    rendered with the options of the call, under the overlay of the
    logo when the logo loads as a still image, or bare, after the error
    ['Failed to add logo. Using QR code without logo.'], when it does
    not; no animation is stored.  When the encoder takes the text at no
    type number, the fall-back fails as the frames did: the exception of
    the encoder leaves [generateAnimatedQR], the notice having been
    shown and the display left as it was. *)
Theorem animated_failure_falls_back win self config text (w w1 : World)
    (e : Exn) :
  QRCodeApp.animatedPath win self config w = (w1, Throw e) ->
  QRGenerator.text config = Some text -> text <> ""%string ->
  let ec := default "H"%string (QRGenerator.errorCorrection config) in
  ((exists k, 1 <= k <= 40 /\ accepts win k ec text = true) ->
   (forall logo img,
      currentLogo (app w) = Some logo -> Image_load win logo = Some img ->
      0 < img_width img /\ 0 < img_height img) ->
   exists (w0 w' : World) (t : Z) (qr : QRCode),
     QRCodeApp.generateAnimatedQR win self config w = (w', Return tt) /\
     1 <= t <= 40 /\ qrcode win t ec text = inr qr /\
     (forall j, 1 <= j < t -> accepts win j ec text = false) /\
     app w0 = app w /\
     errorsShown (ui w0) = errorsShown (ui w) ++ [fallbackNotice e] /\
     showsStatic win self config qr w0 w') /\
  ((forall k, 1 <= k <= 40 -> accepts win k ec text = false) ->
   exists (w' : World) (thrown : string),
     QRCodeApp.generateAnimatedQR win self config w =
       (w', Throw (ThrownString thrown)) /\
     errorsShown (ui w') = errorsShown (ui w) ++ [fallbackNotice e] /\
     displayed (ui w') = displayed (ui w) /\
     currentCanvas (ui w') = currentCanvas (ui w) /\
     app w' = app w /\
     canvases w' = canvases w1).
Proof.
  intros Hpath Htext Hne ec. split.
  - intros Hvalid Hpos.
    exact (generateAnimatedQR_fallback win self config text w w1 e Hpath
             Htext Hne Hvalid Hpos).
  - intros Hnone.
    destruct (generate_rejected win (QRCodeApp.qrGenerator self) config text
                Htext Hne Hnone) as [thrown Hgen].
    destruct (animatedPath_throw_said _ _ _ _ _ _ Hpath)
      as (msgs & Happ & Hcur & Hdisp & Herr & _).
    unfold QRCodeApp.generateAnimatedQR, try_catch. rewrite Hpath.
    erewrite bind_run by reflexivity.
    match goal with |- context [QRCodeApp.generateStaticQR _ _ _ ?w2] =>
      destruct (Hgen w2) as [calls Hrun] end.
    unfold QRCodeApp.generateStaticQR.
    rewrite (bind_throw _ _ _ _ _ Hrun).
    eexists _, thrown. split; [reflexivity|].
    cbn [ui app canvases set_ui set_encoderCalls errorsShown displayed
         currentCanvas fst UIController.showError].
    unfold fallbackNotice. rewrite Herr, Hdisp, Hcur, Happ.
    by repeat split.
Qed.

Lemma animated_failure_falls_back_witness :
  exists w' out,
    QRCodeApp.generateAnimatedQR demoWindowNoGIF demoApp (demoOptions "hi")
      (demoWorld (Some "data:image/gif;base64,R0lG"%string) true) =
      (w', Return tt) /\
    errorsShown (ui w') =
      [("Error: Failed to process animated GIF: GIF processing libraries " ++
        "not loaded. Please check your internet connection and refresh " ++
        "the page.. Using static QR code.")%string] /\
    displayed (ui w') =
      ShowsCanvas
        (overlayOf
           (QRGenerator.renderToCanvas
              {| getModuleCount := 21;
                 isDark := fun row col => Nat.even (row + col) |}
              (renderOptionsOf (demoOptions "hi")) newCanvas)
           {| img_width := 200; img_height := 100;
              img_src := "data:image/gif;base64,R0lG" |}
           (QRCodeApp.overlayOptions (demoOptions "hi"))) /\
    currentCanvas (ui w') = Some out /\
    animatedGIFBlob (app w') = None.
Proof.
  destruct (animatedPath_library_missing demoWindowNoGIF demoApp
              (demoOptions "hi")
              (demoWorld (Some "data:image/gif;base64,R0lG"%string) true)
              (or_intror eq_refl)) as [msg Hfail].
  destruct (proj1 (animated_failure_falls_back demoWindowNoGIF demoApp
                     (demoOptions "hi") "hi"%string _ _ _ Hfail eq_refl
                     ltac:(discriminate)))
    as (w0 & w' & t & qr & Hrun & Ht & Hqr & Hmin & Happ0 & Herr & Hblob & _ &
        Hshown).
  - exists 1. split; [lia|reflexivity].
  - intros logo img Hlogo Himg. injection Hlogo as <-.
    injection Himg as <-. simpl. lia.
  - assert (t = 1) as ->.
    { destruct (Z.eq_dec t 1) as [|Hne]; [done|].
      specialize (Hmin 1 ltac:(lia)). discriminate Hmin. }
    injection Hqr as <-.
    vm_compute in Hfail. injection Hfail as <-.
    rewrite Happ0 in Hshown. simpl in Hshown.
    destruct Hshown as (out & _ & _ & Hcur & _ & Hdisp & Herr').
    exists w', out. split; [exact Hrun|]. split; [by rewrite Herr', Herr|].
    split; [exact Hdisp|]. split; [exact Hcur|exact Hblob].
Defined.

(** C6, a counterexample.  A text of 121 characters passes the checks of
    the page, which takes up to 2953, but the encoder of the example
    holds 120 characters at most, as the real one holds fewer than 2953
    at the higher correction levels.  With an animated logo the frames
    decode, rendering the code for the first frame fails, and so does the
    fall-back: the exception leaves [generateAnimatedQR] and nothing is
    displayed. *)
Lemma animated_failure_propagates :
  exists w1 e w' e',
    QRCodeApp.animatedPath demoWindow demoApp (demoOptions (longText 121))
      (demoWorld (Some "data:image/gif;base64,R0lG"%string) true) =
      (w1, Throw e) /\
    QRCodeApp.generateAnimatedQR demoWindow demoApp
      (demoOptions (longText 121))
      (demoWorld (Some "data:image/gif;base64,R0lG"%string) true) =
      (w', Throw e') /\
    displayed (ui w') = Placeholder /\
    (String.length (longText 121) <= 2953)%nat.
Proof.
  eexists _, _, _, _.
  split; [vm_compute; reflexivity|].
  split; [vm_compute; reflexivity|].
  split; [reflexivity|]. vm_compute. lia.
Qed.

(** * The stale flag *)

(** X18.  The consequence of the stale flag.  Once a GIF was uploaded
    ([isAnimatedGIF] set) and a code is displayed, choosing a preset
    icon (a path, with no comma in it) sends the regeneration down the
    animated path, where [parseGIF] refuses the path; the user is shown
    ['Failed to process animated GIF: Failed to parse GIF file: Invalid
    data URL format. Using static QR code.'] and gets the static code:
    the matrix the encoder yields for the text of the form at the
    smallest type number that takes it, rendered with the options of the
    form, under the overlay of the icon when the icon loads (with
    positive width and height), or bare, after the error ['Failed to add
    logo. Using QR code without logo.'], when it does not.  The flag
    stays set. *)
Theorem handleIconSelect_after_gif win self (iconPath : string) (p : Page) :
  let c := controls p in
  let text := trim (qrInput c) in
  let ec := errorCorrectionSelect c in
  isAnimatedGIF (app (world p)) = true ->
  is_Some (currentCanvas (ui (world p))) ->
  iconPath <> ""%string ->
  ~ In ","%char (list_ascii_of_string iconPath) ->
  is_Some (gifuct win) -> is_Some (GIF win) ->
  text <> ""%string -> (String.length text <= 2953)%nat ->
  (exists k, 1 <= k <= 40 /\ accepts win k ec text = true) ->
  (forall img, Image_load win iconPath = Some img ->
     0 < img_width img /\ 0 < img_height img) ->
  exists (p' : Page) (w0 : World) (t : Z) (qr : QRCode),
    QRCodeApp.handleIconSelect win self iconPath p = (p', Return tt) /\
    1 <= t <= 40 /\ qrcode win t ec text = inr qr /\
    (forall j, 1 <= j < t -> accepts win j ec text = false) /\
    currentLogo (app w0) = Some iconPath /\
    errorsShown (ui w0) =
      errorsShown (ui (world p)) ++
      [("Error: Failed to process animated GIF: Failed to parse GIF file: "
        ++ "Invalid data URL format. Using static QR code.")%string] /\
    showsStatic win self (configOf c) qr w0 (world p') /\
    isAnimatedGIF (app (world p')) = true.
Proof.
  intros c text ec Hflag Hcanvas Hicon Hnocomma [decode Hgifuct]
    [render HGIF] Hne Hlen Hvalid Hpos.
  unfold QRCodeApp.handleIconSelect, try_catch_P.
  erewrite bindP_run by (apply liftW_run; reflexivity).
  erewrite bindP_run by reflexivity.
  erewrite bindP_run by reflexivity.
  rewrite regenerate_run.
  cbn [world controls set_controls ui set_app].
  rewrite bool_decide_eq_true_2 by exact Hcanvas.
  rewrite generateQR_run.
  cbn [world controls set_controls qrInput]. fold c text.
  replace (String.eqb text "") with false
    by (symmetry; by apply String.eqb_neq).
  replace (2953 <? String.length text)%nat with false
    by (symmetry; apply Nat.ltb_ge; exact Hlen).
  unfold pathOf. cbn [app set_app isAnimatedGIF currentLogo].
  rewrite Hflag.
  replace (truthy (Some iconPath)) with true
    by (destruct iconPath; [done|reflexivity]).
  cbn [andb].
  match goal with
    |- context [QRCodeApp.generateAnimatedQR win self ?config ?w0] =>
      set (cfg := config); set (w3 := w0)
  end.
  assert (Hpath : QRCodeApp.animatedPath win self cfg w3 =
            ((UIController.showLoadingMessage "Processing animated GIF..."
                w3).1,
             Throw (Error
               "Failed to parse GIF file: Invalid data URL format"))).
  { unfold QRCodeApp.animatedPath. rewrite Hgifuct, HGIF.
    rewrite !bool_decide_eq_true_2 by eauto. cbn [negb orb].
    erewrite bind_run by reflexivity.
    erewrite bind_run by reflexivity.
    erewrite bind_throw; [reflexivity|].
    by apply (parseGIF_no_comma win decode). }
  destruct (generateAnimatedQR_fallback win self cfg text w3 _ _ Hpath
              eq_refl Hne Hvalid)
    as (w0 & w' & t & qr & Hrun & Ht & Hqr & Hmin & Happ0 & Herr & Hshown).
  { intros logo img Hlogo. injection Hlogo as <-. apply Hpos. }
  pose proof (keepsLogo_generateAnimatedQR win self cfg w3) as [_ Hkeep].
  rewrite Hrun in Hkeep |- *. cbn [fst] in Hkeep.
  eexists _, w0, t, qr. split; [reflexivity|]. cbn [world].
  split; [exact Ht|]. split; [exact Hqr|]. split; [exact Hmin|].
  split; [by rewrite Happ0|]. split; [exact Herr|].
  split; [exact Hshown|]. by rewrite Hkeep.
Qed.

Lemma handleIconSelect_after_gif_witness :
  exists p' out,
    QRCodeApp.handleIconSelect demoWindow demoApp "assets/icons/github.svg"
      {| world :=
           (UIController.displayQR (Some 0%nat)
              (demoWorld (Some "data:image/gif;base64,R0lG"%string) true)).1;
         controls := demoControls |} = (p', Return tt) /\
    currentCanvas (ui (world p')) = Some out /\
    displayed (ui (world p')) =
      ShowsCanvas
        (overlayOf
           (QRGenerator.renderToCanvas
              {| getModuleCount := 21;
                 isDark := fun row col => Nat.even (row + col) |}
              (renderOptionsOf (configOf demoControls)) newCanvas)
           {| img_width := 200; img_height := 100;
              img_src := "assets/icons/github.svg" |}
           (QRCodeApp.overlayOptions (configOf demoControls))) /\
    errorsShown (ui (world p')) =
      [("Error: Failed to process animated GIF: Failed to parse GIF file: "
        ++ "Invalid data URL format. Using static QR code.")%string].
Proof.
  destruct (handleIconSelect_after_gif demoWindow demoApp
              "assets/icons/github.svg"
              {| world :=
                   (UIController.displayQR (Some 0%nat)
                      (demoWorld (Some "data:image/gif;base64,R0lG"%string)
                         true)).1;
                 controls := demoControls |})
    as (p' & w0 & t & qr & Hrun & Ht & Hqr & Hmin & Hlogo & Herr & Hshown & _).
  - reflexivity.
  - eexists. reflexivity.
  - discriminate.
  - simpl. intros H. repeat (destruct H as [H|H]; [discriminate H|]).
    exact H.
  - eexists. reflexivity.
  - eexists. reflexivity.
  - discriminate.
  - vm_compute. lia.
  - exists 1. split; [lia|reflexivity].
  - intros img Himg. injection Himg as <-. simpl. lia.
  - assert (t = 1) as ->.
    { destruct (Z.eq_dec t 1) as [|Hne]; [done|].
      specialize (Hmin 1 ltac:(lia)). discriminate Hmin. }
    injection Hqr as <-.
    destruct Hshown as (_ & _ & Hshown). rewrite Hlogo in Hshown.
    simpl in Hshown.
    destruct Hshown as (out & _ & _ & Hcur & _ & Hdisp & Herr').
    exists p', out. split; [exact Hrun|]. split; [exact Hcur|].
    split; [exact Hdisp|]. by rewrite Herr', Herr.
Defined.
